(** * supadata-go: request construction and response resolution

    A shallow embedding of the Go client [supadata.go]: the options-based
    configuration ([NewSupadata] and the [With...] options), the per-endpoint
    request builders, and the response resolver ([handleRawResponse],
    [handleResponse] and the probe-then-decode logic of [Transcript]); and
    of the example program that calls the client, the error printer
    [handleError] and the polling loop [pollTranscript].

    Go strings are byte sequences and are modelled by [string] (8-bit
    [ascii]); Go [int] and [time.Duration] values by [Z]; Go maps by [gmap];
    a returned pair of pointer and error by the sum [Result]; a nil-pointer
    dereference by [Panic]. The parts of the Go standard library the client
    calls (encoding/json, net/url, net/http) are modelled in the modules
    [json], [url] and [http]; the network and the well-formedness test of
    net/url are parameters of the client. Parameter structs are passed by
    value: a call with a nil [params] pointer, which panics in Go, is not
    among the calls modelled. *)

From Stdlib Require Import ZArith String Ascii List Bool Lia DecimalString.
From stdpp Require Import base option list strings gmap sorting.

Set Warnings "-register-all".

(** ** Bytes and byte strings *)

Definition byte_val (c : ascii) : N := N_of_ascii c.

Definition in_range (lo hi : N) (c : ascii) : bool :=
  ((lo <=? byte_val c) && (byte_val c <=? hi))%N.

Definition dquote : ascii := ascii_of_N 34.

Definition is_digit (c : ascii) : bool := in_range 48 57 c.
Definition is_upper (c : ascii) : bool := in_range 65 90 c.
Definition is_lower (c : ascii) : bool := in_range 97 122 c.
Definition is_alnum (c : ascii) : bool := is_digit c || is_upper c || is_lower c.

Definition to_upper (c : ascii) : ascii :=
  if is_lower c then ascii_of_N (byte_val c - 32) else c.
Definition to_lower (c : ascii) : ascii :=
  if is_upper c then ascii_of_N (byte_val c + 32) else c.

(** Value of a hexadecimal digit ([ishex]/[unhex] of net/url, [getu4] of
    encoding/json). *)
Definition unhex (c : ascii) : option N :=
  if is_digit c then Some (byte_val c - 48)%N
  else if in_range 97 102 c then Some (byte_val c - 97 + 10)%N
  else if in_range 65 70 c then Some (byte_val c - 65 + 10)%N
  else None.

Fixpoint take_s (n : nat) (s : string) : string :=
  match n, s with
  | S n, String c r => String c (take_s n r)
  | _, _ => EmptyString
  end.

Fixpoint drop_s (n : nat) (s : string) : string :=
  match n, s with
  | S n, String _ r => drop_s n r
  | _, _ => s
  end.

(** [strings.CutPrefix]. *)
Fixpoint strip_prefix (p s : string) : option string :=
  match p, s with
  | EmptyString, _ => Some s
  | String a p', String b s' => if Ascii.eqb a b then strip_prefix p' s' else None
  | String _ _, EmptyString => None
  end.

(** [strings.Cut] at a single byte: the text before the first [sep], the text
    after it, and whether [sep] occurs. *)
Fixpoint cut (sep : ascii) (s : string) : string * string * bool :=
  match s with
  | EmptyString => (EmptyString, EmptyString, false)
  | String c r =>
      if Ascii.eqb c sep then (EmptyString, r, true)
      else let '(a, b, found) := cut sep r in (String c a, b, found)
  end.

(** [strings.Split] at a single byte. *)
Fixpoint split (sep : ascii) (s : string) : list string :=
  match s with
  | EmptyString => [EmptyString]
  | String c r =>
      if Ascii.eqb c sep then EmptyString :: split sep r
      else match split sep r with
           | h :: t => String c h :: t
           | [] => [String c EmptyString]
           end
  end.

(** [strings.Contains] for a single byte. *)
Fixpoint contains (c : ascii) (s : string) : bool :=
  match s with
  | EmptyString => false
  | String d r => Ascii.eqb d c || contains c r
  end.

(** [strings.Join]. *)
Fixpoint join (sep : string) (l : list string) : string :=
  match l with
  | [] => EmptyString
  | [x] => x
  | x :: r => x +:+ sep +:+ join sep r
  end.

(** The verb [%d] of [fmt.Sprintf] applied to an [int]. *)
Definition Sprintf_d (n : Z) : string := NilZero.string_of_int (Z.to_int n).

(** [rewrite_quotes] writes a JSON text with ['] standing for the double
    quote, so that response bodies read as in the tests. *)
Fixpoint rewrite_quotes (s : string) : string :=
  match s with
  | EmptyString => EmptyString
  | String c r => String (if Ascii.eqb c "'" then dquote else c) (rewrite_quotes r)
  end.

(** ** encoding/json *)

Module json.

(** A JSON text as [checkValid] accepts and [decodeState] walks it. String
    values and member names hold the bytes [unquote] produces; a number keeps
    its literal. Members stay in source order, duplicates included. *)
Inductive Value : Type :=
  | Null
  | Bool (b : bool)
  | Number (lit : string)
  | Str (s : string)
  | Array (elems : list Value)
  | Object (members : list (string * Value)).

(** The two errors [Unmarshal] returns: [*SyntaxError] for a text that is not
    JSON, [*UnmarshalTypeError] for a JSON value that does not fit the Go
    target ([value] is the kind of JSON value, [target] the Go type). *)
Inductive Error : Type :=
  | SyntaxError
  | UnmarshalTypeError (value : string) (target : string).

(** *** Scanner *)

Definition isSpace (c : ascii) : bool :=
  Ascii.eqb c " " || (Ascii.eqb c (ascii_of_N 9) || (Ascii.eqb c (ascii_of_N 13) || Ascii.eqb c (ascii_of_N 10))).

Fixpoint skip_space (s : string) : string :=
  match s with
  | String c r => if isSpace c then skip_space r else s
  | EmptyString => s
  end.

Definition is_simple_escape (c : ascii) : bool :=
  existsb (Ascii.eqb c) [dquote; "\"; "/"; "b"; "f"; "n"; "r"; "t"]%char.

Definition is_hex (c : ascii) : bool := bool_decide (is_Some (unhex c)).

(** The string states of the scanner ([stateInString], [stateInStringEsc],
    [stateInStringEscU...]): the argument starts after the opening quote; the
    result is the raw text up to the closing quote and the rest of the input. *)
Fixpoint scan_string (s : string) : option (string * string) :=
  match s with
  | EmptyString => None
  | String c r =>
      if Ascii.eqb c dquote then Some (EmptyString, r)
      else if Ascii.eqb c "\" then
        match r with
        | String e r1 =>
            if is_simple_escape e then
              '(raw, rest) ← scan_string r1; Some (String c (String e raw), rest)
            else if Ascii.eqb e "u" then
              match r1 with
              | String h1 (String h2 (String h3 (String h4 r2))) =>
                  if is_hex h1 && is_hex h2 && is_hex h3 && is_hex h4 then
                    '(raw, rest) ← scan_string r2;
                    Some (String c (String e (String h1 (String h2 (String h3 (String h4 raw))))), rest)
                  else None
              | _ => None
              end
            else None
        | EmptyString => None
        end
      else if (byte_val c <? 32)%N then None
      else '(raw, rest) ← scan_string r; Some (String c raw, rest)
  end.

(** Longest prefix of decimal digits. *)
Fixpoint span_digits (s : string) : string * string :=
  match s with
  | String c r =>
      if is_digit c then let '(d, rest) := span_digits r in (String c d, rest)
      else (EmptyString, s)
  | EmptyString => (EmptyString, EmptyString)
  end.

(** The number states of the scanner ([stateNeg], [state0], [state1],
    [stateDot], [stateE], ...): the literal and the rest of the input. *)
Definition scan_number (s : string) : option (string * string) :=
  let '(sign, s1) :=
    match s with String "-" r => ("-", r) | _ => (EmptyString, s) end in
  '(int, s2) ←
    match s1 with
    | String "0" r => Some ("0", r)
    | String c _ => if is_digit c then Some (span_digits s1) else None
    | EmptyString => None
    end;
  '(frac, s3) ←
    match s2 with
    | String "." r =>
        let '(d, rest) := span_digits r in
        if String.eqb d EmptyString then None else Some (String "." d, rest)
    | _ => Some (EmptyString, s2)
    end;
  '(exp, s4) ←
    match s3 with
    | String e r =>
        if Ascii.eqb e "e" || Ascii.eqb e "E" then
          let '(esign, r1) :=
            match r with
            | String "+" r' => ("+", r')
            | String "-" r' => ("-", r')
            | _ => (EmptyString, r)
            end in
          let '(d, rest) := span_digits r1 in
          if String.eqb d EmptyString then None
          else Some (String e (esign +:+ d), rest)
        else Some (EmptyString, s3)
    | EmptyString => Some (EmptyString, s3)
    end;
  Some (sign +:+ int +:+ frac +:+ exp, s4).

(** *** Unquoting ([unquoteBytes]) *)

Definition is_cont (c : ascii) : bool := in_range 128 191 c.

(** [utf8.DecodeRune]: the length of the well-formed encoding at the head of
    the input, or [None] where Go returns [(RuneError, 1)]. *)
Definition utf8_len (s : string) : option nat :=
  match s with
  | EmptyString => None
  | String b0 r =>
      let x := byte_val b0 in
      if (x <? 128)%N then Some 1
      else if in_range 194 223 b0 then
        match r with
        | String b1 _ => if is_cont b1 then Some 2 else None
        | _ => None
        end
      else if in_range 224 239 b0 then
        match r with
        | String b1 (String b2 _) =>
            let lo := if (x =? 224)%N then 160%N else 128%N in
            let hi := if (x =? 237)%N then 159%N else 191%N in
            if in_range lo hi b1 && is_cont b2 then Some 3 else None
        | _ => None
        end
      else if in_range 240 244 b0 then
        match r with
        | String b1 (String b2 (String b3 _)) =>
            let lo := if (x =? 240)%N then 144%N else 128%N in
            let hi := if (x =? 244)%N then 143%N else 191%N in
            if in_range lo hi b1 && is_cont b2 && is_cont b3 then Some 4 else None
        | _ => None
        end
      else None
  end.

Definition bytes (l : list N) : string :=
  fold_right (fun n s => String (ascii_of_N n) s) EmptyString l.

(** U+FFFD, [unicode.ReplacementChar]. *)
Definition replacement : string := bytes [239; 191; 189]%N.

(** [utf8.AppendRune]. *)
Definition encode_rune (r : N) : string :=
  (if r <? 128 then bytes [r]
   else if r <? 2048 then bytes [192 + r / 64; 128 + r mod 64]
   else if (55296 <=? r) && (r <=? 57343) then replacement
   else if r <? 65536 then bytes [224 + r / 4096; 128 + (r / 64) mod 64; 128 + r mod 64]
   else if r <=? 1114111 then
     bytes [240 + r / 262144; 128 + (r / 4096) mod 64; 128 + (r / 64) mod 64; 128 + r mod 64]
   else replacement)%N.

(** [getu4]: the code unit of a leading [\uXXXX]. *)
Definition getu4 (s : string) : option N :=
  match s with
  | String "\" (String "u" (String h1 (String h2 (String h3 (String h4 _))))) =>
      a ← unhex h1; b ← unhex h2; c ← unhex h3; d ← unhex h4;
      Some (((a * 16 + b) * 16 + c) * 16 + d)%N
  | _ => None
  end.

Definition is_surrogate (r : N) : bool := ((55296 <=? r) && (r <? 57344))%N.

(** [utf16.DecodeRune]. *)
Definition utf16_pair (r1 r2 : N) : option N :=
  (if (55296 <=? r1) && (r1 <? 56320) && (56320 <=? r2) && (r2 <? 57344)
   then Some ((r1 - 55296) * 1024 + (r2 - 56320) + 65536)
   else None)%N.

Definition escape_byte (c : ascii) : ascii :=
  if Ascii.eqb c "b" then ascii_of_N 8
  else if Ascii.eqb c "f" then ascii_of_N 12
  else if Ascii.eqb c "n" then ascii_of_N 10
  else if Ascii.eqb c "r" then ascii_of_N 13
  else if Ascii.eqb c "t" then ascii_of_N 9
  else c.

(** The Go string denoted by the raw text of a string literal: escapes are
    resolved, an unpaired surrogate becomes U+FFFD, and a byte that does not
    start well-formed UTF-8 is replaced by U+FFFD. The fuel bounds the number
    of steps by the length of the text. *)
Fixpoint unquote_loop (fuel : nat) (s : string) : string :=
  match fuel with
  | O => EmptyString
  | S fuel =>
      match s with
      | EmptyString => EmptyString
      | String "\" (String e r) =>
          if Ascii.eqb e "u" then
            match getu4 s with
            | Some rr =>
                let s6 := drop_s 6 s in
                if is_surrogate rr then
                  match getu4 s6 ≫= utf16_pair rr with
                  | Some dec => encode_rune dec +:+ unquote_loop fuel (drop_s 6 s6)
                  | None => replacement +:+ unquote_loop fuel s6
                  end
                else encode_rune rr +:+ unquote_loop fuel s6
            | None => EmptyString
            end
          else String (escape_byte e) (unquote_loop fuel r)
      | String _ r =>
          match utf8_len s with
          | Some n => take_s n s +:+ unquote_loop fuel (drop_s n s)
          | None => replacement +:+ unquote_loop fuel r
          end
      end
  end.

Definition unquote (raw : string) : string := unquote_loop (String.length raw) raw.

(** *** Parser *)

(** [maxNestingDepth] of the scanner: arrays and objects nest this deep at
    most. *)
Definition maxNestingDepth : nat := 10000.

(** One value at the head of the input, and the rest of the input. [depth] is
    the number of arrays and objects already open; [fuel] bounds the number of
    calls ([parse] supplies enough for the whole input). *)
Fixpoint parse_value (fuel depth : nat) (s : string) : option (Value * string) :=
  match fuel with
  | O => None
  | S fuel =>
      match skip_space s with
      | EmptyString => None
      | String c r =>
          if Ascii.eqb c "{" then
            if bool_decide (depth < maxNestingDepth) then
              match skip_space r with
              | String "}" r' => Some (Object [], r')
              | r' => parse_members fuel (S depth) r' []
              end
            else None
          else if Ascii.eqb c "[" then
            if bool_decide (depth < maxNestingDepth) then
              match skip_space r with
              | String "]" r' => Some (Array [], r')
              | r' => parse_elements fuel (S depth) r' []
              end
            else None
          else if Ascii.eqb c dquote then
            '(raw, rest) ← scan_string r; Some (Str (unquote raw), rest)
          else if Ascii.eqb c "-" || is_digit c then
            '(lit, rest) ← scan_number (String c r); Some (Number lit, rest)
          else
            match strip_prefix "true" (String c r) with
            | Some rest => Some (Bool true, rest)
            | None =>
                match strip_prefix "false" (String c r) with
                | Some rest => Some (Bool false, rest)
                | None =>
                    match strip_prefix "null" (String c r) with
                    | Some rest => Some (Null, rest)
                    | None => None
                    end
                end
            end
      end
  end
with parse_elements (fuel depth : nat) (s : string) (acc : list Value)
    : option (Value * string) :=
  match fuel with
  | O => None
  | S fuel =>
      '(v, r) ← parse_value fuel depth s;
      match skip_space r with
      | String "," r' => parse_elements fuel depth r' (v :: acc)
      | String "]" r' => Some (Array (rev (v :: acc)), r')
      | _ => None
      end
  end
with parse_members (fuel depth : nat) (s : string) (acc : list (string * Value))
    : option (Value * string) :=
  match fuel with
  | O => None
  | S fuel =>
      match skip_space s with
      | String c r =>
          if Ascii.eqb c dquote then
            '(raw, r1) ← scan_string r;
            match skip_space r1 with
            | String ":" r2 =>
                '(v, r3) ← parse_value fuel depth r2;
                match skip_space r3 with
                | String "," r' => parse_members fuel depth r' ((unquote raw, v) :: acc)
                | String "}" r' => Some (Object (rev ((unquote raw, v) :: acc)), r')
                | _ => None
                end
            | _ => None
            end
          else None
      | EmptyString => None
      end
  end.

(** [checkValid] followed by the walk of the decoder: the value a whole input
    denotes, [None] where Go reports a [*SyntaxError]. *)
Definition parse (data : string) : option Value :=
  '(v, rest) ← parse_value (2 * String.length data + 2) 0 data;
  match skip_space rest with
  | EmptyString => Some v
  | _ => None
  end.

(** *** Decoding into Go values ([decodeState]) *)

(** [d.saveError] keeps the first error. *)
Definition saveError (saved new : option Error) : option Error :=
  match saved with
  | Some _ => saved
  | None => new
  end.

(** The kind of JSON value an [*UnmarshalTypeError] names. *)
Definition kind (v : Value) : string :=
  match v with
  | Null => "null"
  | Bool _ => "bool"
  | Number _ => "number"
  | Str _ => "string"
  | Array _ => "array"
  | Object _ => "object"
  end.

(** A Go type [Unmarshal] can fill: its zero value, its name, and [store],
    which is [d.value] at that type: the target after the JSON value was
    stored into it, and the error saved on the way (decoding continues after
    a type error). *)
Class Unmarshaler (T : Type) : Type := {
  zero : T;
  typeName : string;
  store : Value -> T -> T * option Error
}.

(** [json.Unmarshal(data, &target)] with a freshly declared target, as every
    call of the client has it: the target after the call and the returned
    error. *)
Definition Unmarshal (T : Type) `{Unmarshaler T} (data : string) : T * option Error :=
  match parse data with
  | None => (zero, Some SyntaxError)
  | Some v => store v zero
  end.

(** Go [string]. *)
#[global] Instance string_unmarshaler : Unmarshaler string := {|
  zero := EmptyString;
  typeName := "string";
  store v old :=
    match v with
    | Str s => (s, None)
    | Null => (old, None)
    | _ => (old, Some (UnmarshalTypeError (kind v) "string"))
    end
|}.

(** Go [float64]. The decoded number is kept as its literal; of
    [strconv.ParseFloat] the model has the one way it fails on a JSON number:
    a value that rounds to infinity. *)
Inductive float64 : Type := Float64 (lit : string).

Definition digits_value (s : string) : Z :=
  fold_left (fun acc c => acc * 10 + Z.of_N (byte_val c - 48))%Z (list_ascii_of_string s) 0%Z.

(** The exponent as [readFloat] accumulates it: digits are taken while the
    value is below 10000. *)
Definition exponent_value (s : string) : Z :=
  fold_left (fun acc c => if (acc <? 10000)%Z then acc * 10 + Z.of_N (byte_val c - 48) else acc)%Z
            (list_ascii_of_string s) 0%Z.

(** [ParseFloat(lit, 64)] returns [ErrRange]: the magnitude is at least
    2^1024 - 2^970, half an ulp above the largest finite float64. *)
Definition float_overflows (lit : string) : bool :=
  let s := match lit with String "-" r => r | _ => lit end in
  let '(int, s1) := span_digits s in
  let '(frac, s2) :=
    match s1 with String "." r => span_digits r | _ => (EmptyString, s1) end in
  let exp :=
    match s2 with
    | String _ (String "-" r) => (- exponent_value r)%Z
    | String _ (String "+" r) => exponent_value r
    | String _ r => exponent_value r
    | EmptyString => 0%Z
    end in
  let mant := digits_value (int +:+ frac) in
  let scale := (exp - Z.of_nat (String.length frac))%Z in
  let limit := (2 ^ 1024 - 2 ^ 970)%Z in
  if (mant =? 0)%Z then false
  else if (0 <=? scale)%Z then
    if (400 <? scale)%Z then true else (limit <=? mant * 10 ^ scale)%Z
  else if (Z.of_nat (String.length (int +:+ frac)) <? - scale)%Z then false
  else (limit * 10 ^ (- scale) <=? mant)%Z.

#[global] Instance float64_unmarshaler : Unmarshaler float64 := {|
  zero := Float64 "0";
  typeName := "float64";
  store v old :=
    match v with
    | Number lit =>
        if float_overflows lit
        then (old, Some (UnmarshalTypeError ("number " +:+ lit) "float64"))
        else (Float64 lit, None)
    | Null => (old, None)
    | _ => (old, Some (UnmarshalTypeError (kind v) "float64"))
    end
|}.

(** A Go slice. The array is decoded element by element, each into a zero
    element, as the package documents it (the slice is reset, then every
    element is appended); [null] gives the nil slice. For a member that
    occurs once in its object this is what the decoder does; for a repeated
    member the decoder may store into what the earlier array left in the
    slice, which changes element values only, never the error. A nil and an
    empty slice are both the empty list. *)
#[global] Instance slice_unmarshaler (T : Type) `{Unmarshaler T} : Unmarshaler (list T) := {|
  zero := [];
  typeName := "[]" +:+ typeName (T := T);
  store v old :=
    match v with
    | Array elems =>
        fold_left (fun '(acc, err) e =>
                     let '(x, err') := store e zero in (acc ++ [x], saveError err err'))
                  elems ([], None)
    | Null => ([], None)
    | _ => (old, Some (UnmarshalTypeError (kind v) ("[]" +:+ typeName (T := T))))
    end
|}.

(** [foldName]: ASCII letters go to upper case, and the two runes outside
    ASCII whose fold orbit meets ASCII go to its least member: U+017F (long
    s) to [S] and U+212A (Kelvin sign) to [K]. Every other rune folds to a
    rune outside ASCII; its bytes are kept, which compares with the all-ASCII
    names of the structs below exactly as the folded rune does. *)
Fixpoint foldName (s : string) : string :=
  match s with
  | EmptyString => EmptyString
  | String c r =>
      match r with
      | String c1 r1 =>
          if (byte_val c =? 197)%N && (byte_val c1 =? 191)%N then String "S" (foldName r1)
          else
            match r1 with
            | String c2 r2 =>
                if (byte_val c =? 226)%N && (byte_val c1 =? 132)%N && (byte_val c2 =? 170)%N
                then String "K" (foldName r2)
                else String (to_upper c) (foldName r)
            | EmptyString => String (to_upper c) (foldName r)
            end
      | EmptyString => String (to_upper c) EmptyString
      end
  end.

Fixpoint index_of {A : Type} (p : A -> bool) (l : list A) : option nat :=
  match l with
  | [] => None
  | x :: r => if p x then Some 0 else S <$> index_of p r
  end.

(** The struct field a member name selects, as [d.object] looks it up: the
    field of exactly that JSON name, else the first field whose folded name
    equals the folded member name. *)
Definition find_field (names : list string) (key : string) : option nat :=
  match index_of (String.eqb key) names with
  | Some i => Some i
  | None => index_of (fun n => String.eqb (foldName n) (foldName key)) names
  end.

(** One member of an object stored into a struct: [set i] stores a value into
    the [i]th field; a member that selects no field is skipped. *)
Definition store_member {T : Type} (names : list string)
    (set : nat -> Value -> T -> T * option Error)
    (acc : T * option Error) (member : string * Value) : T * option Error :=
  match find_field names member.1 with
  | Some i => let '(t', err') := set i member.2 acc.1 in (t', saveError acc.2 err')
  | None => acc
  end.

(** [d.object] and [d.literalStore] at a struct type with the JSON field
    names [names]. Members are stored in source order, so a later duplicate
    overwrites an earlier one; [null] leaves the struct as it is. *)
Definition store_struct {T : Type} (tname : string) (names : list string)
    (set : nat -> Value -> T -> T * option Error) (v : Value) (old : T)
    : T * option Error :=
  match v with
  | Object members => fold_left (store_member names set) members (old, None)
  | Null => (old, None)
  | _ => (old, Some (UnmarshalTypeError (kind v) tname))
  end.

(** *** Encoding Go values ([json.Marshal]) *)

(** A Go string as the encoder writes it: bytes that are not well-formed
    UTF-8 are replaced by U+FFFD. *)
Fixpoint coerce_utf8 (fuel : nat) (s : string) : string :=
  match fuel with
  | O => EmptyString
  | S fuel =>
      match s with
      | EmptyString => EmptyString
      | String _ r =>
          match utf8_len s with
          | Some n => take_s n s +:+ coerce_utf8 fuel (drop_s n s)
          | None => replacement +:+ coerce_utf8 fuel r
          end
      end
  end.

Definition marshal_string (s : string) : Value := Str (coerce_utf8 (String.length s) s).
Definition marshal_int (n : Z) : Value := Number (Sprintf_d n).

(** A struct field tagged [omitempty]: left out when [empty]. *)
Definition omitempty (empty : bool) (name : string) (v : Value) : list (string * Value) :=
  if empty then [] else [(name, v)].

(** [json.RawMessage]: the undecoded value of a member. *)
Definition RawMessage : Type := Value.

Definition insert_member (m : gmap string RawMessage) (member : string * Value)
    : gmap string RawMessage :=
  <[member.1 := member.2]> m.

(** Go [map[string]json.RawMessage]: every member is inserted under its name,
    a later duplicate replacing an earlier one; [null] gives the nil map,
    which reads as the empty map. *)
#[global] Instance rawmap_unmarshaler : Unmarshaler (gmap string RawMessage) := {|
  zero := ∅;
  typeName := "map[string]json.RawMessage";
  store v old :=
    match v with
    | Object members => (fold_left insert_member members old, None)
    | Null => (∅, None)
    | _ => (old, Some (UnmarshalTypeError (kind v) "map[string]json.RawMessage"))
    end
|}.

(** Go [int], 64 bits wide. [strconv.ParseInt] takes a JSON number when it
    is an integer literal, without fraction and exponent, in the range of
    [int64]. *)
Definition int_literal (lit : string) : option Z :=
  let '(neg, s) := match lit with String "-" r => (true, r) | _ => (false, lit) end in
  let '(digits, rest) := span_digits s in
  if String.eqb rest EmptyString && negb (String.eqb digits EmptyString) then
    let n := if neg then (- digits_value digits)%Z else digits_value digits in
    if ((- 2 ^ 63 <=? n) && (n <? 2 ^ 63))%Z then Some n else None
  else None.

#[global] Instance int_unmarshaler : Unmarshaler Z := {|
  zero := 0%Z;
  typeName := "int";
  store v old :=
    match v with
    | Number lit =>
        match int_literal lit with
        | Some n => (n, None)
        | None => (old, Some (UnmarshalTypeError ("number " +:+ lit) "int"))
        end
    | Null => (old, None)
    | _ => (old, Some (UnmarshalTypeError (kind v) "int"))
    end
|}.

(** A Go pointer. [null] sets it to nil; every other value is stored into
    what it points to, which is a new zero value when the pointer was nil
    ([indirect] allocates before the value is looked at, so the pointer is
    set even when the store then fails). *)
#[global] Instance pointer_unmarshaler (T : Type) `{Unmarshaler T} : Unmarshaler (option T) := {|
  zero := None;
  typeName := "*" +:+ typeName (T := T);
  store v old :=
    match v with
    | Null => (None, None)
    | _ => let '(x, err) := store v (default zero old) in (Some x, err)
    end
|}.

End json.

(** ** net/url *)

Module url.

(** [shouldEscape(c, encodeQueryComponent)]: everything but the unreserved
    bytes is escaped. *)
Definition shouldEscape (c : ascii) : bool :=
  negb (is_alnum c || existsb (Ascii.eqb c) ["-"; "_"; "."; "~"]%char).

Definition upperhex (n : N) : ascii :=
  nth (N.to_nat n) (list_ascii_of_string "0123456789ABCDEF") "0"%char.

(** [url.QueryEscape]. *)
Fixpoint QueryEscape (s : string) : string :=
  match s with
  | EmptyString => EmptyString
  | String c r =>
      if shouldEscape c then
        if Ascii.eqb c " " then String "+" (QueryEscape r)
        else String "%" (String (upperhex (byte_val c / 16))
                                (String (upperhex (byte_val c mod 16)) (QueryEscape r)))
      else String c (QueryEscape r)
  end.

(** [url.QueryUnescape]; [None] is the [EscapeError] for a [%] that two
    hexadecimal digits do not follow. *)
Fixpoint QueryUnescape (s : string) : option string :=
  match s with
  | EmptyString => Some EmptyString
  | String c r =>
      if Ascii.eqb c "%" then
        match r with
        | String a (String b r') =>
            match unhex a, unhex b with
            | Some x, Some y => String (ascii_of_N (x * 16 + y)) <$> QueryUnescape r'
            | _, _ => None
            end
        | _ => None
        end
      else if Ascii.eqb c "+" then String " " <$> QueryUnescape r
      else String c <$> QueryUnescape r
  end.

(** [url.Values] is [map[string][]string]. *)
Abbreviation Values := (gmap string (list string)).

Definition Values_Get (key : string) (v : Values) : string :=
  match v !! key with
  | Some (x :: _) => x
  | _ => EmptyString
  end.

Definition Values_Set (key value : string) (v : Values) : Values :=
  <[key := [value]]> v.

Definition Values_Add (key value : string) (v : Values) : Values :=
  <[key := default [] (v !! key) ++ [value]]> v.

(** The keys in the order [slices.Sort] puts them: bytewise lexicographic. *)
Definition sorted_keys (v : Values) : list string :=
  merge_sort (fun a b => String.leb a b) (map_to_list v).*1.

(** [Values.Encode]: [key=value] entries joined by [&], keys sorted, the
    values of one key in their order. *)
Definition Values_Encode (v : Values) : string :=
  join "&"
    (flat_map (fun k => map (fun x => QueryEscape k +:+ "=" +:+ QueryEscape x)
                            (default [] (v !! k)))
              (sorted_keys v)).

(** One round of the loop of [parseQuery] on the piece before the next [&];
    the flag records that an error was met (the piece is then dropped). *)
Definition parse_piece (acc : Values * bool) (piece : string) : Values * bool :=
  let '(m, err) := acc in
  if contains ";" piece then (m, true)
  else if String.eqb piece EmptyString then (m, err)
  else
    let '(key, value, _) := cut "=" piece in
    match QueryUnescape key with
    | None => (m, true)
    | Some key' =>
        match QueryUnescape value with
        | None => (m, true)
        | Some value' => (Values_Add key' value' m, err)
        end
    end.

(** [url.ParseQuery]: the values parsed and whether an error is returned
    along with them. A bound on the number of parameters, where a release of
    Go has one, is not part of the model. *)
Definition ParseQuery (query : string) : Values * bool :=
  fold_left parse_piece (split "&" query) (∅, false).

(** Of a parsed [*url.URL] the client reads and writes [RawQuery] only; the
    scheme, authority and path stay together in [Location] as written. *)
Record URL : Type := {
  Location : string;
  RawQuery : string;
  Fragment : string
}.

(** [url.Parse]. The fragment is cut at the first [#], then the query at the
    first [?]. The conditions under which Go rejects the text (control
    bytes, a malformed scheme, authority or escape) are the parameter
    [wellformed]. *)
Definition Parse (wellformed : string -> bool) (rawURL : string) : option URL :=
  if wellformed rawURL then
    let '(u, frag, _) := cut "#" rawURL in
    let '(rest, query, _) := cut "?" u in
    Some {| Location := rest; RawQuery := query; Fragment := frag |}
  else None.

(** [URL.Query]: the parsed query, the error of [ParseQuery] dropped. *)
Definition URL_Query (u : URL) : Values := fst (ParseQuery (RawQuery u)).

Definition set_RawQuery (q : string) (u : URL) : URL :=
  {| Location := Location u; RawQuery := q; Fragment := Fragment u |}.

End url.

(** ** net/http *)

Module http.

(** [httpguts.IsTokenRune], which is also [validHeaderFieldByte]. *)
Definition isToken (c : ascii) : bool :=
  is_alnum c
  || existsb (Ascii.eqb c)
       ["!"; "#"; "$"; "%"; "&"; "'"; "*"; "+"; "-"; "."; "^"; "_"; "`"; "|"; "~"]%char.

Fixpoint forall_bytes (p : ascii -> bool) (s : string) : bool :=
  match s with
  | EmptyString => true
  | String c r => p c && forall_bytes p r
  end.

(** The rewriting loop of [canonicalMIMEHeaderKey]: upper case at the start
    and after each dash, lower case elsewhere. *)
Fixpoint canonical (upper : bool) (s : string) : string :=
  match s with
  | EmptyString => EmptyString
  | String c r =>
      let c' := if upper then to_upper c else to_lower c in
      String c' (canonical (Ascii.eqb c' "-") r)
  end.

(** [textproto.CanonicalMIMEHeaderKey]: a key with a byte that is not a token
    byte is returned as it is. *)
Definition CanonicalMIMEHeaderKey (s : string) : string :=
  if forall_bytes isToken s then canonical true s else s.

(** [http.Header] is [map[string][]string] under canonical keys. *)
Abbreviation Header := (gmap string (list string)).

Definition Header_Set (key value : string) (h : Header) : Header :=
  <[CanonicalMIMEHeaderKey key := [value]]> h.

Definition Header_Get (key : string) (h : Header) : string :=
  match h !! CanonicalMIMEHeaderKey key with
  | Some (x :: _) => x
  | _ => EmptyString
  end.

Definition Header_Values (key : string) (h : Header) : list string :=
  default [] (h !! CanonicalMIMEHeaderKey key).

(** [Body] is the JSON text [json.Marshal] produced for a POST, held as the
    value it denotes; [None] is the nil body of a GET. *)
Record Request : Type := {
  Method : string;
  URL : url.URL;
  Header_of : Header;
  Body : option json.Value
}.

Definition with_URL (u : url.URL) (r : Request) : Request :=
  {| Method := Method r; URL := u; Header_of := Header_of r; Body := Body r |}.

Definition with_Header (h : Header) (r : Request) : Request :=
  {| Method := Method r; URL := URL r; Header_of := h; Body := Body r |}.

(** [validMethod]. *)
Definition validMethod (m : string) : bool :=
  negb (String.eqb m EmptyString) && forall_bytes isToken m.

(** [http.NewRequest]: [None] where Go returns an error (an invalid method or
    a URL that does not parse); the request starts without headers. *)
Definition NewRequest (wellformed : string -> bool) (method rawURL : string)
    (body : option json.Value) : option Request :=
  let method := if String.eqb method EmptyString then "GET" else method in
  if validMethod method then
    u ← url.Parse wellformed rawURL;
    Some {| Method := method; URL := u; Header_of := ∅; Body := body |}
  else None.

(** A completed exchange as the client sees it: the status code, and what
    [io.ReadAll] gets from the body: the bytes, or the error of a failed
    read. *)
Record Response : Type := {
  StatusCode : Z;
  ResponseBody : string;
  ReadError : option string
}.

(** An [http.RoundTripper]; the client only stores and passes it on. *)
Inductive RoundTripper : Type :=
  | NoTransport
  | DefaultTransport
  | CustomTransport (id : nat).

(** [http.Client]. [Timeout] is a [time.Duration], in nanoseconds;
    [CheckRedirect] and [Jar] are held by identity, [None] for nil. *)
Record Client : Type := {
  Transport : RoundTripper;
  CheckRedirect : option nat;
  Jar : option nat;
  Timeout : Z
}.

Definition with_Timeout (t : Z) (c : Client) : Client :=
  {| Transport := Transport c; CheckRedirect := CheckRedirect c; Jar := Jar c; Timeout := t |}.

End http.

(** [time.Second], in nanoseconds. *)
Definition Second : Z := 1000000000.

(** ** Package supadata: types

    The named string types ([ErrorIdentifier], [TranscriptModeParam],
    [YouTubeSearchFeature]) are [string] under another name, as in Go. *)

Definition BaseUrl : string := "https://api.supadata.ai/v1".

Abbreviation ErrorIdentifier := string.

Definition InvalidRequest : ErrorIdentifier := "invalid-request".
Definition InternalError : ErrorIdentifier := "internal-error".
Definition Forbidden : ErrorIdentifier := "forbidden".
Definition Unauthorized : ErrorIdentifier := "unauthorized".
Definition UpgradeRequired : ErrorIdentifier := "upgrade-required".
Definition TranscriptUnavailable : ErrorIdentifier := "transcript-unavailable".
Definition NotFound : ErrorIdentifier := "not-found".
Definition LimitExceeded : ErrorIdentifier := "limit-exceeded".

(** The eight identifiers the package declares. *)
Definition identifiers : list ErrorIdentifier :=
  [InvalidRequest; InternalError; Forbidden; Unauthorized; UpgradeRequired;
   TranscriptUnavailable; NotFound; LimitExceeded].

Module ErrorResponse.
Record t : Type := mk {
  ErrorIdentifier : ErrorIdentifier;
  Message : string;
  Details : string;
  DocumentationUrl : string
}.

(** The method [Error]: [fmt.Sprintf] with the format [%s: %s]. *)
Definition Error (e : t) : string := ErrorIdentifier e +:+ ": " +:+ Message e.

(** The JSON names of the fields, from the struct tags. *)
Definition fields : list string := ["error"; "message"; "details"; "documentationUrl"].

(** The field at a position of [fields]. *)
Definition get (i : nat) (e : t) : string :=
  match i with
  | 0 => ErrorIdentifier e
  | 1 => Message e
  | 2 => Details e
  | _ => DocumentationUrl e
  end.

Definition set (i : nat) (v : json.Value) (e : t) : t * option json.Error :=
  match i with
  | 0 => let '(x, err) := json.store v (ErrorIdentifier e) in
         (mk x (Message e) (Details e) (DocumentationUrl e), err)
  | 1 => let '(x, err) := json.store v (Message e) in
         (mk (ErrorIdentifier e) x (Details e) (DocumentationUrl e), err)
  | 2 => let '(x, err) := json.store v (Details e) in
         (mk (ErrorIdentifier e) (Message e) x (DocumentationUrl e), err)
  | _ => let '(x, err) := json.store v (DocumentationUrl e) in
         (mk (ErrorIdentifier e) (Message e) (Details e) x, err)
  end.

#[global] Instance unmarshaler : json.Unmarshaler t := {|
  json.zero := mk EmptyString EmptyString EmptyString EmptyString;
  json.typeName := "supadata.ErrorResponse";
  json.store := json.store_struct "supadata.ErrorResponse" fields set
|}.
End ErrorResponse.

Module TranscriptContent.
Record t : Type := mk {
  Text : string;
  Offset : json.float64;
  Duration : json.float64;
  Lang : string
}.

Definition fields : list string := ["text"; "offset"; "duration"; "lang"].

Definition set (i : nat) (v : json.Value) (c : t) : t * option json.Error :=
  match i with
  | 0 => let '(x, err) := json.store v (Text c) in (mk x (Offset c) (Duration c) (Lang c), err)
  | 1 => let '(x, err) := json.store v (Offset c) in (mk (Text c) x (Duration c) (Lang c), err)
  | 2 => let '(x, err) := json.store v (Duration c) in (mk (Text c) (Offset c) x (Lang c), err)
  | _ => let '(x, err) := json.store v (Lang c) in (mk (Text c) (Offset c) (Duration c) x, err)
  end.

#[global] Instance unmarshaler : json.Unmarshaler t := {|
  json.zero := mk EmptyString json.zero json.zero EmptyString;
  json.typeName := "supadata.TranscriptContent";
  json.store := json.store_struct "supadata.TranscriptContent" fields set
|}.
End TranscriptContent.

Module SyncTranscript.
Record t : Type := mk {
  Content : list TranscriptContent.t;
  Lang : string;
  AvailableLangs : list string
}.

Definition fields : list string := ["content"; "lang"; "availableLangs"].

Definition set (i : nat) (v : json.Value) (s : t) : t * option json.Error :=
  match i with
  | 0 => let '(x, err) := json.store v (Content s) in (mk x (Lang s) (AvailableLangs s), err)
  | 1 => let '(x, err) := json.store v (Lang s) in (mk (Content s) x (AvailableLangs s), err)
  | _ => let '(x, err) := json.store v (AvailableLangs s) in (mk (Content s) (Lang s) x, err)
  end.

#[global] Instance unmarshaler : json.Unmarshaler t := {|
  json.zero := mk [] EmptyString [];
  json.typeName := "supadata.SyncTranscript";
  json.store := json.store_struct "supadata.SyncTranscript" fields set
|}.
End SyncTranscript.

Module AsyncTranscript.
Record t : Type := mk { JobId : string }.

Definition fields : list string := ["jobId"].

Definition set (i : nat) (v : json.Value) (a : t) : t * option json.Error :=
  let '(x, err) := json.store v (JobId a) in (mk x, err).

#[global] Instance unmarshaler : json.Unmarshaler t := {|
  json.zero := mk EmptyString;
  json.typeName := "supadata.AsyncTranscript";
  json.store := json.store_struct "supadata.AsyncTranscript" fields set
|}.
End AsyncTranscript.

(** The result of a transcript fetch: two pointers, [None] for nil. *)
Module Transcript.
Record t : Type := mk {
  Sync : option SyncTranscript.t;
  Async : option AsyncTranscript.t
}.

Definition IsAsync (r : t) : bool := bool_decide (Async r ≠ None).
End Transcript.

Abbreviation TranscriptModeParam := string.
Definition Native : TranscriptModeParam := "native".
Definition Auto : TranscriptModeParam := "auto".
Definition Generate : TranscriptModeParam := "generate".

Module TranscriptParams.
Record t : Type := mk {
  Url : string;
  Lang : string;
  Text : bool;
  ChunkSize : Z;
  Mode : TranscriptModeParam
}.
End TranscriptParams.

Module ScrapeParams.
Record t : Type := mk { Url : string; NoLinks : bool; Lang : string }.
End ScrapeParams.

Module MapParams.
Record t : Type := mk { Url : string; NoLinks : bool; Lang : string }.
End MapParams.

Module CrawlBody.
Record t : Type := mk { Url : string; Limit : Z }.

Definition Marshal (p : t) : json.Value :=
  json.Object ([("url", json.marshal_string (Url p))]
               ++ json.omitempty (Limit p =? 0)%Z "limit" (json.marshal_int (Limit p))).
End CrawlBody.

Abbreviation YouTubeSearchFeature := string.
Definition FeatureHD : YouTubeSearchFeature := "hd".
Definition FeatureLive : YouTubeSearchFeature := "live".

(** The field [Type] of the Go structs is [Type_] here. *)
Module YouTubeSearchParams.
Record t : Type := mk {
  Query : string;
  UploadDate : string;
  Type_ : string;
  Duration : string;
  SortBy : string;
  Features : list YouTubeSearchFeature;
  Limit : Z;
  NextPageToken : string
}.
End YouTubeSearchParams.

Module YouTubeVideoBatchParams.
Record t : Type := mk {
  VideoIds : list string;
  PlaylistId : string;
  ChannelId : string;
  Limit : Z
}.

Definition Marshal (p : t) : json.Value :=
  json.Object
    (json.omitempty (bool_decide (VideoIds p = [])) "videoIds"
       (json.Array (map json.marshal_string (VideoIds p)))
     ++ json.omitempty (String.eqb (PlaylistId p) EmptyString) "playlistId"
          (json.marshal_string (PlaylistId p))
     ++ json.omitempty (String.eqb (ChannelId p) EmptyString) "channelId"
          (json.marshal_string (ChannelId p))
     ++ json.omitempty (Limit p =? 0)%Z "limit" (json.marshal_int (Limit p))).
End YouTubeVideoBatchParams.

Module YouTubeTranscriptParams.
Record t : Type := mk {
  Url : string; VideoId : string; Text : bool; ChunkSize : Z; Lang : string
}.
End YouTubeTranscriptParams.

Module YouTubeTranscriptBatchParams.
Record t : Type := mk {
  VideoIds : list string;
  PlaylistId : string;
  ChannelId : string;
  Limit : Z;
  Lang : string;
  Text : bool
}.

Definition Marshal (p : t) : json.Value :=
  json.Object
    (json.omitempty (bool_decide (VideoIds p = [])) "videoIds"
       (json.Array (map json.marshal_string (VideoIds p)))
     ++ json.omitempty (String.eqb (PlaylistId p) EmptyString) "playlistId"
          (json.marshal_string (PlaylistId p))
     ++ json.omitempty (String.eqb (ChannelId p) EmptyString) "channelId"
          (json.marshal_string (ChannelId p))
     ++ json.omitempty (Limit p =? 0)%Z "limit" (json.marshal_int (Limit p))
     ++ json.omitempty (String.eqb (Lang p) EmptyString) "lang" (json.marshal_string (Lang p))
     ++ json.omitempty (negb (Text p)) "text" (json.Bool (Text p))).
End YouTubeTranscriptBatchParams.

Module YouTubeTranscriptTranslateParams.
Record t : Type := mk {
  Url : string; VideoId : string; Text : bool; ChunkSize : Z; Lang : string
}.
End YouTubeTranscriptTranslateParams.

Module YouTubeChannelVideosParams.
Record t : Type := mk { Id : string; Limit : Z; Type_ : string }.
End YouTubeChannelVideosParams.

Module YouTubePlaylistVideosParams.
Record t : Type := mk { Id : string; Limit : Z }.
End YouTubePlaylistVideosParams.

Abbreviation TranscriptResultStatus := string.
Definition Queued : TranscriptResultStatus := "queued".
Definition Active : TranscriptResultStatus := "active".
Definition Completed : TranscriptResultStatus := "completed".
Definition Failed : TranscriptResultStatus := "failed".

(** The field [Error] is a pointer, [None] for nil. *)
Module TranscriptResult.
Record t : Type := mk {
  Status : TranscriptResultStatus;
  Error : option ErrorResponse.t;
  Content : list TranscriptContent.t;
  Lang : string;
  AvailableLangs : list string
}.

Definition fields : list string := ["status"; "error"; "content"; "lang"; "availableLangs"].

Definition set (i : nat) (v : json.Value) (r : t) : t * option json.Error :=
  match i with
  | 0 => let '(x, err) := json.store v (Status r) in
         (mk x (Error r) (Content r) (Lang r) (AvailableLangs r), err)
  | 1 => let '(x, err) := json.store v (Error r) in
         (mk (Status r) x (Content r) (Lang r) (AvailableLangs r), err)
  | 2 => let '(x, err) := json.store v (Content r) in
         (mk (Status r) (Error r) x (Lang r) (AvailableLangs r), err)
  | 3 => let '(x, err) := json.store v (Lang r) in
         (mk (Status r) (Error r) (Content r) x (AvailableLangs r), err)
  | _ => let '(x, err) := json.store v (AvailableLangs r) in
         (mk (Status r) (Error r) (Content r) (Lang r) x, err)
  end.

#[global] Instance unmarshaler : json.Unmarshaler t := {|
  json.zero := mk EmptyString None [] EmptyString [];
  json.typeName := "supadata.TranscriptResult";
  json.store := json.store_struct "supadata.TranscriptResult" fields set
|}.
End TranscriptResult.

Module AccountInfo.
Record t : Type := mk {
  OrganizationId : string;
  Plan : string;
  MaxCredits : Z;
  UsedCredits : Z
}.

Definition fields : list string := ["organizationId"; "plan"; "maxCredits"; "usedCredits"].

Definition set (i : nat) (v : json.Value) (a : t) : t * option json.Error :=
  match i with
  | 0 => let '(x, err) := json.store v (OrganizationId a) in
         (mk x (Plan a) (MaxCredits a) (UsedCredits a), err)
  | 1 => let '(x, err) := json.store v (Plan a) in
         (mk (OrganizationId a) x (MaxCredits a) (UsedCredits a), err)
  | 2 => let '(x, err) := json.store v (MaxCredits a) in
         (mk (OrganizationId a) (Plan a) x (UsedCredits a), err)
  | _ => let '(x, err) := json.store v (UsedCredits a) in
         (mk (OrganizationId a) (Plan a) (MaxCredits a) x, err)
  end.

#[global] Instance unmarshaler : json.Unmarshaler t := {|
  json.zero := mk EmptyString EmptyString 0 0;
  json.typeName := "supadata.AccountInfo";
  json.store := json.store_struct "supadata.AccountInfo" fields set
|}.
End AccountInfo.

(** ** Package supadata: configuration *)

Module os.
(** The environment of the process. *)
Abbreviation Environ := (gmap string string).

(** [os.Getenv]: the empty string for an unset variable. *)
Definition Getenv (env : Environ) (key : string) : string := default EmptyString (env !! key).
End os.

(** [*http.Client] values are addresses in a store of clients, so that a
    client the caller passes to [WithClient] is shared, not copied. [None] is
    the nil pointer. *)
Definition loc : Type := nat.
Abbreviation Heap := (gmap loc http.Client).

Record Config : Type := {
  apiKey : string;
  baseURL : string;
  client : option loc
}.

Record Supadata : Type := { config : Config }.

(** A [ConfigOption] is a function of a [*Config]: it updates the
    configuration it is given, and through the pointer [client] possibly the store; [None] is the
    panic of a nil-pointer dereference. *)
Definition ConfigOption : Type := Config * Heap -> option (Config * Heap).

Definition WithAPIKey (apiKey' : string) : ConfigOption :=
  fun '(config, h) =>
    Some ({| apiKey := apiKey'; baseURL := baseURL config; client := client config |}, h).

Definition WithTimeout (timeout : Z) : ConfigOption :=
  fun '(config, h) =>
    match client config with
    | None => None
    | Some l => Some (config, alter (http.with_Timeout timeout) l h)
    end.

Definition WithClient (client' : option loc) : ConfigOption :=
  fun '(config, h) =>
    Some ({| apiKey := apiKey config; baseURL := baseURL config; client := client' |}, h).

Definition WithBaseURL (baseURL' : string) : ConfigOption :=
  fun '(config, h) =>
    Some ({| apiKey := apiKey config; baseURL := baseURL'; client := client config |}, h).

(** The loop [for _, opt := range opts { opt(c) }]. *)
Fixpoint apply_opts (opts : list ConfigOption) (st : Config * Heap) : option (Config * Heap) :=
  match opts with
  | [] => Some st
  | opt :: rest => st' ← opt st; apply_opts rest st'
  end.

Definition defaultClient : http.Client :=
  {| http.Transport := http.DefaultTransport;
     http.CheckRedirect := None;
     http.Jar := None;
     http.Timeout := 60 * Second |}.

(** [NewSupadata], run in the environment [env] over the store [h]: the
    default client is allocated at a fresh address. *)
Definition NewSupadata (env : os.Environ) (h : Heap) (opts : list ConfigOption)
    : option (Supadata * Heap) :=
  let l := fresh (dom h) in
  let c := {| apiKey := os.Getenv env "SUPADATA_API_KEY";
              baseURL := BaseUrl;
              client := Some l |} in
  '(c', h') ← apply_opts opts (c, <[l := defaultClient]> h);
  Some ({| config := c' |}, h').

(** The options the package offers, as data. *)
Inductive Opt : Type :=
  | OptAPIKey (apiKey : string)
  | OptTimeout (timeout : Z)
  | OptClient (client : option loc)
  | OptBaseURL (baseURL : string).

Definition option_func (o : Opt) : ConfigOption :=
  match o with
  | OptAPIKey k => WithAPIKey k
  | OptTimeout t => WithTimeout t
  | OptClient c => WithClient c
  | OptBaseURL u => WithBaseURL u
  end.

(** ** Package supadata: errors and results *)

(** The [error] values a call returns: a decoded [*ErrorResponse], the value
    of [fmt.Errorf], an error of [json.Unmarshal], and the errors of
    [http.NewRequest], of [Client.Do] and of [io.ReadAll], the last two
    known by their message only. *)
Inductive error : Type :=
  | APIError (e : ErrorResponse.t)
  | Errorf (msg : string)
  | JSONError (e : json.Error)
  | RequestError (rawURL : string)
  | TransportError (msg : string)
  | BodyError (msg : string).

(** The method [Error] of an error value, where the client or the caller
    fixes its text; the texts of encoding/json and net/url are not modelled. *)
Definition Error (e : error) : option string :=
  match e with
  | APIError r => Some (ErrorResponse.Error r)
  | Errorf msg => Some msg
  | TransportError msg => Some msg
  | BodyError msg => Some msg
  | JSONError _ => None
  | RequestError _ => None
  end.

(** The pair of a result pointer and an error that a call returns: exactly
    one of the two is non-nil on every return of the client. *)
Inductive Result (T : Type) : Type :=
  | Ok (v : T)
  | Err (e : error).
Arguments Ok {T} v.
Arguments Err {T} e.

#[global] Instance Result_bind : MBind Result :=
  fun A B f r => match r with Ok v => f v | Err e => Err e end.

(** What a method call does: it panics (nil client) or it returns. *)
Inductive Outcome (T : Type) : Type :=
  | Panic
  | Done (r : Result T).
Arguments Panic {T}.
Arguments Done {T} r.

(** ** Package supadata: requests and responses *)

Definition nonempty (s : string) : bool := negb (String.eqb s EmptyString).

(** [if cond { q.Set(key, value) }]. *)
Definition set_if (cond : bool) (key value : string) (q : url.Values) : url.Values :=
  if cond then url.Values_Set key value q else q.

(** [req.URL.RawQuery = q.Encode()]. *)
Definition set_query (q : url.Values) (req : http.Request) : http.Request :=
  http.with_URL (url.set_RawQuery (url.Values_Encode q) (http.URL req)) req.

(** [req.Header.Set(key, value)]. *)
Definition set_header (key value : string) (req : http.Request) : http.Request :=
  http.with_Header (http.Header_Set key value (http.Header_of req)) req.

Definition setDefaultHeaders (s : Supadata) (req : http.Request) : http.Request :=
  set_header "x-api-key" (apiKey (config s))
    (set_header "User-Agent" "supadata-go/1.0.0" req).

(** [handleRawResponse]. *)
Definition handleRawResponse (resp : http.Response) : Result string :=
  match http.ReadError resp with
  | Some msg => Err (BodyError msg)
  | None =>
      let body := http.ResponseBody resp in
      if (400 <=? http.StatusCode resp)%Z then
        match json.Unmarshal ErrorResponse.t body with
        | (_, Some _) =>
            Err (Errorf ("request failed with status " +:+ Sprintf_d (http.StatusCode resp)))
        | (errResp, None) => Err (APIError errResp)
        end
      else Ok body
  end.

(** [handleResponse[T]]. *)
Definition handleResponse (T : Type) `{json.Unmarshaler T} (resp : http.Response) : Result T :=
  body ← handleRawResponse resp;
  match json.Unmarshal T body with
  | (_, Some err) => Err (JSONError err)
  | (result, None) => Ok result
  end.

(** The part of [Transcript] after [client.Do]: the raw body is probed for the
    key [jobId] before it is decoded as one of the two variants. *)
Definition Transcript_response (resp : http.Response) : Result Transcript.t :=
  body ← handleRawResponse resp;
  match json.Unmarshal (gmap string json.RawMessage) body with
  | (_, Some err) => Err (JSONError err)
  | (raw, None) =>
      match raw !! "jobId" with
      | Some _ =>
          match json.Unmarshal AsyncTranscript.t body with
          | (_, Some err) => Err (JSONError err)
          | (async, None) => Ok {| Transcript.Sync := None; Transcript.Async := Some async |}
          end
      | None =>
          match json.Unmarshal SyncTranscript.t body with
          | (_, Some err) => Err (JSONError err)
          | (sync, None) => Ok {| Transcript.Sync := Some sync; Transcript.Async := None |}
          end
      end
  end.

Section Client.

(** The two things the client takes from its surroundings: which URL texts
    net/url accepts, and what the transport answers to a request sent through
    a client ([inl] is the error of [Client.Do], by its message). *)
Variable wellformed : string -> bool.
Variable Do : http.Client -> http.Request -> string + http.Response.

Definition prepareRequest (s : Supadata) (method endpoint : string) (body : option json.Value)
    : Result http.Request :=
  match http.NewRequest wellformed method (baseURL (config s) +:+ endpoint) body with
  | None => Err (RequestError (baseURL (config s) +:+ endpoint))
  | Some req => Ok (setDefaultHeaders s req)
  end.

(** [s.config.client.Do(req)] followed by the rest of the method, for a
    request that was built or failed to build. *)
Definition exchange {T : Type} (h : Heap) (s : Supadata) (built : Result http.Request)
    (rest : http.Response -> Result T) : Outcome T :=
  match built with
  | Err e => Done (Err e)
  | Ok req =>
      match client (config s) ≫= (h !!.) with
      | None => Panic
      | Some c =>
          match Do c req with
          | inl msg => Done (Err (TransportError msg))
          | inr resp => Done (rest resp)
          end
      end
  end.

(** *** Universal endpoints *)

Definition Transcript_request (s : Supadata) (params : TranscriptParams.t)
    : Result http.Request :=
  req ← prepareRequest s "GET" "/transcript" None;
  let q := url.URL_Query (http.URL req) in
  let q := url.Values_Set "url" (TranscriptParams.Url params) q in
  let q := set_if (nonempty (TranscriptParams.Lang params)) "lang" (TranscriptParams.Lang params) q in
  let q := set_if (TranscriptParams.Text params) "text" "true" q in
  let q := set_if (0 <? TranscriptParams.ChunkSize params)%Z
             "chunkSize" (Sprintf_d (TranscriptParams.ChunkSize params)) q in
  let q := if nonempty (TranscriptParams.Mode params)
           then url.Values_Set "mode" (TranscriptParams.Mode params) q
           else url.Values_Set "mode" Auto q in
  Ok (set_query q req).

Definition Transcript (h : Heap) (s : Supadata) (params : TranscriptParams.t)
    : Outcome Transcript.t :=
  exchange h s (Transcript_request s params) Transcript_response.

Definition TranscriptResult_request (s : Supadata) (jobId : string) : Result http.Request :=
  prepareRequest s "GET" ("/transcript/" +:+ jobId) None.

Definition TranscriptResult (T : Type) `{json.Unmarshaler T} (h : Heap) (s : Supadata)
    (jobId : string) : Outcome T :=
  exchange h s (TranscriptResult_request s jobId) (handleResponse T).

Definition Metadata_request (s : Supadata) (url' : string) : Result http.Request :=
  req ← prepareRequest s "GET" "/metadata" None;
  let q := url.URL_Query (http.URL req) in
  let q := url.Values_Set "url" url' q in
  Ok (set_query q req).

Definition Metadata (T : Type) `{json.Unmarshaler T} (h : Heap) (s : Supadata)
    (url' : string) : Outcome T :=
  exchange h s (Metadata_request s url') (handleResponse T).

(** *** Account endpoints *)

Definition Me_request (s : Supadata) : Result http.Request :=
  prepareRequest s "GET" "/me" None.

Definition Me (T : Type) `{json.Unmarshaler T} (h : Heap) (s : Supadata) : Outcome T :=
  exchange h s (Me_request s) (handleResponse T).

(** *** Web endpoints *)

Definition Scrape_request (s : Supadata) (params : ScrapeParams.t) : Result http.Request :=
  req ← prepareRequest s "GET" "/web/scrape" None;
  let q := url.URL_Query (http.URL req) in
  let q := url.Values_Set "url" (ScrapeParams.Url params) q in
  let q := set_if (ScrapeParams.NoLinks params) "noLinks" "true" q in
  let q := set_if (nonempty (ScrapeParams.Lang params)) "lang" (ScrapeParams.Lang params) q in
  Ok (set_query q req).

Definition Scrape (T : Type) `{json.Unmarshaler T} (h : Heap) (s : Supadata)
    (params : ScrapeParams.t) : Outcome T :=
  exchange h s (Scrape_request s params) (handleResponse T).

Definition Map_request (s : Supadata) (params : MapParams.t) : Result http.Request :=
  req ← prepareRequest s "GET" "/web/map" None;
  let q := url.URL_Query (http.URL req) in
  let q := url.Values_Set "url" (MapParams.Url params) q in
  let q := set_if (MapParams.NoLinks params) "noLinks" "true" q in
  let q := set_if (nonempty (MapParams.Lang params)) "lang" (MapParams.Lang params) q in
  Ok (set_query q req).

Definition Map (T : Type) `{json.Unmarshaler T} (h : Heap) (s : Supadata)
    (params : MapParams.t) : Outcome T :=
  exchange h s (Map_request s params) (handleResponse T).

Definition Crawl_request (s : Supadata) (params : CrawlBody.t) : Result http.Request :=
  let body := CrawlBody.Marshal params in
  req ← prepareRequest s "POST" "/web/crawl" (Some body);
  Ok (set_header "Content-Type" "application/json" req).

Definition Crawl (T : Type) `{json.Unmarshaler T} (h : Heap) (s : Supadata)
    (params : CrawlBody.t) : Outcome T :=
  exchange h s (Crawl_request s params) (handleResponse T).

Definition CrawlResult_request (s : Supadata) (jobId : string) (skip : Z)
    : Result http.Request :=
  req ← prepareRequest s "GET" ("/web/crawl/" +:+ jobId) None;
  if (0 <? skip)%Z then
    let q := url.URL_Query (http.URL req) in
    let q := url.Values_Set "skip" (Sprintf_d skip) q in
    Ok (set_query q req)
  else Ok req.

Definition CrawlResult (T : Type) `{json.Unmarshaler T} (h : Heap) (s : Supadata)
    (jobId : string) (skip : Z) : Outcome T :=
  exchange h s (CrawlResult_request s jobId skip) (handleResponse T).

(** *** YouTube endpoints *)

Definition YouTubeSearch_request (s : Supadata) (params : YouTubeSearchParams.t)
    : Result http.Request :=
  req ← prepareRequest s "GET" "/youtube/search" None;
  let q := url.URL_Query (http.URL req) in
  let q := url.Values_Set "query" (YouTubeSearchParams.Query params) q in
  let q := set_if (nonempty (YouTubeSearchParams.UploadDate params))
             "uploadDate" (YouTubeSearchParams.UploadDate params) q in
  let q := set_if (nonempty (YouTubeSearchParams.Type_ params))
             "type" (YouTubeSearchParams.Type_ params) q in
  let q := set_if (nonempty (YouTubeSearchParams.Duration params))
             "duration" (YouTubeSearchParams.Duration params) q in
  let q := set_if (nonempty (YouTubeSearchParams.SortBy params))
             "sortBy" (YouTubeSearchParams.SortBy params) q in
  let q := if bool_decide (0 < length (YouTubeSearchParams.Features params))
           then fold_left (fun q f => url.Values_Add "features" f q)
                          (YouTubeSearchParams.Features params) q
           else q in
  let q := set_if (0 <? YouTubeSearchParams.Limit params)%Z
             "limit" (Sprintf_d (YouTubeSearchParams.Limit params)) q in
  let q := set_if (nonempty (YouTubeSearchParams.NextPageToken params))
             "nextPageToken" (YouTubeSearchParams.NextPageToken params) q in
  Ok (set_query q req).

Definition YouTubeSearch (T : Type) `{json.Unmarshaler T} (h : Heap) (s : Supadata)
    (params : YouTubeSearchParams.t) : Outcome T :=
  exchange h s (YouTubeSearch_request s params) (handleResponse T).

Definition YouTubeVideo_request (s : Supadata) (id : string) : Result http.Request :=
  req ← prepareRequest s "GET" "/youtube/video" None;
  let q := url.URL_Query (http.URL req) in
  let q := url.Values_Set "id" id q in
  Ok (set_query q req).

Definition YouTubeVideo (T : Type) `{json.Unmarshaler T} (h : Heap) (s : Supadata)
    (id : string) : Outcome T :=
  exchange h s (YouTubeVideo_request s id) (handleResponse T).

Definition YouTubeVideoBatch_request (s : Supadata) (params : YouTubeVideoBatchParams.t)
    : Result http.Request :=
  let body := YouTubeVideoBatchParams.Marshal params in
  req ← prepareRequest s "POST" "/youtube/video/batch" (Some body);
  Ok (set_header "Content-Type" "application/json" req).

Definition YouTubeVideoBatch (T : Type) `{json.Unmarshaler T} (h : Heap) (s : Supadata)
    (params : YouTubeVideoBatchParams.t) : Outcome T :=
  exchange h s (YouTubeVideoBatch_request s params) (handleResponse T).

Definition YouTubeTranscript_request (s : Supadata) (params : YouTubeTranscriptParams.t)
    : Result http.Request :=
  req ← prepareRequest s "GET" "/youtube/transcript" None;
  let q := url.URL_Query (http.URL req) in
  let q := set_if (nonempty (YouTubeTranscriptParams.Url params))
             "url" (YouTubeTranscriptParams.Url params) q in
  let q := set_if (nonempty (YouTubeTranscriptParams.VideoId params))
             "videoId" (YouTubeTranscriptParams.VideoId params) q in
  let q := set_if (YouTubeTranscriptParams.Text params) "text" "true" q in
  let q := set_if (0 <? YouTubeTranscriptParams.ChunkSize params)%Z
             "chunkSize" (Sprintf_d (YouTubeTranscriptParams.ChunkSize params)) q in
  let q := set_if (nonempty (YouTubeTranscriptParams.Lang params))
             "lang" (YouTubeTranscriptParams.Lang params) q in
  Ok (set_query q req).

Definition YouTubeTranscript (T : Type) `{json.Unmarshaler T} (h : Heap) (s : Supadata)
    (params : YouTubeTranscriptParams.t) : Outcome T :=
  exchange h s (YouTubeTranscript_request s params) (handleResponse T).

Definition YouTubeTranscriptBatch_request (s : Supadata)
    (params : YouTubeTranscriptBatchParams.t) : Result http.Request :=
  let body := YouTubeTranscriptBatchParams.Marshal params in
  req ← prepareRequest s "POST" "/youtube/transcript/batch" (Some body);
  Ok (set_header "Content-Type" "application/json" req).

Definition YouTubeTranscriptBatch (T : Type) `{json.Unmarshaler T} (h : Heap) (s : Supadata)
    (params : YouTubeTranscriptBatchParams.t) : Outcome T :=
  exchange h s (YouTubeTranscriptBatch_request s params) (handleResponse T).

Definition YouTubeTranscriptTranslate_request (s : Supadata)
    (params : YouTubeTranscriptTranslateParams.t) : Result http.Request :=
  req ← prepareRequest s "GET" "/youtube/transcript/translate" None;
  let q := url.URL_Query (http.URL req) in
  let q := set_if (nonempty (YouTubeTranscriptTranslateParams.Url params))
             "url" (YouTubeTranscriptTranslateParams.Url params) q in
  let q := set_if (nonempty (YouTubeTranscriptTranslateParams.VideoId params))
             "videoId" (YouTubeTranscriptTranslateParams.VideoId params) q in
  let q := set_if (YouTubeTranscriptTranslateParams.Text params) "text" "true" q in
  let q := set_if (0 <? YouTubeTranscriptTranslateParams.ChunkSize params)%Z
             "chunkSize" (Sprintf_d (YouTubeTranscriptTranslateParams.ChunkSize params)) q in
  let q := url.Values_Set "lang" (YouTubeTranscriptTranslateParams.Lang params) q in
  Ok (set_query q req).

Definition YouTubeTranscriptTranslate (T : Type) `{json.Unmarshaler T} (h : Heap)
    (s : Supadata) (params : YouTubeTranscriptTranslateParams.t) : Outcome T :=
  exchange h s (YouTubeTranscriptTranslate_request s params) (handleResponse T).

Definition YouTubeChannel_request (s : Supadata) (id : string) : Result http.Request :=
  req ← prepareRequest s "GET" "/youtube/channel" None;
  let q := url.URL_Query (http.URL req) in
  let q := url.Values_Set "id" id q in
  Ok (set_query q req).

Definition YouTubeChannel (T : Type) `{json.Unmarshaler T} (h : Heap) (s : Supadata)
    (id : string) : Outcome T :=
  exchange h s (YouTubeChannel_request s id) (handleResponse T).

Definition YouTubePlaylist_request (s : Supadata) (id : string) : Result http.Request :=
  req ← prepareRequest s "GET" "/youtube/playlist" None;
  let q := url.URL_Query (http.URL req) in
  let q := url.Values_Set "id" id q in
  Ok (set_query q req).

Definition YouTubePlaylist (T : Type) `{json.Unmarshaler T} (h : Heap) (s : Supadata)
    (id : string) : Outcome T :=
  exchange h s (YouTubePlaylist_request s id) (handleResponse T).

Definition YouTubeChannelVideos_request (s : Supadata)
    (params : YouTubeChannelVideosParams.t) : Result http.Request :=
  req ← prepareRequest s "GET" "/youtube/channel/videos" None;
  let q := url.URL_Query (http.URL req) in
  let q := url.Values_Set "id" (YouTubeChannelVideosParams.Id params) q in
  let q := set_if (0 <? YouTubeChannelVideosParams.Limit params)%Z
             "limit" (Sprintf_d (YouTubeChannelVideosParams.Limit params)) q in
  let q := set_if (nonempty (YouTubeChannelVideosParams.Type_ params))
             "type" (YouTubeChannelVideosParams.Type_ params) q in
  Ok (set_query q req).

Definition YouTubeChannelVideos (T : Type) `{json.Unmarshaler T} (h : Heap) (s : Supadata)
    (params : YouTubeChannelVideosParams.t) : Outcome T :=
  exchange h s (YouTubeChannelVideos_request s params) (handleResponse T).

Definition YouTubePlaylistVideos_request (s : Supadata)
    (params : YouTubePlaylistVideosParams.t) : Result http.Request :=
  req ← prepareRequest s "GET" "/youtube/playlist/videos" None;
  let q := url.URL_Query (http.URL req) in
  let q := url.Values_Set "id" (YouTubePlaylistVideosParams.Id params) q in
  let q := set_if (0 <? YouTubePlaylistVideosParams.Limit params)%Z
             "limit" (Sprintf_d (YouTubePlaylistVideosParams.Limit params)) q in
  Ok (set_query q req).

Definition YouTubePlaylistVideos (T : Type) `{json.Unmarshaler T} (h : Heap) (s : Supadata)
    (params : YouTubePlaylistVideosParams.t) : Outcome T :=
  exchange h s (YouTubePlaylistVideos_request s params) (handleResponse T).

Definition YouTubeBatchResult_request (s : Supadata) (jobId : string) : Result http.Request :=
  prepareRequest s "GET" ("/youtube/batch/" +:+ jobId) None.

Definition YouTubeBatchResult (T : Type) `{json.Unmarshaler T} (h : Heap) (s : Supadata)
    (jobId : string) : Outcome T :=
  exchange h s (YouTubeBatchResult_request s jobId) (handleResponse T).

(** *** Every method at once *)

(** A call of one of the nineteen methods, with its arguments. *)
Inductive Call : Type :=
  | CallTranscript (params : TranscriptParams.t)
  | CallTranscriptResult (jobId : string)
  | CallMetadata (url' : string)
  | CallMe
  | CallScrape (params : ScrapeParams.t)
  | CallMap (params : MapParams.t)
  | CallCrawl (params : CrawlBody.t)
  | CallCrawlResult (jobId : string) (skip : Z)
  | CallYouTubeSearch (params : YouTubeSearchParams.t)
  | CallYouTubeVideo (id : string)
  | CallYouTubeVideoBatch (params : YouTubeVideoBatchParams.t)
  | CallYouTubeTranscript (params : YouTubeTranscriptParams.t)
  | CallYouTubeTranscriptBatch (params : YouTubeTranscriptBatchParams.t)
  | CallYouTubeTranscriptTranslate (params : YouTubeTranscriptTranslateParams.t)
  | CallYouTubeChannel (id : string)
  | CallYouTubePlaylist (id : string)
  | CallYouTubeChannelVideos (params : YouTubeChannelVideosParams.t)
  | CallYouTubePlaylistVideos (params : YouTubePlaylistVideosParams.t)
  | CallYouTubeBatchResult (jobId : string).

(** The request a call hands to [client.Do]. *)
Definition request_of (s : Supadata) (c : Call) : Result http.Request :=
  match c with
  | CallTranscript params => Transcript_request s params
  | CallTranscriptResult jobId => TranscriptResult_request s jobId
  | CallMetadata url' => Metadata_request s url'
  | CallMe => Me_request s
  | CallScrape params => Scrape_request s params
  | CallMap params => Map_request s params
  | CallCrawl params => Crawl_request s params
  | CallCrawlResult jobId skip => CrawlResult_request s jobId skip
  | CallYouTubeSearch params => YouTubeSearch_request s params
  | CallYouTubeVideo id => YouTubeVideo_request s id
  | CallYouTubeVideoBatch params => YouTubeVideoBatch_request s params
  | CallYouTubeTranscript params => YouTubeTranscript_request s params
  | CallYouTubeTranscriptBatch params => YouTubeTranscriptBatch_request s params
  | CallYouTubeTranscriptTranslate params => YouTubeTranscriptTranslate_request s params
  | CallYouTubeChannel id => YouTubeChannel_request s id
  | CallYouTubePlaylist id => YouTubePlaylist_request s id
  | CallYouTubeChannelVideos params => YouTubeChannelVideos_request s params
  | CallYouTubePlaylistVideos params => YouTubePlaylistVideos_request s params
  | CallYouTubeBatchResult jobId => YouTubeBatchResult_request s jobId
  end.

(** What a call returns a pointer to: the union for [Transcript], the payload
    struct [T] of the method for the others, which all go through
    [handleResponse]. *)
Definition ResultOf (T : Type) (c : Call) : Type :=
  match c with
  | CallTranscript _ => Transcript.t
  | _ => T
  end.

Definition call (T : Type) `{json.Unmarshaler T} (h : Heap) (s : Supadata) (c : Call)
    : Outcome (ResultOf T c) :=
  match c return Outcome (ResultOf T c) with
  | CallTranscript params => Transcript h s params
  | CallTranscriptResult jobId => TranscriptResult T h s jobId
  | CallMetadata url' => Metadata T h s url'
  | CallMe => Me T h s
  | CallScrape params => Scrape T h s params
  | CallMap params => Map T h s params
  | CallCrawl params => Crawl T h s params
  | CallCrawlResult jobId skip => CrawlResult T h s jobId skip
  | CallYouTubeSearch params => YouTubeSearch T h s params
  | CallYouTubeVideo id => YouTubeVideo T h s id
  | CallYouTubeVideoBatch params => YouTubeVideoBatch T h s params
  | CallYouTubeTranscript params => YouTubeTranscript T h s params
  | CallYouTubeTranscriptBatch params => YouTubeTranscriptBatch T h s params
  | CallYouTubeTranscriptTranslate params => YouTubeTranscriptTranslate T h s params
  | CallYouTubeChannel id => YouTubeChannel T h s id
  | CallYouTubePlaylist id => YouTubePlaylist T h s id
  | CallYouTubeChannelVideos params => YouTubeChannelVideos T h s params
  | CallYouTubePlaylistVideos params => YouTubePlaylistVideos T h s params
  | CallYouTubeBatchResult jobId => YouTubeBatchResult T h s jobId
  end.

End Client.

(** ** The example program

    Of the program that comes with the client, the error printer
    [handleError] and the polling loop [pollTranscript]. What they do to
    the outside is a list of events: the calls of [fmt.Printf] and
    [fmt.Println], with the arguments as they are passed, and the calls of
    [time.Sleep]. *)

Inductive arg : Type :=
  | AString (s : string)
  | AInt (n : Z)
  | AFloat (x : json.float64)
  | AError (e : error).

Inductive event : Type :=
  | Printf (format : string) (args : list arg)
  | Println (line : string)
  | Sleep (d : Z).

(** The line feed that ends the formats. *)
Definition newline : string := String (ascii_of_N 10) EmptyString.

(** [handleError]. Of the errors a method returns [errors.As] finds an
    [*ErrorResponse] in the decoded error body alone; the error of the
    transport is taken not to wrap one. *)
Definition handleError (err : error) : list event :=
  match err with
  | APIError apiErr =>
      [Printf ("API Error: %s" +:+ newline) [AString (ErrorResponse.ErrorIdentifier apiErr)];
       Printf ("Message: %s" +:+ newline) [AString (ErrorResponse.Message apiErr)]]
      ++ (if nonempty (ErrorResponse.Details apiErr)
          then [Printf ("Details: %s" +:+ newline) [AString (ErrorResponse.Details apiErr)]]
          else [])
      ++ (if nonempty (ErrorResponse.DocumentationUrl apiErr)
          then [Printf ("Documentation: %s" +:+ newline)
                       [AString (ErrorResponse.DocumentationUrl apiErr)]]
          else [])
      ++ (if String.eqb (ErrorResponse.ErrorIdentifier apiErr) Unauthorized
          then [Println "Check your API key"]
          else if String.eqb (ErrorResponse.ErrorIdentifier apiErr) LimitExceeded
          then [Println "Rate limit exceeded, please wait before retrying"]
          else if String.eqb (ErrorResponse.ErrorIdentifier apiErr) TranscriptUnavailable
          then [Println "Transcript not available for this content"]
          else if String.eqb (ErrorResponse.ErrorIdentifier apiErr) NotFound
          then [Println "Resource not found"]
          else [])
  | _ => [Printf ("Error: %v" +:+ newline) [AError err]]
  end.

(** The loop over the segments of a transcript: the first three are
    printed, and three dots when there is a fourth. *)
Definition print_segments (content : list TranscriptContent.t) : list event :=
  map (fun segment =>
         Printf ("  [%.2fs] %s" +:+ newline)
                [AFloat (TranscriptContent.Offset segment);
                 AString (TranscriptContent.Text segment)])
      (take 3 content)
  ++ (if bool_decide (3 < length content) then [Println "..."] else []).

(** How a run of the loop stands when it is looked at: it has returned, it
    has panicked, or it is still polling (the fuel of the model ran out). *)
Inductive Ending : Type :=
  | Returns
  | Panics
  | Polling.

Section Example.

Variable wellformed : string -> bool.

(** What the transport answers to the [n]th request of the program. *)
Variable Do : nat -> http.Client -> http.Request -> string + http.Response.

(** The [for] loop of [pollTranscript], from the [n]th request on. A status
    that is none of the four cases of the [switch] falls through it, and
    the loop goes round again at once. *)
Fixpoint pollTranscript_loop (fuel n : nat) (h : Heap) (s : Supadata) (jobId : string)
    : list event * Ending :=
  match fuel with
  | O => ([], Polling)
  | S fuel =>
      match TranscriptResult wellformed (Do n) TranscriptResult.t h s jobId with
      | Panic => ([], Panics)
      | Done (Err err) => (handleError err, Returns)
      | Done (Ok result) =>
          let status :=
            Printf ("Status: %s" +:+ newline) [AString (TranscriptResult.Status result)] in
          if String.eqb (TranscriptResult.Status result) Completed then
            (status
             :: Printf ("Transcript completed!" +:+ newline) []
             :: Printf ("Language: %s" +:+ newline) [AString (TranscriptResult.Lang result)]
             :: Printf ("Segments: %d" +:+ newline)
                       [AInt (Z.of_nat (length (TranscriptResult.Content result)))]
             :: print_segments (TranscriptResult.Content result),
             Returns)
          else if String.eqb (TranscriptResult.Status result) Failed then
            (status
             :: Println "Transcript job failed"
             :: match TranscriptResult.Error result with
                | Some e =>
                    [Printf ("Error: %s - %s" +:+ newline)
                            [AString (ErrorResponse.ErrorIdentifier e);
                             AString (ErrorResponse.Message e)]]
                | None => []
                end,
             Returns)
          else if String.eqb (TranscriptResult.Status result) Queued
                  || String.eqb (TranscriptResult.Status result) Active then
            let '(events, ending) := pollTranscript_loop fuel (S n) h s jobId in
            (status
             :: Println "Still processing, waiting 2 seconds..."
             :: Sleep (2 * Second)
             :: events,
             ending)
          else
            let '(events, ending) := pollTranscript_loop fuel (S n) h s jobId in
            (status :: events, ending)
      end
  end.

Definition pollTranscript (fuel n : nat) (h : Heap) (s : Supadata) (jobId : string)
    : list event * Ending :=
  let '(events, ending) := pollTranscript_loop fuel n h s jobId in
  (Printf ("Polling for transcript job: %s" +:+ newline) [AString jobId] :: events, ending).

End Example.

(** ** Auxiliary definitions for the proofs *)

(** The resolver of a call: [Transcript] probes and decodes itself, every
    other method goes through [handleResponse]. *)
Definition response_of (T : Type) `{json.Unmarshaler T} (c : Call)
    : http.Response -> Result (ResultOf T c) :=
  match c return http.Response -> Result (ResultOf T c) with
  | CallTranscript _ => Transcript_response
  | _ => handleResponse T
  end.

(** The member of an object that decides the [i]th field of a struct: the
    value of the last member whose name selects that field. *)
Fixpoint field_member (names : list string) (i : nat) (members : list (string * json.Value))
    : option json.Value :=
  match members with
  | [] => None
  | member :: rest =>
      match field_member names i rest with
      | Some v => Some v
      | None => if bool_decide (json.find_field names member.1 = Some i)
                then Some member.2 else None
      end
  end.

(** The two default headers, each with its single value. *)
Definition default_headers (s : Supadata) (req : http.Request) : Prop :=
  http.Header_Values "User-Agent" (http.Header_of req) = ["supadata-go/1.0.0"]
  ∧ http.Header_Values "x-api-key" (http.Header_of req) = [apiKey (config s)].

(** One [key=value] entry of an encoded query. *)
Definition entry (p : string * string) : string :=
  url.QueryEscape p.1 +:+ "=" +:+ url.QueryEscape p.2.

(** The key and value pairs of [v] in the order of [keys]. *)
Definition pairs_of (keys : list string) (v : url.Values) : list (string * string) :=
  flat_map (fun k => map (fun x => (k, x)) (default [] (v !! k))) keys.

(** The values a list of pairs holds under [key], in order. *)
Definition values_of (key : string) (ps : list (string * string)) : list string :=
  (filter (fun p => p.1 = key) ps).*2.

Definition add_pair (m : url.Values) (p : string * string) : url.Values :=
  url.Values_Add p.1 p.2 m.

(** The query as the server reads it from a request: [RawQuery] parsed. *)
Definition sent_query (req : http.Request) : url.Values :=
  (url.ParseQuery (url.RawQuery (http.URL req))).1.

(** The parameter a method always puts in the query, with the value it is
    given: methods that send a JSON body or address a job by its path have
    none, and [YouTubeTranscript] sends each of [url] and [videoId] only when
    it is not empty. *)
Definition required_parameter (c : Call) : option (string * string) :=
  match c with
  | CallTranscript params => Some ("url", TranscriptParams.Url params)
  | CallMetadata url' => Some ("url", url')
  | CallScrape params => Some ("url", ScrapeParams.Url params)
  | CallMap params => Some ("url", MapParams.Url params)
  | CallYouTubeSearch params => Some ("query", YouTubeSearchParams.Query params)
  | CallYouTubeVideo id => Some ("id", id)
  | CallYouTubeTranscriptTranslate params =>
      Some ("lang", YouTubeTranscriptTranslateParams.Lang params)
  | CallYouTubeChannel id => Some ("id", id)
  | CallYouTubePlaylist id => Some ("id", id)
  | CallYouTubeChannelVideos params => Some ("id", YouTubeChannelVideosParams.Id params)
  | CallYouTubePlaylistVideos params => Some ("id", YouTubePlaylistVideosParams.Id params)
  | _ => None
  end.

(** The path a method appends to the base URL. *)
Definition endpoint_of (c : Call) : string :=
  match c with
  | CallTranscript _ => "/transcript"
  | CallTranscriptResult jobId => "/transcript/" +:+ jobId
  | CallMetadata _ => "/metadata"
  | CallMe => "/me"
  | CallScrape _ => "/web/scrape"
  | CallMap _ => "/web/map"
  | CallCrawl _ => "/web/crawl"
  | CallCrawlResult jobId _ => "/web/crawl/" +:+ jobId
  | CallYouTubeSearch _ => "/youtube/search"
  | CallYouTubeVideo _ => "/youtube/video"
  | CallYouTubeVideoBatch _ => "/youtube/video/batch"
  | CallYouTubeTranscript _ => "/youtube/transcript"
  | CallYouTubeTranscriptBatch _ => "/youtube/transcript/batch"
  | CallYouTubeTranscriptTranslate _ => "/youtube/transcript/translate"
  | CallYouTubeChannel _ => "/youtube/channel"
  | CallYouTubePlaylist _ => "/youtube/playlist"
  | CallYouTubeChannelVideos _ => "/youtube/channel/videos"
  | CallYouTubePlaylistVideos _ => "/youtube/playlist/videos"
  | CallYouTubeBatchResult jobId => "/youtube/batch/" +:+ jobId
  end.

(** The JSON body of the three methods that post one. *)
Definition body_of (c : Call) : option json.Value :=
  match c with
  | CallCrawl params => Some (CrawlBody.Marshal params)
  | CallYouTubeVideoBatch params => Some (YouTubeVideoBatchParams.Marshal params)
  | CallYouTubeTranscriptBatch params => Some (YouTubeTranscriptBatchParams.Marshal params)
  | _ => None
  end.

(** The job a polling method addresses: the path prefix and the job id. *)
Definition job_path (c : Call) : option (string * string) :=
  match c with
  | CallTranscriptResult jobId => Some ("/transcript/", jobId)
  | CallCrawlResult jobId _ => Some ("/web/crawl/", jobId)
  | CallYouTubeBatchResult jobId => Some ("/youtube/batch/", jobId)
  | _ => None
  end.

(** The timeout a list of options asks for: that of the last [WithTimeout],
    or [t0] without any. *)
Definition last_timeout (opts : list Opt) (t0 : Z) : Z :=
  fold_left (fun t o => match o with OptTimeout t' => t' | _ => t end) opts t0.

(** A [WithTimeout] among the options that no [WithClient] precedes: it runs
    on the client the configuration holds when the options start. *)
Definition timeout_before_client (opts : list Opt) : Prop :=
  ∃ mid t after, opts = mid ++ OptTimeout t :: after ∧ ∀ p, OptClient p ∉ mid.

(** The values of the members that select the [i]th field of a struct, in
    the order of the object. *)
Definition selecting (names : list string) (i : nat) (members : list (string * json.Value))
    : list json.Value :=
  (filter (fun member => json.find_field names member.1 = Some i) members).*2.

(** The durations of the sleeps among the events, in order. *)
Definition sleeps (events : list event) : list Z :=
  omap (fun e => match e with Sleep d => Some d | _ => None end) events.

(** The statuses the loop printed, one for each poll that got a result. *)
Definition statuses (events : list event) : list string :=
  omap (fun e => match e with
                 | Printf format [AString status] =>
                     if String.eqb format ("Status: %s" +:+ newline) then Some status else None
                 | _ => None
                 end) events.

(** ** Fixtures of the examples *)

(** A surrounding in which every URL text parses and the transport answers
    every request with [resp]. *)
Definition any_url (_ : string) : bool := true.

Definition answers (resp : http.Response)
    : http.Client -> http.Request -> string + http.Response :=
  fun _ _ => inr resp.

Definition response (status : Z) (body : string) : http.Response :=
  {| http.StatusCode := status; http.ResponseBody := body; http.ReadError := None |}.

(** The client of the tests, [NewSupadata(WithAPIKey(...))] with the default
    base URL, and the store that holds its [http.Client]. *)
Definition test_store : Heap := {[ 0 := defaultClient ]}.

Definition test_client : Supadata :=
  {| config := {| apiKey := "test-api-key"; baseURL := BaseUrl; client := Some 0 |} |}.

Definition test_params : TranscriptParams.t :=
  TranscriptParams.mk "https://youtube.com/watch?v=123" EmptyString false 0 EmptyString.

Definition test_search : YouTubeSearchParams.t :=
  YouTubeSearchParams.mk "golang" EmptyString EmptyString EmptyString EmptyString
    [FeatureHD; FeatureLive] 0 EmptyString.

(** The error body the test servers write:
    [{"details":...,"error":...,"message":...}]. *)
Definition error_body (id : ErrorIdentifier) (message details : string) : string :=
  rewrite_quotes ("{'details':'" +:+ details +:+ "','error':'" +:+ id
                  +:+ "','message':'" +:+ message +:+ "'}").

(** A transport that answers every request of a run with [resp]. *)
Definition always (resp : http.Response)
    : nat -> http.Client -> http.Request -> string + http.Response :=
  fun _ _ _ => inr resp.

(** A transport that answers the requests of a run with the bodies of
    [bodies], in order, under the status 200, and further requests with a
    404 and an error body. *)
Definition in_turn (bodies : list string)
    : nat -> http.Client -> http.Request -> string + http.Response :=
  fun n _ _ =>
    inr (match bodies !! n with
         | Some body => response 200 body
         | None => response 404 (error_body NotFound "Job not found" EmptyString)
         end).

(** The body the test server writes for a synchronous transcript. *)
Definition sync_body : string :=
  rewrite_quotes
    ("{'availableLangs':['en','es','fr'],"
     +:+ "'content':[{'duration':1000,'offset':0,'text':'Hello world'},"
     +:+ "{'duration':1500,'offset':1,'text':'How are you'}],"
     +:+ "'lang':'en'}").

(** * Properties *)

(** ** Byte strings *)

Lemma append_nil (b : string) : EmptyString +:+ b = b.
Proof. reflexivity. Qed.

Lemma append_cons (x : ascii) (a b : string) : String x a +:+ b = String x (a +:+ b).
Proof. reflexivity. Qed.

Lemma append_assoc (a b c : string) : (a +:+ b) +:+ c = a +:+ (b +:+ c).
Proof.
  induction a as [|x a IH]; [reflexivity|].
  rewrite !append_cons. by rewrite IH.
Qed.

Lemma contains_append (c : ascii) (a b : string) :
  contains c (a +:+ b) = contains c a || contains c b.
Proof.
  induction a as [|x a IH]; [reflexivity|].
  rewrite append_cons. simpl. rewrite IH. by destruct (Ascii.eqb x c).
Qed.

Lemma cut_absent (sep : ascii) (a b : string) :
  contains sep a = false → cut sep (a +:+ String sep b) = (a, b, true).
Proof.
  induction a as [|x a IH]; intros Hc.
  - rewrite append_nil. simpl. by rewrite Ascii.eqb_refl.
  - rewrite append_cons. simpl in *.
    apply orb_false_iff in Hc as [Hx Ha]. rewrite Hx, (IH Ha). reflexivity.
Qed.

Lemma cut_none (sep : ascii) (a : string) :
  contains sep a = false → cut sep a = (a, EmptyString, false).
Proof.
  induction a as [|x a IH]; simpl; intros Hc; [reflexivity|].
  apply orb_false_iff in Hc as [Hx Ha]. rewrite Hx, (IH Ha). reflexivity.
Qed.

Lemma split_absent (sep : ascii) (a : string) :
  contains sep a = false → split sep a = [a].
Proof.
  induction a as [|x a IH]; simpl; intros Hc; [reflexivity|].
  apply orb_false_iff in Hc as [Hx Ha]. rewrite Hx, (IH Ha). reflexivity.
Qed.

Lemma split_append (sep : ascii) (a b : string) :
  contains sep a = false → split sep (a +:+ String sep b) = a :: split sep b.
Proof.
  induction a as [|x a IH]; intros Hc.
  - rewrite append_nil. simpl. by rewrite Ascii.eqb_refl.
  - rewrite append_cons. simpl in *.
    apply orb_false_iff in Hc as [Hx Ha]. rewrite Hx, (IH Ha). reflexivity.
Qed.

(** Splitting undoes joining when no piece holds the separator. *)
Lemma split_join (sep : ascii) (l : list string) :
  l ≠ [] → Forall (fun p => contains sep p = false) l →
  split sep (join (String sep EmptyString) l) = l.
Proof.
  induction l as [|x r IH]; [done|].
  intros _ Hall. apply Forall_cons in Hall as [Hx Hr].
  destruct r as [|y r].
  - simpl. by apply split_absent.
  - change (join (String sep EmptyString) (x :: y :: r))
      with (x +:+ String sep EmptyString +:+ join (String sep EmptyString) (y :: r)).
    change (String sep EmptyString +:+ ?s) with (String sep s).
    rewrite split_append by done. f_equal. by apply IH.
Qed.

(** ** net/url: escaping and the round trip of a query *)

Lemma QueryUnescape_step (c : ascii) (r : string) :
  url.QueryUnescape (url.QueryEscape (String c r))
  = String c <$> url.QueryUnescape (url.QueryEscape r).
Proof. destruct c as [[] [] [] [] [] [] [] []]; reflexivity. Qed.

Lemma QueryUnescape_QueryEscape (s : string) :
  url.QueryUnescape (url.QueryEscape s) = Some s.
Proof.
  induction s as [|c r IH]; [reflexivity|].
  rewrite QueryUnescape_step, IH. reflexivity.
Qed.

(** An escaped text holds none of the bytes that structure a query. *)
Lemma contains_QueryEscape_step (sep c : ascii) (r : string) :
  (sep = "&" ∨ sep = "=" ∨ sep = ";")%char →
  contains sep (url.QueryEscape (String c r)) = contains sep (url.QueryEscape r).
Proof.
  intros [-> | [-> | ->]]; destruct c as [[] [] [] [] [] [] [] []]; reflexivity.
Qed.

Lemma QueryEscape_clean (sep : ascii) (s : string) :
  (sep = "&" ∨ sep = "=" ∨ sep = ";")%char → contains sep (url.QueryEscape s) = false.
Proof.
  intros Hsep. induction s as [|c r IH]; [reflexivity|].
  by rewrite contains_QueryEscape_step.
Qed.

Lemma entry_nonempty (p : string * string) : String.eqb (entry p) EmptyString = false.
Proof.
  unfold entry. destruct (url.QueryEscape p.1); reflexivity.
Qed.

Lemma entry_clean (sep : ascii) (p : string * string) :
  (sep = "&" ∨ sep = ";")%char → contains sep (entry p) = false.
Proof.
  intros Hsep. unfold entry.
  rewrite !contains_append, !QueryEscape_clean by tauto.
  destruct Hsep as [-> | ->]; reflexivity.
Qed.

Lemma parse_piece_entry (m : url.Values) (err : bool) (p : string * string) :
  url.parse_piece (m, err) (entry p) = (add_pair m p, err).
Proof.
  unfold url.parse_piece.
  rewrite entry_clean, entry_nonempty by tauto.
  unfold entry. change ("=" +:+ ?s) with (String "=" s).
  rewrite cut_absent by (apply QueryEscape_clean; tauto).
  by rewrite !QueryUnescape_QueryEscape.
Qed.

Lemma fold_parse_entries (ps : list (string * string)) (m : url.Values) (err : bool) :
  fold_left url.parse_piece (map entry ps) (m, err) = (fold_left add_pair ps m, err).
Proof.
  revert m. induction ps as [|p ps IH]; intros m; [reflexivity|].
  cbn [map fold_left]. by rewrite parse_piece_entry, IH.
Qed.

Lemma Values_Encode_entries (v : url.Values) :
  url.Values_Encode v = join "&" (map entry (pairs_of (url.sorted_keys v) v)).
Proof.
  unfold url.Values_Encode, pairs_of. f_equal.
  induction (url.sorted_keys v) as [|k ks IH]; [reflexivity|].
  simpl. rewrite map_app, IH. f_equal.
  by rewrite map_map.
Qed.

Lemma ParseQuery_entries (ps : list (string * string)) :
  url.ParseQuery (join "&" (map entry ps)) = (fold_left add_pair ps ∅, false).
Proof.
  unfold url.ParseQuery. destruct ps as [|p ps]; [reflexivity|].
  rewrite split_join.
  - apply fold_parse_entries.
  - done.
  - generalize (p :: ps). intros l.
    induction l as [|q l IH]; simpl; constructor; [apply entry_clean; tauto | done].
Qed.

Lemma lookup_add_pair (m : url.Values) (p : string * string) (key : string) :
  add_pair m p !! key
  = if decide (p.1 = key) then Some (default [] (m !! key) ++ [p.2]) else m !! key.
Proof.
  unfold add_pair, url.Values_Add. rewrite lookup_insert.
  destruct (decide (p.1 = key)) as [->|]; reflexivity.
Qed.

Lemma lookup_fold_add_pair (ps : list (string * string)) (m : url.Values) (key : string) :
  fold_left add_pair ps m !! key
  = match values_of key ps with
    | [] => m !! key
    | vs => Some (default [] (m !! key) ++ vs)
    end.
Proof.
  revert m. induction ps as [|p ps IH]; intros m; [reflexivity|].
  simpl. rewrite IH, lookup_add_pair. unfold values_of.
  rewrite filter_cons. destruct (decide (p.1 = key)) as [Hk|Hk]; [|reflexivity].
  rewrite fmap_cons.
  destruct ((filter (λ p0 : string * string, p0.1 = key) ps).*2) as [|y ys]; simpl.
  - reflexivity.
  - by rewrite <- app_assoc.
Qed.

Lemma values_of_app (key : string) (ps qs : list (string * string)) :
  values_of key (ps ++ qs) = values_of key ps ++ values_of key qs.
Proof. unfold values_of. by rewrite filter_app, fmap_app. Qed.

Lemma values_of_key (key k : string) (xs : list string) :
  values_of key (map (fun x => (k, x)) xs) = if decide (k = key) then xs else [].
Proof.
  unfold values_of. destruct (decide (k = key)) as [->|Hne].
  - induction xs as [|x xs IH]; [done|].
    cbn [map]. rewrite filter_cons_True by done. rewrite fmap_cons. by rewrite IH.
  - induction xs as [|x xs IH]; [done|].
    cbn [map]. by rewrite filter_cons_False by done.
Qed.

Lemma values_of_pairs (key : string) (keys : list string) (v : url.Values) :
  NoDup keys →
  values_of key (pairs_of keys v) = if decide (key ∈ keys) then default [] (v !! key) else [].
Proof.
  induction keys as [|k ks IH]; intros Hnd.
  - reflexivity.
  - apply NoDup_cons in Hnd as [Hk Hks]. unfold pairs_of in *. simpl.
    rewrite values_of_app, values_of_key, (IH Hks).
    destruct (decide (k = key)) as [->|Hne].
    + destruct (decide (key ∈ key :: ks)) as [_|Hn]; [|exfalso; apply Hn; left].
      destruct (decide (key ∈ ks)); [done|]. by rewrite app_nil_r.
    + destruct (decide (key ∈ ks)) as [Hin|Hnin], (decide (key ∈ k :: ks)) as [Hin'|Hnin'];
        try done.
      * exfalso. apply Hnin'. by right.
      * exfalso. apply elem_of_cons in Hin' as [?|?]; [congruence | done].
Qed.

Lemma sorted_keys_NoDup (v : url.Values) : NoDup (url.sorted_keys v).
Proof.
  unfold url.sorted_keys. rewrite merge_sort_Permutation. apply NoDup_fst_map_to_list.
Qed.

Lemma elem_of_sorted_keys (v : url.Values) (key : string) :
  key ∈ url.sorted_keys v ↔ is_Some (v !! key).
Proof.
  unfold url.sorted_keys. rewrite merge_sort_Permutation.
  rewrite list_elem_of_fmap. split.
  - intros ([k x] & -> & Hin). apply elem_of_map_to_list in Hin. by exists x.
  - intros [x Hx]. exists (key, x). split; [done|]. by apply elem_of_map_to_list.
Qed.

(** Parsing an encoded query gives back, under every key, the values the
    query held under it, in their order; keys without a value are not
    written. No error is met. *)
Lemma ParseQuery_Encode (v : url.Values) :
  (∀ key, (url.ParseQuery (url.Values_Encode v)).1 !! key
          = match v !! key with
            | Some (x :: xs) => Some (x :: xs)
            | _ => None
            end)
  ∧ (url.ParseQuery (url.Values_Encode v)).2 = false.
Proof.
  rewrite Values_Encode_entries, ParseQuery_entries. split; [|reflexivity].
  intros key. simpl. rewrite lookup_fold_add_pair, lookup_empty.
  rewrite values_of_pairs by apply sorted_keys_NoDup.
  destruct (decide (key ∈ url.sorted_keys v)) as [Hin|Hnin].
  - apply elem_of_sorted_keys in Hin as [xs Hxs]. rewrite Hxs. simpl. by destruct xs.
  - destruct (v !! key) as [xs|] eqn:Hxs; [|done].
    exfalso. apply Hnin, elem_of_sorted_keys. by exists xs.
Qed.

(** ** The response resolver *)

Section Resolver.

Variable wellformed : string -> bool.
Variable Do : http.Client -> http.Request -> string + http.Response.

Lemma call_exchange (T : Type) `{json.Unmarshaler T} (h : Heap) (s : Supadata) (c : Call) :
  call wellformed Do T h s c
  = exchange Do h s (request_of wellformed s c) (response_of T c).
Proof. destruct c; reflexivity. Qed.

(** A completed exchange: the request was built, the client is there, and
    the transport answered. *)
Lemma exchange_completed {T : Type} (h : Heap) (s : Supadata) (req : http.Request)
    (cl : http.Client) (resp : http.Response) (rest : http.Response -> Result T) :
  client (config s) ≫= (h !!.) = Some cl →
  Do cl req = inr resp →
  exchange Do h s (Ok req) rest = Done (rest resp).
Proof. intros Hcl Hdo. unfold exchange. by rewrite Hcl, Hdo. Qed.

(** Whatever [handleRawResponse] rejects, every method rejects the same
    way. *)
Lemma response_of_error (T : Type) `{json.Unmarshaler T} (c : Call) (resp : http.Response)
    (e : error) :
  handleRawResponse resp = Err e → response_of T c resp = Err e.
Proof.
  intros Hraw.
  destruct c; simpl; unfold Transcript_response, handleResponse; by rewrite Hraw.
Qed.

Lemma call_error (T : Type) `{json.Unmarshaler T} (h : Heap) (s : Supadata) (c : Call)
    (req : http.Request) (cl : http.Client) (resp : http.Response) (e : error) :
  request_of wellformed s c = Ok req →
  client (config s) ≫= (h !!.) = Some cl →
  Do cl req = inr resp →
  handleRawResponse resp = Err e →
  call wellformed Do T h s c = Done (Err e).
Proof.
  intros Hreq Hcl Hdo Hraw.
  rewrite call_exchange, Hreq, (exchange_completed _ _ _ cl resp) by done.
  by rewrite (response_of_error _ _ _ e).
Qed.

End Resolver.

Lemma handleRawResponse_failure (resp : http.Response) :
  http.ReadError resp = None →
  (400 ≤ http.StatusCode resp)%Z →
  handleRawResponse resp
  = match json.Unmarshal ErrorResponse.t (http.ResponseBody resp) with
    | (_, Some _) =>
        Err (Errorf ("request failed with status " +:+ Sprintf_d (http.StatusCode resp)))
    | (errResp, None) => Err (APIError errResp)
    end.
Proof.
  intros Hread Hst. unfold handleRawResponse. rewrite Hread.
  by rewrite (proj2 (Z.leb_le _ _) Hst).
Qed.

Lemma handleRawResponse_success (resp : http.Response) :
  http.ReadError resp = None →
  (http.StatusCode resp < 400)%Z →
  handleRawResponse resp = Ok (http.ResponseBody resp).
Proof.
  intros Hread Hst. unfold handleRawResponse. rewrite Hread.
  by rewrite (proj2 (Z.leb_gt _ _) Hst).
Qed.

Lemma Unmarshal_syntax_error (T : Type) `{json.Unmarshaler T} (data : string) :
  json.parse data = None → json.Unmarshal T data = (json.zero, Some json.SyntaxError).
Proof. intros Hp. unfold json.Unmarshal. by rewrite Hp. Qed.

(** C3. A completed exchange with status 502 whose body is not JSON makes
    every method return the error of [fmt.Errorf] whose text is exactly
    [request failed with status 502]: the body is not echoed, and the error
    of the failed decode is not what is returned. *)
Theorem non_json_body_502 (wellformed : string -> bool)
    (Do : http.Client -> http.Request -> string + http.Response)
    (T : Type) `{json.Unmarshaler T} (h : Heap) (s : Supadata) (c : Call)
    (req : http.Request) (cl : http.Client) (resp : http.Response) :
  request_of wellformed s c = Ok req →
  client (config s) ≫= (h !!.) = Some cl →
  Do cl req = inr resp →
  http.ReadError resp = None →
  http.StatusCode resp = 502%Z →
  json.parse (http.ResponseBody resp) = None →
  call wellformed Do T h s c = Done (Err (Errorf "request failed with status 502"))
  ∧ Error (Errorf "request failed with status 502") = Some "request failed with status 502".
Proof.
  intros Hreq Hcl Hdo Hread Hst Hparse. split; [|reflexivity].
  apply (call_error _ _ _ _ _ _ req cl resp); try done.
  rewrite handleRawResponse_failure by (done || lia).
  rewrite (Unmarshal_syntax_error _ _ Hparse), Hst. reflexivity.
Qed.

Lemma non_json_body_502_witness :
  call any_url (answers (response 502 "Bad Gateway")) AsyncTranscript.t
       test_store test_client (CallTranscript test_params)
  = Done (Err (Errorf "request failed with status 502"))
  ∧ Error (Errorf "request failed with status 502") = Some "request failed with status 502".
Proof.
  eapply (non_json_body_502 any_url (answers (response 502 "Bad Gateway")) AsyncTranscript.t
            test_store test_client (CallTranscript test_params) _ defaultClient
            (response 502 "Bad Gateway")).
  - vm_compute. reflexivity.
  - reflexivity.
  - reflexivity.
  - reflexivity.
  - reflexivity.
  - vm_compute. reflexivity.
Defined.

(** ** Decoding the error body *)

Lemma index_of_lt {A : Type} (p : A → bool) (l : list A) (i : nat) :
  json.index_of p l = Some i → i < length l.
Proof.
  revert i. induction l as [|x l IH]; intros i; simpl; [done|].
  destruct (p x); [intros [= <-]; lia|].
  destruct (json.index_of p l) as [j|]; simpl; [|done].
  intros [= <-]. specialize (IH j eq_refl). lia.
Qed.

Lemma find_field_lt (names : list string) (key : string) (i : nat) :
  json.find_field names key = Some i → i < length names.
Proof.
  unfold json.find_field.
  destruct (json.index_of (String.eqb key) names) as [j|] eqn:Hj.
  - intros [= <-]. by apply index_of_lt in Hj.
  - apply index_of_lt.
Qed.

(** Storing into one field of an [ErrorResponse] leaves the others alone. *)
Lemma ErrorResponse_set_other (i j : nat) (v : json.Value) (e : ErrorResponse.t) :
  i < 4 → j < 4 → i ≠ j →
  ErrorResponse.get i (ErrorResponse.set j v e).1 = ErrorResponse.get i e.
Proof.
  intros Hi Hj Hne.
  destruct i as [|[|[|[|i]]]], j as [|[|[|[|j]]]]; try lia; destruct v; reflexivity.
Qed.

Lemma ErrorResponse_set_string (i : nat) (x : string) (e : ErrorResponse.t) :
  i < 4 → ErrorResponse.get i (ErrorResponse.set i (json.Str x) e).1 = x.
Proof. intros Hi. destruct i as [|[|[|[|i]]]]; try lia; reflexivity. Qed.

Lemma store_member_get (i : nat) (acc : ErrorResponse.t * option json.Error)
    (member : string * json.Value) :
  i < 4 →
  json.find_field ErrorResponse.fields member.1 ≠ Some i →
  ErrorResponse.get i (json.store_member ErrorResponse.fields ErrorResponse.set acc member).1
  = ErrorResponse.get i acc.1.
Proof.
  intros Hi Hne. unfold json.store_member.
  destruct (json.find_field ErrorResponse.fields member.1) as [j|] eqn:Hj; [|done].
  pose proof (find_field_lt _ _ _ Hj) as Hlt.
  pose proof (ErrorResponse_set_other i j member.2 acc.1 Hi Hlt) as Hset.
  destruct (ErrorResponse.set j member.2 acc.1) as [t' err'].
  simpl in *. apply Hset. congruence.
Qed.

(** A field no member selects keeps its value. *)
Lemma fold_store_member_absent (i : nat) (members : list (string * json.Value))
    (acc : ErrorResponse.t * option json.Error) :
  i < 4 →
  field_member ErrorResponse.fields i members = None →
  ErrorResponse.get i
    (fold_left (json.store_member ErrorResponse.fields ErrorResponse.set) members acc).1
  = ErrorResponse.get i acc.1.
Proof.
  intros Hi. revert acc. induction members as [|m rest IH]; intros acc Hnone; [done|].
  simpl in Hnone.
  destruct (field_member ErrorResponse.fields i rest) eqn:Hrest; [done|].
  destruct (bool_decide (json.find_field ErrorResponse.fields m.1 = Some i)) eqn:Hsel; [done|].
  apply bool_decide_eq_false in Hsel.
  cbn [fold_left]. rewrite IH by done. by apply store_member_get.
Qed.

(** A field whose deciding member is a JSON string holds that string. *)
Lemma fold_store_member_string (i : nat) (x : string) (members : list (string * json.Value))
    (acc : ErrorResponse.t * option json.Error) :
  i < 4 →
  field_member ErrorResponse.fields i members = Some (json.Str x) →
  ErrorResponse.get i
    (fold_left (json.store_member ErrorResponse.fields ErrorResponse.set) members acc).1
  = x.
Proof.
  intros Hi. revert acc. induction members as [|m rest IH]; intros acc Hsome; [done|].
  simpl in Hsome. cbn [fold_left].
  destruct (field_member ErrorResponse.fields i rest) as [v|] eqn:Hrest.
  - apply IH. by rewrite Hsome.
  - destruct (bool_decide (json.find_field ErrorResponse.fields m.1 = Some i)) eqn:Hsel;
      [|done].
    apply bool_decide_eq_true in Hsel. injection Hsome as Hval.
    rewrite fold_store_member_absent by done.
    unfold json.store_member. rewrite Hsel, Hval.
    pose proof (ErrorResponse_set_string i x acc.1 Hi) as Hset.
    destruct (ErrorResponse.set i (json.Str x) acc.1) as [t' err']. exact Hset.
Qed.

Lemma Unmarshal_ErrorResponse_object (data : string) (members : list (string * json.Value)) :
  json.parse data = Some (json.Object members) →
  json.Unmarshal ErrorResponse.t data
  = fold_left (json.store_member ErrorResponse.fields ErrorResponse.set) members
              (json.zero, None).
Proof. intros Hp. unfold json.Unmarshal. by rewrite Hp. Qed.

(** C2. A completed exchange with status 400 or above whose body decodes as
    an [ErrorResponse] makes every method return that [ErrorResponse] as its
    error, never a result; when the [error] member of the body is the string
    [id] (any string, so each of the eight declared identifiers), the
    identifier of the returned error is [id]. The [error] member is the one
    the decoder stores into the field: the last member that selects it. *)
Theorem typed_error_identifier (wellformed : string -> bool)
    (Do : http.Client -> http.Request -> string + http.Response)
    (T : Type) `{json.Unmarshaler T} (h : Heap) (s : Supadata) (c : Call)
    (req : http.Request) (cl : http.Client) (resp : http.Response)
    (members : list (string * json.Value)) (e : ErrorResponse.t) (id : ErrorIdentifier) :
  request_of wellformed s c = Ok req →
  client (config s) ≫= (h !!.) = Some cl →
  Do cl req = inr resp →
  http.ReadError resp = None →
  (400 ≤ http.StatusCode resp)%Z →
  json.parse (http.ResponseBody resp) = Some (json.Object members) →
  json.Unmarshal ErrorResponse.t (http.ResponseBody resp) = (e, None) →
  field_member ErrorResponse.fields 0 members = Some (json.Str id) →
  call wellformed Do T h s c = Done (Err (APIError e))
  ∧ ErrorResponse.ErrorIdentifier e = id
  ∧ ∀ v, call wellformed Do T h s c ≠ Done (Ok v).
Proof.
  intros Hreq Hcl Hdo Hread Hst Hparse Hdec Hfield.
  assert (call wellformed Do T h s c = Done (Err (APIError e))) as Hcall.
  { apply (call_error _ _ _ _ _ _ req cl resp); try done.
    rewrite handleRawResponse_failure by done. by rewrite Hdec. }
  split; [done|]. split.
  - rewrite (Unmarshal_ErrorResponse_object _ _ Hparse) in Hdec.
    pose proof (fold_store_member_string 0 id members (json.zero, None)
                  ltac:(lia) Hfield) as Hid.
    by rewrite Hdec in Hid.
  - intros v. by rewrite Hcall.
Qed.

Lemma typed_error_identifier_witness :
  call any_url (answers (response 400 (error_body Forbidden "Test message" EmptyString)))
       AsyncTranscript.t test_store test_client (CallMetadata "https://youtube.com/watch?v=123")
  = Done (Err (APIError (ErrorResponse.mk Forbidden "Test message" EmptyString EmptyString)))
  ∧ ErrorResponse.ErrorIdentifier
      (ErrorResponse.mk Forbidden "Test message" EmptyString EmptyString) = Forbidden
  ∧ ∀ v, call any_url
           (answers (response 400 (error_body Forbidden "Test message" EmptyString)))
           AsyncTranscript.t test_store test_client
           (CallMetadata "https://youtube.com/watch?v=123") ≠ Done (Ok v).
Proof.
  eapply (typed_error_identifier any_url
            (answers (response 400 (error_body Forbidden "Test message" EmptyString)))
            AsyncTranscript.t test_store test_client
            (CallMetadata "https://youtube.com/watch?v=123") _ defaultClient
            (response 400 (error_body Forbidden "Test message" EmptyString))).
  - vm_compute. reflexivity.
  - reflexivity.
  - reflexivity.
  - reflexivity.
  - simpl. lia.
  - vm_compute. reflexivity.
  - vm_compute. reflexivity.
  - vm_compute. reflexivity.
Defined.

(** Each of the eight identifiers, in the body the tests send, comes back as
    the identifier of the returned error. *)
Example all_identifiers_returned :
  Forall (fun id =>
            handleRawResponse (response 400 (error_body id "Test message" EmptyString))
            = Err (APIError (ErrorResponse.mk id "Test message" EmptyString EmptyString)))
         identifiers.
Proof. repeat constructor. Qed.

(** C10. On a completed exchange with status 400 or above, every method
    returns the decoded [ErrorResponse] whenever [json.Unmarshal] of the body
    into it succeeds, and the generic [request failed with status N] error
    only when that fails. In the decoded error a field that no member of the
    body selects is the empty string; the bodies [null] and [{}] give the
    error with four empty fields. *)
Theorem lenient_error_body (wellformed : string -> bool)
    (Do : http.Client -> http.Request -> string + http.Response)
    (T : Type) `{json.Unmarshaler T} (h : Heap) (s : Supadata) (c : Call)
    (req : http.Request) (cl : http.Client) (resp : http.Response) :
  request_of wellformed s c = Ok req →
  client (config s) ≫= (h !!.) = Some cl →
  Do cl req = inr resp →
  http.ReadError resp = None →
  (400 ≤ http.StatusCode resp)%Z →
  match json.Unmarshal ErrorResponse.t (http.ResponseBody resp) with
  | (e, None) => call wellformed Do T h s c = Done (Err (APIError e))
  | (_, Some _) =>
      call wellformed Do T h s c
      = Done (Err (Errorf ("request failed with status " +:+ Sprintf_d (http.StatusCode resp))))
  end
  ∧ (json.parse (http.ResponseBody resp) = Some json.Null
     ∨ json.parse (http.ResponseBody resp) = Some (json.Object []) →
     call wellformed Do T h s c
     = Done (Err (APIError (ErrorResponse.mk EmptyString EmptyString EmptyString EmptyString))))
  ∧ (∀ members e i,
       json.parse (http.ResponseBody resp) = Some (json.Object members) →
       json.Unmarshal ErrorResponse.t (http.ResponseBody resp) = (e, None) →
       i < 4 →
       field_member ErrorResponse.fields i members = None →
       ErrorResponse.get i e = EmptyString).
Proof.
  intros Hreq Hcl Hdo Hread Hst.
  pose proof (handleRawResponse_failure resp Hread Hst) as Hraw.
  assert (∀ e, handleRawResponse resp = Err e → call wellformed Do T h s c = Done (Err e))
    as Hcall.
  { intros e He. by apply (call_error _ _ _ _ _ _ req cl resp). }
  split; [|split].
  - destruct (json.Unmarshal ErrorResponse.t (http.ResponseBody resp)) as [e [err|]];
      by apply Hcall.
  - intros Hp. apply Hcall. rewrite Hraw. unfold json.Unmarshal.
    by destruct Hp as [-> | ->].
  - intros members e i Hp Hdec Hi Hnone.
    rewrite (Unmarshal_ErrorResponse_object _ _ Hp) in Hdec.
    pose proof (fold_store_member_absent i members (json.zero, None) Hi Hnone) as Hget.
    rewrite Hdec in Hget. simpl in Hget. rewrite Hget. by destruct i as [|[|[|[|i]]]].
Qed.

Lemma lenient_error_body_witness :
  call any_url (answers (response 400 "{}")) AsyncTranscript.t test_store test_client CallMe
  = Done (Err (APIError (ErrorResponse.mk EmptyString EmptyString EmptyString EmptyString))).
Proof.
  edestruct (lenient_error_body any_url (answers (response 400 "{}")) AsyncTranscript.t
               test_store test_client CallMe) as (_ & Hempty & _).
  - vm_compute. reflexivity.
  - reflexivity.
  - reflexivity.
  - reflexivity.
  - simpl. lia.
  - apply Hempty. right. vm_compute. reflexivity.
Defined.

(** ** The two variants of a transcript *)

Lemma lookup_fold_insert_member (members : list (string * json.Value))
    (m : gmap string json.RawMessage) (key : string) :
  is_Some (fold_left json.insert_member members m !! key)
  ↔ key ∈ members.*1 ∨ is_Some (m !! key).
Proof.
  revert m. induction members as [|[k x] rest IH]; intros m.
  - simpl. rewrite elem_of_nil. tauto.
  - cbn [fold_left]. rewrite IH, fmap_cons, elem_of_cons.
    unfold json.insert_member. cbn [fst snd]. rewrite lookup_insert.
    destruct (decide (k = key)) as [->|Hne].
    + split; [intros _; by left; left | intros _; right; eauto].
    + split; [intros [?|?]; tauto | intros [[?|?]|?]; [congruence | tauto | tauto]].
Qed.

Lemma Unmarshal_rawmap_object (data : string) (members : list (string * json.Value)) :
  json.parse data = Some (json.Object members) →
  json.Unmarshal (gmap string json.RawMessage) data
  = (fold_left json.insert_member members ∅, None).
Proof. intros Hp. unfold json.Unmarshal. by rewrite Hp. Qed.

(** What [Transcript] makes of a body that is a JSON object, read below the
    error statuses: the probe for [jobId] selects the variant to decode. *)
Lemma Transcript_response_object (resp : http.Response) (members : list (string * json.Value)) :
  http.ReadError resp = None →
  (http.StatusCode resp < 400)%Z →
  json.parse (http.ResponseBody resp) = Some (json.Object members) →
  Transcript_response resp
  = if decide ("jobId" ∈ members.*1) then
      match json.Unmarshal AsyncTranscript.t (http.ResponseBody resp) with
      | (_, Some err) => Err (JSONError err)
      | (async, None) => Ok {| Transcript.Sync := None; Transcript.Async := Some async |}
      end
    else
      match json.Unmarshal SyncTranscript.t (http.ResponseBody resp) with
      | (_, Some err) => Err (JSONError err)
      | (sync, None) => Ok {| Transcript.Sync := Some sync; Transcript.Async := None |}
      end.
Proof.
  intros Hread Hst Hp. unfold Transcript_response.
  rewrite handleRawResponse_success by done.
  change (Ok (http.ResponseBody resp) ≫= ?f) with (f (http.ResponseBody resp)).
  cbv beta. rewrite (Unmarshal_rawmap_object _ _ Hp).
  pose proof (lookup_fold_insert_member members ∅ "jobId") as Hprobe.
  rewrite lookup_empty in Hprobe.
  destruct (fold_left json.insert_member members ∅ !! "jobId") as [x|] eqn:Hraw.
  - rewrite decide_True; [done|].
    destruct (proj1 Hprobe) as [Hin|[? [=]]]; [by eexists | done].
  - rewrite decide_False; [done|].
    intros Hin. destruct (proj2 Hprobe (or_introl Hin)) as [? [=]].
Qed.

(** C1, as amended. For a transcript fetch whose exchange completes with a
    status below 400 and a body that is a JSON object: with the key [jobId]
    the body is decoded as the asynchronous variant, without it as the
    synchronous one; when that decode succeeds the call returns the
    [Transcript] with exactly that variant set and the other nil, and when it
    fails the call returns the decode error and no [Transcript]. Every
    [Transcript] that is returned has exactly one variant set, the one the
    key selects. *)
Theorem transcript_variant (wellformed : string -> bool)
    (Do : http.Client -> http.Request -> string + http.Response)
    (h : Heap) (s : Supadata) (params : TranscriptParams.t)
    (req : http.Request) (cl : http.Client) (resp : http.Response)
    (members : list (string * json.Value)) :
  Transcript_request wellformed s params = Ok req →
  client (config s) ≫= (h !!.) = Some cl →
  Do cl req = inr resp →
  http.ReadError resp = None →
  (http.StatusCode resp < 400)%Z →
  json.parse (http.ResponseBody resp) = Some (json.Object members) →
  ("jobId" ∈ members.*1 →
     match json.Unmarshal AsyncTranscript.t (http.ResponseBody resp) with
     | (async, None) =>
         Transcript wellformed Do h s params
         = Done (Ok {| Transcript.Sync := None; Transcript.Async := Some async |})
     | (_, Some err) => Transcript wellformed Do h s params = Done (Err (JSONError err))
     end)
  ∧ ("jobId" ∉ members.*1 →
     match json.Unmarshal SyncTranscript.t (http.ResponseBody resp) with
     | (sync, None) =>
         Transcript wellformed Do h s params
         = Done (Ok {| Transcript.Sync := Some sync; Transcript.Async := None |})
     | (_, Some err) => Transcript wellformed Do h s params = Done (Err (JSONError err))
     end)
  ∧ (∀ t, Transcript wellformed Do h s params = Done (Ok t) →
       (is_Some (Transcript.Async t) ∧ Transcript.Sync t = None
        ∧ Transcript.IsAsync t = true ∧ "jobId" ∈ members.*1)
       ∨ (is_Some (Transcript.Sync t) ∧ Transcript.Async t = None
          ∧ Transcript.IsAsync t = false ∧ "jobId" ∉ members.*1)).
Proof.
  intros Hreq Hcl Hdo Hread Hst Hp.
  assert (Transcript wellformed Do h s params = Done (Transcript_response resp)) as ->.
  { unfold Transcript. rewrite Hreq. by apply exchange_completed with cl. }
  rewrite (Transcript_response_object _ members) by done.
  destruct (decide ("jobId" ∈ members.*1)) as [Hin|Hnin].
  - split; [|split].
    + intros _. by destruct (json.Unmarshal AsyncTranscript.t _) as [a [err|]].
    + done.
    + intros t Ht. left.
      destruct (json.Unmarshal AsyncTranscript.t _) as [a [err|]]; [done|].
      injection Ht as <-. simpl. repeat split; eauto.
  - split; [|split].
    + done.
    + intros _. by destruct (json.Unmarshal SyncTranscript.t _) as [a [err|]].
    + intros t Ht. right.
      destruct (json.Unmarshal SyncTranscript.t _) as [a [err|]]; [done|].
      injection Ht as <-. simpl. repeat split; eauto.
Qed.

Lemma transcript_variant_witness :
  Transcript any_url (answers (response 200 (rewrite_quotes "{'jobId':'job-abc-123'}")))
             test_store test_client test_params
  = Done (Ok {| Transcript.Sync := None;
                Transcript.Async := Some (AsyncTranscript.mk "job-abc-123") |}).
Proof.
  edestruct (transcript_variant any_url
               (answers (response 200 (rewrite_quotes "{'jobId':'job-abc-123'}")))
               test_store test_client test_params) as (Hasync & _ & _).
  - vm_compute. reflexivity.
  - reflexivity.
  - reflexivity.
  - reflexivity.
  - simpl. lia.
  - vm_compute. reflexivity.
  - apply Hasync. vm_compute. left.
Defined.

(** C1 as stated fails: the body [{"jobId":123}] is a JSON object with the
    key [jobId], read with status 200, and the call returns the type error of
    the second decode, with no [Transcript] at all. *)
Lemma transcript_jobId_number :
  json.parse (rewrite_quotes "{'jobId':123}") = Some (json.Object [("jobId", json.Number "123")])
  ∧ Transcript any_url (answers (response 200 (rewrite_quotes "{'jobId':123}")))
               test_store test_client test_params
    = Done (Err (JSONError (json.UnmarshalTypeError "number" "string")))
  ∧ ¬ ∃ t, Transcript any_url (answers (response 200 (rewrite_quotes "{'jobId':123}")))
                      test_store test_client test_params = Done (Ok t).
Proof.
  split; [vm_compute; reflexivity|].
  assert (Transcript any_url (answers (response 200 (rewrite_quotes "{'jobId':123}")))
                     test_store test_client test_params
          = Done (Err (JSONError (json.UnmarshalTypeError "number" "string")))) as Hcall
    by (vm_compute; reflexivity).
  split; [exact Hcall|]. intros [t Ht]. rewrite Hcall in Ht. discriminate.
Qed.

(** ** Requests *)

Lemma bind_Ok_inv {A B : Type} (m : Result A) (f : A → Result B) (b : B) :
  m ≫= f = Ok b → ∃ a, m = Ok a ∧ f a = Ok b.
Proof. destruct m as [a|e]; [by exists a | done]. Qed.

(** The entries of an encoded query are its pairs. *)
Lemma entry_in_Encode (v : url.Values) (k x : string) (xs : list string) :
  v !! k = Some xs → x ∈ xs → entry (k, x) ∈ split "&" (url.Values_Encode v).
Proof.
  intros Hk Hx. rewrite Values_Encode_entries.
  assert ((k, x) ∈ pairs_of (url.sorted_keys v) v) as Hin.
  { unfold pairs_of. apply list_elem_of_In, in_flat_map. exists k. split.
    - apply list_elem_of_In, elem_of_sorted_keys. by exists xs.
    - rewrite Hk. simpl. apply in_map. by apply list_elem_of_In. }
  destruct (pairs_of (url.sorted_keys v) v) as [|p ps] eqn:Hps; [by apply elem_of_nil in Hin|].
  rewrite split_join.
  - apply list_elem_of_In, in_map. by apply list_elem_of_In.
  - done.
  - generalize (p :: ps). intros l.
    induction l as [|q l IH]; simpl; constructor; [apply entry_clean; tauto | done].
Qed.

Lemma RawQuery_set_query (q : url.Values) (req : http.Request) :
  url.RawQuery (http.URL (set_query q req)) = url.Values_Encode q.
Proof. reflexivity. Qed.

Lemma lookup_set_if_ne (cond : bool) (key value key' : string) (q : url.Values) :
  key ≠ key' → set_if cond key value q !! key' = q !! key'.
Proof.
  intros Hne. unfold set_if, url.Values_Set. destruct cond; [|done].
  by rewrite lookup_insert_ne.
Qed.

(** C4. A transcript fetch with [Mode] left empty sends a query string that
    holds the entry [mode=auto]: parsed back, the key [mode] is present with
    the single value [auto]. *)
Theorem mode_defaults_to_auto (wellformed : string -> bool) (s : Supadata)
    (params : TranscriptParams.t) (req : http.Request) :
  TranscriptParams.Mode params = EmptyString →
  Transcript_request wellformed s params = Ok req →
  (url.ParseQuery (url.RawQuery (http.URL req))).1 !! "mode" = Some ["auto"]
  ∧ url.Values_Get "mode" (url.ParseQuery (url.RawQuery (http.URL req))).1 = "auto"
  ∧ "mode=auto" ∈ split "&" (url.RawQuery (http.URL req)).
Proof.
  intros Hmode Hreq. unfold Transcript_request in Hreq.
  apply bind_Ok_inv in Hreq as (req0 & _ & Hreq). rewrite Hmode in Hreq.
  injection Hreq as <-. rewrite RawQuery_set_query.
  set (q := set_if _ "chunkSize" _ _).
  assert (url.Values_Set "mode" Auto q !! "mode" = Some ["auto"]) as Hq
    by apply lookup_insert_eq.
  assert ((url.ParseQuery (url.Values_Encode (url.Values_Set "mode" Auto q))).1 !! "mode"
          = Some ["auto"]) as Hback.
  { rewrite (proj1 (ParseQuery_Encode _)). by rewrite Hq. }
  split; [exact Hback|]. split.
  - unfold url.Values_Get. by rewrite Hback.
  - apply (entry_in_Encode _ "mode" "auto" ["auto"] Hq). by left.
Qed.

Lemma mode_defaults_to_auto_witness :
  ∃ req, Transcript_request any_url test_client test_params = Ok req
         ∧ url.RawQuery (http.URL req)
           = "mode=auto&url=https%3A%2F%2Fyoutube.com%2Fwatch%3Fv%3D123"
         ∧ (url.ParseQuery (url.RawQuery (http.URL req))).1 !! "mode" = Some ["auto"].
Proof.
  destruct (Transcript_request any_url test_client test_params) as [req|e] eqn:Hreq;
    [|vm_compute in Hreq; discriminate].
  exists req. split; [reflexivity|]. split.
  - vm_compute in Hreq. injection Hreq as <-. reflexivity.
  - apply (mode_defaults_to_auto any_url test_client test_params req); [reflexivity | exact Hreq].
Defined.

Lemma canonical_user_agent : http.CanonicalMIMEHeaderKey "User-Agent" = "User-Agent".
Proof. reflexivity. Qed.

Lemma canonical_api_key : http.CanonicalMIMEHeaderKey "x-api-key" = "X-Api-Key".
Proof. reflexivity. Qed.

Lemma canonical_content_type : http.CanonicalMIMEHeaderKey "Content-Type" = "Content-Type".
Proof. reflexivity. Qed.

Lemma default_headers_set (s : Supadata) (req : http.Request) :
  default_headers s (setDefaultHeaders s req).
Proof.
  unfold default_headers, setDefaultHeaders, set_header, http.Header_Values, http.Header_Set.
  simpl. rewrite canonical_user_agent, canonical_api_key. split.
  - rewrite lookup_insert_ne by done. by rewrite lookup_insert_eq.
  - by rewrite lookup_insert_eq.
Qed.

Lemma default_headers_prepare (wellformed : string -> bool) (s : Supadata)
    (method endpoint : string) (body : option json.Value) (req : http.Request) :
  prepareRequest wellformed s method endpoint body = Ok req → default_headers s req.
Proof.
  unfold prepareRequest.
  destruct (http.NewRequest wellformed method _ body) as [req0|]; [|done].
  intros [= <-]. apply default_headers_set.
Qed.

Lemma default_headers_content_type (s : Supadata) (value : string) (req : http.Request) :
  default_headers s req → default_headers s (set_header "Content-Type" value req).
Proof.
  unfold default_headers, set_header, http.Header_Values, http.Header_Set. simpl.
  rewrite canonical_user_agent, canonical_api_key, canonical_content_type.
  by rewrite !lookup_insert_ne by done.
Qed.

(** C6. Every request a method builds carries [User-Agent] with the single
    value [supadata-go/1.0.0] and [x-api-key] with the configured key as its
    single value, whatever the method and its arguments. *)
Theorem default_headers_always (wellformed : string -> bool) (s : Supadata) (c : Call)
    (req : http.Request) :
  request_of wellformed s c = Ok req →
  http.Header_Values "User-Agent" (http.Header_of req) = ["supadata-go/1.0.0"]
  ∧ http.Header_Values "x-api-key" (http.Header_of req) = [apiKey (config s)]
  ∧ http.Header_Get "User-Agent" (http.Header_of req) = "supadata-go/1.0.0"
  ∧ http.Header_Get "x-api-key" (http.Header_of req) = apiKey (config s).
Proof.
  intros Hreq.
  assert (default_headers s req) as [Hua Hkey].
  { destruct c; simpl in Hreq;
      lazymatch type of Hreq with
      | ?f _ _ _ _ = _ => unfold f in Hreq
      | ?f _ _ _ = _ => unfold f in Hreq
      | ?f _ _ = _ => unfold f in Hreq
      end;
      try (apply bind_Ok_inv in Hreq as (req0 & Hprep & Hreq);
           apply default_headers_prepare in Hprep);
      try (by eapply default_headers_prepare).
    all: try (injection Hreq as <-; first [exact Hprep | by apply default_headers_content_type]).
    destruct (0 <? skip)%Z; by injection Hreq as <-. }
  unfold http.Header_Get. unfold http.Header_Values in Hua, Hkey.
  repeat split; [done | done | |].
  - by destruct (http.Header_of req !! http.CanonicalMIMEHeaderKey "User-Agent") as [[|x l]|];
      simplify_eq/=.
  - by destruct (http.Header_of req !! http.CanonicalMIMEHeaderKey "x-api-key") as [[|x l]|];
      simplify_eq/=.
Qed.

Lemma default_headers_always_witness :
  ∃ req, request_of any_url test_client (CallCrawl (CrawlBody.mk "https://example.com" 10))
         = Ok req
         ∧ http.Header_Get "User-Agent" (http.Header_of req) = "supadata-go/1.0.0"
         ∧ http.Header_Get "x-api-key" (http.Header_of req) = "test-api-key".
Proof.
  destruct (request_of any_url test_client (CallCrawl (CrawlBody.mk "https://example.com" 10)))
    as [req|e] eqn:Hreq; [|vm_compute in Hreq; discriminate].
  exists req. split; [reflexivity|].
  apply (default_headers_always any_url test_client
           (CallCrawl (CrawlBody.mk "https://example.com" 10)) req Hreq).
Defined.

(** A URL text without [?] parses to an empty query. *)
Lemma contains_cut_fst (c sep : ascii) (s : string) :
  contains c s = false → contains c (cut sep s).1.1 = false.
Proof.
  induction s as [|x s IH]; simpl; [done|]. intros Hc.
  apply orb_false_iff in Hc as [Hx Hs].
  destruct (Ascii.eqb x sep); [done|].
  specialize (IH Hs). destruct (cut sep s) as [[a b] found]. simpl in *. by rewrite Hx, IH.
Qed.

Lemma prepareRequest_no_query (wellformed : string -> bool) (s : Supadata)
    (method endpoint : string) (body : option json.Value) (req : http.Request) :
  contains "?" (baseURL (config s) +:+ endpoint) = false →
  prepareRequest wellformed s method endpoint body = Ok req →
  url.RawQuery (http.URL req) = EmptyString.
Proof.
  intros Hno. unfold prepareRequest, http.NewRequest, url.Parse.
  destruct (http.validMethod _); [|done].
  destruct (wellformed _); [|done]. simpl.
  pose proof (contains_cut_fst "?" "#" _ Hno) as Hu.
  destruct (cut "#" (baseURL (config s) +:+ endpoint)) as [[u frag] found]. simpl in *.
  rewrite (cut_none _ _ Hu). intros [= <-]. reflexivity.
Qed.

(** With [skip] at zero the request goes out as [prepareRequest] made it. *)
Lemma CrawlResult_request_zero (wellformed : string -> bool) (s : Supadata) (jobId : string) :
  CrawlResult_request wellformed s jobId 0
  = prepareRequest wellformed s "GET" ("/web/crawl/" +:+ jobId) None.
Proof.
  unfold CrawlResult_request. by destruct (prepareRequest wellformed s _ _ _).
Qed.

(** C7, as amended. With [skip] at 0 a crawl poll sends the request exactly
    as [prepareRequest] made it from base URL, path and job id: it adds no
    [skip] parameter. With [skip] at 10 the query string holds the entry
    [skip=10]; parsed back, [skip] has the single value [10]. When neither
    the base URL nor the job id holds a [?], the query string is empty, so
    without any [skip] parameter, for [skip] at 0, and is [skip=10] for
    [skip] at 10. *)
Theorem crawl_poll_skip (wellformed : string -> bool) (s : Supadata) (jobId : string)
    (req0 : http.Request) :
  prepareRequest wellformed s "GET" ("/web/crawl/" +:+ jobId) None = Ok req0 →
  CrawlResult_request wellformed s jobId 0 = Ok req0
  ∧ (∃ req, CrawlResult_request wellformed s jobId 10 = Ok req
            ∧ (url.ParseQuery (url.RawQuery (http.URL req))).1 !! "skip" = Some ["10"]
            ∧ "skip=10" ∈ split "&" (url.RawQuery (http.URL req)))
  ∧ (contains "?" (baseURL (config s)) = false →
     contains "?" jobId = false →
     url.RawQuery (http.URL req0) = EmptyString
     ∧ (url.ParseQuery (url.RawQuery (http.URL req0))).1 !! "skip" = None
     ∧ ∀ req, CrawlResult_request wellformed s jobId 10 = Ok req →
              url.RawQuery (http.URL req) = "skip=10").
Proof.
  intros Hprep. split; [|split].
  - by rewrite CrawlResult_request_zero.
  - unfold CrawlResult_request. rewrite Hprep.
    eexists. split; [reflexivity|]. rewrite RawQuery_set_query.
    set (q0 := url.URL_Query (http.URL req0)).
    assert (url.Values_Set "skip" (Sprintf_d 10) q0 !! "skip" = Some ["10"]) as Hq
      by apply lookup_insert_eq.
    split.
    + rewrite (proj1 (ParseQuery_Encode _)). by rewrite Hq.
    + apply (entry_in_Encode _ "skip" "10" ["10"] Hq). by left.
  - intros Hbase Hjob.
    assert (url.RawQuery (http.URL req0) = EmptyString) as Hq0.
    { apply (prepareRequest_no_query wellformed s "GET" ("/web/crawl/" +:+ jobId) None);
        [|done].
      rewrite !contains_append, Hbase, Hjob. reflexivity. }
    split; [done|]. split; [by rewrite Hq0|].
    intros req. unfold CrawlResult_request. rewrite Hprep. intros [= <-].
    rewrite RawQuery_set_query. unfold url.URL_Query. rewrite Hq0. vm_compute. reflexivity.
Qed.

Lemma crawl_poll_skip_witness :
  ∃ req0 req, CrawlResult_request any_url test_client "job-123" 0 = Ok req0
              ∧ url.RawQuery (http.URL req0) = EmptyString
              ∧ CrawlResult_request any_url test_client "job-123" 10 = Ok req
              ∧ url.RawQuery (http.URL req) = "skip=10".
Proof.
  destruct (prepareRequest any_url test_client "GET" ("/web/crawl/" +:+ "job-123") None)
    as [req0|e] eqn:Hprep; [|vm_compute in Hprep; discriminate].
  destruct (crawl_poll_skip any_url test_client "job-123" req0 Hprep)
    as (Hzero & (req & Hten & _) & Hplain).
  destruct (Hplain eq_refl eq_refl) as (Hq0 & _ & Hquery).
  exists req0, req. repeat split; [exact Hzero | exact Hq0 | exact Hten | exact (Hquery req Hten)].
Defined.

(** C7 as stated fails: a job id is put into the URL as it is, so with the
    job id [job-123?skip=7] and [skip] at 0 the query string of the outgoing
    request is [skip=7]. *)
Lemma crawl_poll_skip_in_job_id :
  ∃ req, CrawlResult_request any_url test_client "job-123?skip=7" 0 = Ok req
         ∧ url.RawQuery (http.URL req) = "skip=7"
         ∧ (url.ParseQuery (url.RawQuery (http.URL req))).1 !! "skip" = Some ["7"].
Proof.
  destruct (CrawlResult_request any_url test_client "job-123?skip=7" 0) as [req|e] eqn:Hreq;
    [|vm_compute in Hreq; discriminate].
  exists req. split; [reflexivity|].
  vm_compute in Hreq. injection Hreq as <-. split; vm_compute; reflexivity.
Qed.

(** [q.Add] in a loop appends the values, in order, to those the key has. *)
Lemma lookup_fold_Add (key : string) (fs : list string) (q : url.Values) :
  fs ≠ [] →
  fold_left (fun q f => url.Values_Add key f q) fs q !! key
  = Some (default [] (q !! key) ++ fs).
Proof.
  intros Hfs.
  assert (fold_left (fun q f => url.Values_Add key f q) fs q
          = fold_left add_pair (map (fun f => (key, f)) fs) q) as ->.
  { revert q. induction fs as [|f fs IH]; intros q; [done|]. simpl.
    destruct fs as [|g fs]; [done|]. by rewrite IH. }
  rewrite lookup_fold_add_pair, values_of_key, decide_True by done.
  by destruct fs.
Qed.

(** C8, as amended. A YouTube search with a non-empty list of feature flags
    sends a query string with one [features=flag] entry per flag; parsed
    back, the key [features] holds the values the URL of the request already
    carried under it, followed by the flags, as many as were given and in
    their order. When the base URL holds no [?], the URL carries no
    parameter of its own and the parsed list is the list of flags. *)
Theorem features_round_trip (wellformed : string -> bool) (s : Supadata)
    (params : YouTubeSearchParams.t) (req0 req : http.Request) :
  prepareRequest wellformed s "GET" "/youtube/search" None = Ok req0 →
  YouTubeSearchParams.Features params ≠ [] →
  YouTubeSearch_request wellformed s params = Ok req →
  (url.ParseQuery (url.RawQuery (http.URL req))).1 !! "features"
  = Some (default [] (url.URL_Query (http.URL req0) !! "features")
          ++ YouTubeSearchParams.Features params)
  ∧ (url.ParseQuery (url.RawQuery (http.URL req))).2 = false
  ∧ (∀ f, f ∈ YouTubeSearchParams.Features params →
          ("features=" +:+ url.QueryEscape f) ∈ split "&" (url.RawQuery (http.URL req)))
  ∧ (contains "?" (baseURL (config s)) = false →
     (url.ParseQuery (url.RawQuery (http.URL req))).1 !! "features"
     = Some (YouTubeSearchParams.Features params)).
Proof.
  intros Hprep Hfs Hreq. unfold YouTubeSearch_request in Hreq.
  rewrite Hprep in Hreq. injection Hreq as <-. rewrite RawQuery_set_query.
  rewrite bool_decide_eq_true_2
    by (destruct (YouTubeSearchParams.Features params); [done | simpl; lia]).
  match goal with |- context [url.Values_Encode ?q] => set (qf := q) end.
  assert (qf !! "features"
          = Some (default [] (url.URL_Query (http.URL req0) !! "features")
                  ++ YouTubeSearchParams.Features params)) as Hqf.
  { unfold qf. rewrite !lookup_set_if_ne by done.
    rewrite lookup_fold_Add by done.
    rewrite !lookup_set_if_ne by done.
    unfold url.Values_Set. by rewrite lookup_insert_ne by done. }
  assert ((url.ParseQuery (url.Values_Encode qf)).1 !! "features"
          = Some (default [] (url.URL_Query (http.URL req0) !! "features")
                  ++ YouTubeSearchParams.Features params)) as Hback.
  { rewrite (proj1 (ParseQuery_Encode qf)), Hqf.
    destruct (default [] (url.URL_Query (http.URL req0) !! "features")
              ++ YouTubeSearchParams.Features params) as [|x xs] eqn:Happ; [|done].
    apply app_eq_nil in Happ as [_ Hnil]. done. }
  split; [exact Hback|]. split; [apply ParseQuery_Encode|]. split.
  - intros f Hf. apply (entry_in_Encode qf "features" f _ Hqf).
    apply elem_of_app. by right.
  - intros Hbase. rewrite Hback. unfold url.URL_Query.
    rewrite (prepareRequest_no_query wellformed s "GET" "/youtube/search" None req0); [done| |done].
    rewrite contains_append, Hbase. reflexivity.
Qed.

Lemma features_round_trip_witness :
  ∃ req, YouTubeSearch_request any_url test_client test_search = Ok req
         ∧ url.RawQuery (http.URL req) = "features=hd&features=live&query=golang"
         ∧ (url.ParseQuery (url.RawQuery (http.URL req))).1 !! "features"
           = Some [FeatureHD; FeatureLive].
Proof.
  destruct (prepareRequest any_url test_client "GET" "/youtube/search" None)
    as [req0|e] eqn:Hprep; [|vm_compute in Hprep; discriminate].
  destruct (YouTubeSearch_request any_url test_client test_search) as [req|e] eqn:Hreq;
    [|vm_compute in Hreq; discriminate].
  exists req. split; [reflexivity|]. split.
  - vm_compute in Hreq. injection Hreq as <-. reflexivity.
  - edestruct (features_round_trip any_url test_client test_search req0 req Hprep)
      as (_ & _ & _ & Hback); [done | exact Hreq |].
    apply Hback. reflexivity.
Defined.

(** C8 as stated fails: the query of a request starts from the query its URL
    already has, so under a base URL that ends in the query
    [features=4k&x=] the flags [hd] and [live] are parsed back as
    [4k], [hd], [live]. *)
Lemma features_after_base_url_query :
  ∃ req, YouTubeSearch_request any_url
           {| config := {| apiKey := "test-api-key";
                           baseURL := "https://api.supadata.ai/v1?features=4k&x=";
                           client := Some 0 |} |}
           test_search = Ok req
         ∧ url.RawQuery (http.URL req)
           = "features=4k&features=hd&features=live&query=golang&x=%2Fyoutube%2Fsearch"
         ∧ (url.ParseQuery (url.RawQuery (http.URL req))).1 !! "features"
           = Some ["4k"; "hd"; "live"]
         ∧ YouTubeSearchParams.Features test_search = ["hd"; "live"].
Proof.
  match goal with
  | |- ∃ req, ?r = Ok req ∧ _ => destruct r as [req|e] eqn:Hreq;
                                   [|vm_compute in Hreq; discriminate]
  end.
  exists req. split; [reflexivity|].
  vm_compute in Hreq. injection Hreq as <-.
  repeat split; vm_compute; reflexivity.
Qed.

(** ** Configuration *)

Lemma apply_opts_app (l1 l2 : list ConfigOption) (st : Config * Heap) :
  apply_opts (l1 ++ l2) st = apply_opts l1 st ≫= apply_opts l2.
Proof.
  revert st. induction l1 as [|opt l1 IH]; intros st; [done|].
  simpl. destruct (opt st) as [st'|]; simpl; [apply IH | done].
Qed.

(** Options other than [WithAPIKey] leave the key as it is. *)
Lemma apply_opts_keeps_key (opts : list Opt) (c c' : Config) (h h' : Heap) :
  (∀ k, OptAPIKey k ∉ opts) →
  apply_opts (map option_func opts) (c, h) = Some (c', h') →
  apiKey c' = apiKey c.
Proof.
  revert c h. induction opts as [|o opts IH]; intros c h Hno Hrun.
  - by injection Hrun as <- <-.
  - simpl in Hrun.
    assert (∀ k, OptAPIKey k ∉ opts) as Hno' by (intros k Hk; apply (Hno k); by right).
    destruct o as [k|t|p|u]; simpl in Hrun.
    + exfalso. apply (Hno k). by left.
    + destruct (client c); simpl in Hrun; [|done]. by apply IH in Hrun.
    + by apply IH in Hrun.
    + by apply IH in Hrun.
Qed.

(** Without a nil client among the options no option panics. *)
Lemma apply_opts_total (opts : list Opt) (c : Config) (h : Heap) :
  OptClient None ∉ opts →
  is_Some (client c) →
  is_Some (apply_opts (map option_func opts) (c, h)).
Proof.
  revert c h. induction opts as [|o opts IH]; intros c h Hnil Hcl; [by eexists|].
  assert (OptClient None ∉ opts) as Hnil' by (intros Hin; apply Hnil; by right).
  destruct o as [k|t|p|u]; simpl.
  - by apply IH.
  - destruct Hcl as [l Hl]. rewrite Hl. simpl. apply IH; [done|]. simpl. by rewrite Hl.
  - apply IH; [done|]. simpl. destruct p; [by eexists|].
    exfalso. apply Hnil. by left.
  - by apply IH.
Qed.

(** C5. Construction with options of the package: when no [WithAPIKey] is
    among them, the key of the client is the value of [SUPADATA_API_KEY] in
    the environment, empty when unset; otherwise it is the argument of the
    last [WithAPIKey], whatever options stand before, between and after.
    Construction returns whenever no option passes a nil client. *)
Theorem api_key_resolution (env : os.Environ) (h : Heap) (opts : list Opt) :
  (OptClient None ∉ opts → is_Some (NewSupadata env h (map option_func opts)))
  ∧ ∀ s h', NewSupadata env h (map option_func opts) = Some (s, h') →
      ((∀ k, OptAPIKey k ∉ opts) →
         apiKey (config s) = default EmptyString (env !! "SUPADATA_API_KEY"))
      ∧ (∀ before k after,
           opts = before ++ OptAPIKey k :: after →
           (∀ k', OptAPIKey k' ∉ after) →
           apiKey (config s) = k).
Proof.
  unfold NewSupadata. split.
  - intros Hnil.
    destruct (apply_opts_total opts
                {| apiKey := os.Getenv env "SUPADATA_API_KEY"; baseURL := BaseUrl;
                   client := Some (fresh (dom h)) |}
                (<[fresh (dom h) := defaultClient]> h) Hnil) as [[c' h'] Hrun];
      [by eexists|].
    rewrite Hrun. by eexists.
  - intros s h' Hnew.
    destruct (apply_opts _ _) as [[c' h'']|] eqn:Hrun; [|done].
    injection Hnew as <- <-. simpl. split.
    + intros Hno. by rewrite (apply_opts_keeps_key _ _ _ _ _ Hno Hrun).
    + intros before k after -> Hno.
      rewrite map_app, apply_opts_app in Hrun.
      destruct (apply_opts (map option_func before) _) as [[c1 h1]|]; [|done].
      simpl in Hrun. by rewrite (apply_opts_keeps_key _ _ _ _ _ Hno Hrun).
Qed.

Lemma api_key_resolution_witness :
  ∃ s h', NewSupadata {[ "SUPADATA_API_KEY" := "env-api-key" ]} ∅
            (map option_func [OptAPIKey "first"; OptTimeout (45 * Second);
                              OptAPIKey "multi-key"; OptBaseURL "https://multi.api.com"])
          = Some (s, h')
          ∧ apiKey (config s) = "multi-key".
Proof.
  destruct (api_key_resolution {[ "SUPADATA_API_KEY" := "env-api-key" ]} ∅
              [OptAPIKey "first"; OptTimeout (45 * Second);
               OptAPIKey "multi-key"; OptBaseURL "https://multi.api.com"])
    as [Hsome Hkey].
  destruct Hsome as [[s h'] Hnew].
  - intros Hin. repeat (apply elem_of_cons in Hin as [Hin|Hin]; [discriminate|]).
    by apply elem_of_nil in Hin.
  - exists s, h'. split; [exact Hnew|].
    apply (proj2 (Hkey s h' Hnew) [OptAPIKey "first"; OptTimeout (45 * Second)] "multi-key"
             [OptBaseURL "https://multi.api.com"]); [reflexivity|].
    intros k' Hin. apply elem_of_cons in Hin as [Hin|Hin]; [discriminate|].
    by apply elem_of_nil in Hin.
Defined.

(** C9. Each option changes one thing and nothing else. [WithAPIKey] sets
    the key; base URL, client pointer and the store of clients stay as they
    are. [WithBaseURL] sets the base URL only. [WithClient] replaces the
    client pointer only; no client in the store is touched. [WithTimeout]
    leaves the three fields of the configuration as they are and, in the
    client the configuration points to, sets [Timeout] and no other field;
    every other client in the store stays as it is. On a nil client
    [WithTimeout] panics. *)
Theorem options_change_one_field (c : Config) (h : Heap) :
  (∀ k, ∃ c', WithAPIKey k (c, h) = Some (c', h)
              ∧ apiKey c' = k ∧ baseURL c' = baseURL c ∧ client c' = client c)
  ∧ (∀ u, ∃ c', WithBaseURL u (c, h) = Some (c', h)
                ∧ apiKey c' = apiKey c ∧ baseURL c' = u ∧ client c' = client c)
  ∧ (∀ p, ∃ c', WithClient p (c, h) = Some (c', h)
                ∧ apiKey c' = apiKey c ∧ baseURL c' = baseURL c ∧ client c' = p)
  ∧ (∀ t l cl, client c = Some l → h !! l = Some cl →
       ∃ h' cl', WithTimeout t (c, h) = Some (c, h')
                 ∧ h' !! l = Some cl'
                 ∧ http.Timeout cl' = t
                 ∧ http.Transport cl' = http.Transport cl
                 ∧ http.CheckRedirect cl' = http.CheckRedirect cl
                 ∧ http.Jar cl' = http.Jar cl
                 ∧ ∀ l', l' ≠ l → h' !! l' = h !! l')
  ∧ (∀ t, client c = None → WithTimeout t (c, h) = None).
Proof.
  split; [|split; [|split; [|split]]].
  - intros k. eexists. by split.
  - intros u. eexists. by split.
  - intros p. eexists. by split.
  - intros t l cl Hl Hcl. unfold WithTimeout. rewrite Hl.
    exists (alter (http.with_Timeout t) l h), (http.with_Timeout t cl).
    split; [done|]. split; [by rewrite lookup_alter_eq, Hcl|].
    repeat split. intros l' Hne. by rewrite lookup_alter_ne.
  - intros t Hnil. unfold WithTimeout. by rewrite Hnil.
Qed.

Lemma options_change_one_field_witness :
  ∃ h' cl', WithTimeout (30 * Second) (config test_client, test_store)
            = Some (config test_client, h')
            ∧ h' !! 0 = Some cl'
            ∧ http.Timeout cl' = (30 * Second)%Z
            ∧ http.Transport cl' = http.DefaultTransport.
Proof.
  destruct (options_change_one_field (config test_client) test_store)
    as (_ & _ & _ & Htimeout & _).
  destruct (Htimeout (30 * Second)%Z 0 defaultClient eq_refl eq_refl)
    as (h' & cl' & Hrun & Hcl & Ht & Htr & _).
  exists h', cl'. repeat split; assumption.
Defined.

(** ** Every way a call ends *)

Lemma response_of_success (T : Type) `{json.Unmarshaler T} (c : Call) (resp : http.Response)
    (v : ResultOf T c) :
  response_of T c resp = Ok v →
  http.ReadError resp = None
  ∧ (http.StatusCode resp < 400)%Z
  ∧ is_Some (json.parse (http.ResponseBody resp)).
Proof.
  intros Hok.
  assert (∃ body, handleRawResponse resp = Ok body) as [body Hraw].
  { destruct (handleRawResponse resp) as [body|e] eqn:Hraw; [by exists body|].
    by rewrite (response_of_error T c resp e Hraw) in Hok. }
  assert (http.ReadError resp = None ∧ (http.StatusCode resp < 400)%Z) as [Hread Hst].
  { unfold handleRawResponse in Hraw.
    destruct (http.ReadError resp); [discriminate|].
    destruct (400 <=? http.StatusCode resp)%Z eqn:Hle.
    - by destruct (json.Unmarshal ErrorResponse.t (http.ResponseBody resp)) as [? [?|]].
    - split; [done|]. by apply Z.leb_gt. }
  split; [done|]. split; [done|].
  destruct (json.parse (http.ResponseBody resp)) as [x|] eqn:Hparse; [by exists x|].
  exfalso.
  destruct c; simpl in Hok; unfold Transcript_response, handleResponse in Hok;
    rewrite (handleRawResponse_success resp Hread Hst) in Hok; simpl in Hok;
    by rewrite (Unmarshal_syntax_error _ _ Hparse) in Hok.
Qed.

(** X1. A completed exchange with a status below 400 whose body is not JSON
    makes every method return the syntax error of [json.Unmarshal]: no
    result, no [*ErrorResponse], and not the status text of the failure
    path. *)
Theorem success_body_not_json (wellformed : string -> bool)
    (Do : http.Client -> http.Request -> string + http.Response)
    (T : Type) `{json.Unmarshaler T} (h : Heap) (s : Supadata) (c : Call)
    (req : http.Request) (cl : http.Client) (resp : http.Response) :
  request_of wellformed s c = Ok req →
  client (config s) ≫= (h !!.) = Some cl →
  Do cl req = inr resp →
  http.ReadError resp = None →
  (http.StatusCode resp < 400)%Z →
  json.parse (http.ResponseBody resp) = None →
  call wellformed Do T h s c = Done (Err (JSONError json.SyntaxError)).
Proof.
  intros Hreq Hcl Hdo Hread Hst Hparse.
  rewrite call_exchange, Hreq, (exchange_completed _ _ _ _ cl resp) by done.
  destruct c; simpl; unfold Transcript_response, handleResponse;
    rewrite (handleRawResponse_success resp Hread Hst); simpl;
    by rewrite (Unmarshal_syntax_error _ _ Hparse).
Qed.

Lemma success_body_not_json_witness :
  call any_url (answers (response 200 "not valid json")) AsyncTranscript.t
       test_store test_client (CallTranscript test_params)
  = Done (Err (JSONError json.SyntaxError)).
Proof.
  eapply (success_body_not_json any_url (answers (response 200 "not valid json"))
            AsyncTranscript.t test_store test_client (CallTranscript test_params)
            _ defaultClient (response 200 "not valid json")).
  - vm_compute. reflexivity.
  - reflexivity.
  - reflexivity.
  - reflexivity.
  - reflexivity.
  - vm_compute. reflexivity.
Defined.

(** X2. When reading the body fails, every method returns the error of the
    read, whatever the status code and whatever bytes had arrived: a failed
    read of a 200 is not a success and a failed read of a 404 is not an
    [*ErrorResponse]. *)
Theorem body_read_failure (wellformed : string -> bool)
    (Do : http.Client -> http.Request -> string + http.Response)
    (T : Type) `{json.Unmarshaler T} (h : Heap) (s : Supadata) (c : Call)
    (req : http.Request) (cl : http.Client) (resp : http.Response) (msg : string) :
  request_of wellformed s c = Ok req →
  client (config s) ≫= (h !!.) = Some cl →
  Do cl req = inr resp →
  http.ReadError resp = Some msg →
  call wellformed Do T h s c = Done (Err (BodyError msg))
  ∧ Error (BodyError msg) = Some msg.
Proof.
  intros Hreq Hcl Hdo Hread. split; [|reflexivity].
  apply (call_error _ _ _ _ _ _ req cl resp); try done.
  unfold handleRawResponse. by rewrite Hread.
Qed.

Lemma body_read_failure_witness :
  call any_url
       (answers {| http.StatusCode := 404;
                   http.ResponseBody := error_body NotFound "gone" EmptyString;
                   http.ReadError := Some "unexpected EOF" |})
       AsyncTranscript.t test_store test_client (CallYouTubeVideo "dQw4w9WgXcQ")
  = Done (Err (BodyError "unexpected EOF"))
  ∧ Error (BodyError "unexpected EOF") = Some "unexpected EOF".
Proof.
  eapply (body_read_failure any_url _ AsyncTranscript.t test_store test_client
            (CallYouTubeVideo "dQw4w9WgXcQ") _ defaultClient).
  - vm_compute. reflexivity.
  - reflexivity.
  - reflexivity.
  - reflexivity.
Defined.


(** X4. A call returns a result only from a completed exchange whose body
    was read in full, whose status is below 400 and whose body is JSON; and
    the result is what the resolver of the method makes of that response. *)
Theorem success_requires (wellformed : string -> bool)
    (Do : http.Client -> http.Request -> string + http.Response)
    (T : Type) `{json.Unmarshaler T} (h : Heap) (s : Supadata) (c : Call)
    (v : ResultOf T c) :
  call wellformed Do T h s c = Done (Ok v) →
  ∃ req cl resp,
    request_of wellformed s c = Ok req
    ∧ client (config s) ≫= (h !!.) = Some cl
    ∧ Do cl req = inr resp
    ∧ http.ReadError resp = None
    ∧ (http.StatusCode resp < 400)%Z
    ∧ is_Some (json.parse (http.ResponseBody resp))
    ∧ response_of T c resp = Ok v.
Proof.
  rewrite call_exchange. unfold exchange. intros Hcall.
  destruct (request_of wellformed s c) as [req|e]; [|discriminate].
  destruct (client (config s) ≫= (h !!.)) as [cl|]; [|discriminate].
  destruct (Do cl req) as [msg|resp] eqn:Hdo; [discriminate|].
  assert (response_of T c resp = Ok v) as Hok by congruence.
  destruct (response_of_success T c resp v Hok) as (Hread & Hst & Hparse).
  exists req, cl, resp. by repeat split.
Qed.

Lemma success_requires_witness :
  ∃ req cl resp,
    request_of any_url test_client (CallTranscriptResult "job-abc-123") = Ok req
    ∧ client (config test_client) ≫= (test_store !!.) = Some cl
    ∧ answers (response 200 (rewrite_quotes "{'jobId':'job-abc-123'}")) cl req = inr resp
    ∧ http.ReadError resp = None
    ∧ (http.StatusCode resp < 400)%Z
    ∧ is_Some (json.parse (http.ResponseBody resp))
    ∧ response_of AsyncTranscript.t (CallTranscriptResult "job-abc-123") resp
      = Ok (AsyncTranscript.mk "job-abc-123").
Proof.
  apply (success_requires any_url
           (answers (response 200 (rewrite_quotes "{'jobId':'job-abc-123'}")))
           AsyncTranscript.t test_store test_client (CallTranscriptResult "job-abc-123")
           (AsyncTranscript.mk "job-abc-123")).
  vm_compute. reflexivity.
Defined.

(** X5. The text of a typed error. When a failed exchange (status 400 or
    above) carries a JSON object that decodes, the text of the error every
    method returns is the [error] string, a colon and a space, and the
    [message] string of the body; a member the body lacks contributes the
    empty string, so a body without [message] reads [<identifier>: ]. *)
Theorem api_error_text (wellformed : string -> bool)
    (Do : http.Client -> http.Request -> string + http.Response)
    (T : Type) `{json.Unmarshaler T} (h : Heap) (s : Supadata) (c : Call)
    (req : http.Request) (cl : http.Client) (resp : http.Response)
    (members : list (string * json.Value)) (e : ErrorResponse.t) (id : ErrorIdentifier) :
  request_of wellformed s c = Ok req →
  client (config s) ≫= (h !!.) = Some cl →
  Do cl req = inr resp →
  http.ReadError resp = None →
  (400 ≤ http.StatusCode resp)%Z →
  json.parse (http.ResponseBody resp) = Some (json.Object members) →
  json.Unmarshal ErrorResponse.t (http.ResponseBody resp) = (e, None) →
  field_member ErrorResponse.fields 0 members = Some (json.Str id) →
  call wellformed Do T h s c = Done (Err (APIError e))
  ∧ (∀ message, field_member ErrorResponse.fields 1 members = Some (json.Str message) →
       Error (APIError e) = Some (id +:+ ": " +:+ message))
  ∧ (field_member ErrorResponse.fields 1 members = None →
       Error (APIError e) = Some (id +:+ ": ")).
Proof.
  intros Hreq Hcl Hdo Hread Hst Hparse Hdec Hid.
  assert (ErrorResponse.ErrorIdentifier e = id) as Hid'.
  { pose proof (Unmarshal_ErrorResponse_object _ _ Hparse) as Hfold.
    rewrite Hdec in Hfold.
    pose proof (fold_store_member_string 0 id members (json.zero, None)) as Hget.
    rewrite <- Hfold in Hget. apply Hget; [lia | done]. }
  split; [|split].
  - apply (call_error _ _ _ _ _ _ req cl resp); try done.
    rewrite handleRawResponse_failure by done. by rewrite Hdec.
  - intros message Hmsg. simpl. unfold ErrorResponse.Error. rewrite Hid'.
    pose proof (Unmarshal_ErrorResponse_object _ _ Hparse) as Hfold.
    rewrite Hdec in Hfold.
    pose proof (fold_store_member_string 1 message members (json.zero, None)) as Hget.
    rewrite <- Hfold in Hget. simpl in Hget. by rewrite Hget by (lia || done).
  - intros Hnone. simpl. unfold ErrorResponse.Error. rewrite Hid'.
    pose proof (Unmarshal_ErrorResponse_object _ _ Hparse) as Hfold.
    rewrite Hdec in Hfold.
    pose proof (fold_store_member_absent 1 members (json.zero, None)) as Hget.
    rewrite <- Hfold in Hget. simpl in Hget. by rewrite Hget by (lia || done).
Qed.

Lemma api_error_text_witness :
  call any_url
       (answers (response 401 (error_body Unauthorized "Invalid API key" EmptyString)))
       AsyncTranscript.t test_store test_client CallMe
  = Done (Err (APIError (ErrorResponse.mk Unauthorized "Invalid API key" EmptyString
                           EmptyString)))
  ∧ Error (APIError (ErrorResponse.mk Unauthorized "Invalid API key" EmptyString EmptyString))
    = Some "unauthorized: Invalid API key".
Proof.
  edestruct (api_error_text any_url
               (answers (response 401 (error_body Unauthorized "Invalid API key" EmptyString)))
               AsyncTranscript.t test_store test_client CallMe)
    as (Hcall & Htext & _).
  - vm_compute. reflexivity.
  - reflexivity.
  - reflexivity.
  - reflexivity.
  - vm_compute. discriminate.
  - vm_compute. reflexivity.
  - vm_compute. reflexivity.
  - vm_compute. reflexivity.
  - split; [exact Hcall|]. apply (Htext "Invalid API key"). vm_compute. reflexivity.
Defined.

(** X6. A transcript body that is JSON but no object, read below the error
    statuses. The body [null] is taken for a synchronous transcript: the
    call returns the [Sync] variant with no content, no language and no
    available languages. Every other value (array, string, number,
    boolean) fails in the probe for [jobId] and the call returns the type
    error of that decode. *)
Theorem transcript_body_no_object (wellformed : string -> bool)
    (Do : http.Client -> http.Request -> string + http.Response)
    (h : Heap) (s : Supadata) (params : TranscriptParams.t)
    (req : http.Request) (cl : http.Client) (resp : http.Response) (v : json.Value) :
  Transcript_request wellformed s params = Ok req →
  client (config s) ≫= (h !!.) = Some cl →
  Do cl req = inr resp →
  http.ReadError resp = None →
  (http.StatusCode resp < 400)%Z →
  json.parse (http.ResponseBody resp) = Some v →
  (∀ members, v ≠ json.Object members) →
  Transcript wellformed Do h s params
  = Done (match v with
          | json.Null =>
              Ok {| Transcript.Sync := Some (SyncTranscript.mk [] EmptyString []);
                    Transcript.Async := None |}
          | _ => Err (JSONError (json.UnmarshalTypeError (json.kind v)
                                   "map[string]json.RawMessage"))
          end).
Proof.
  intros Hreq Hcl Hdo Hread Hst Hparse Hobj.
  unfold Transcript. rewrite Hreq, (exchange_completed _ _ _ _ cl resp) by done.
  unfold Transcript_response. rewrite handleRawResponse_success by done.
  change (Ok (http.ResponseBody resp) ≫= ?f) with (f (http.ResponseBody resp)).
  cbv beta. unfold json.Unmarshal. rewrite Hparse.
  destruct v; try reflexivity. by destruct (Hobj members).
Qed.

Lemma transcript_body_no_object_witness :
  Transcript any_url (answers (response 200 "null")) test_store test_client test_params
  = Done (Ok {| Transcript.Sync := Some (SyncTranscript.mk [] EmptyString []);
                Transcript.Async := None |}).
Proof.
  eapply (transcript_body_no_object any_url (answers (response 200 "null"))
            test_store test_client test_params _ defaultClient (response 200 "null")
            json.Null).
  - vm_compute. reflexivity.
  - reflexivity.
  - reflexivity.
  - reflexivity.
  - reflexivity.
  - vm_compute. reflexivity.
  - discriminate.
Defined.

(** ** The query of each method *)

Lemma lookup_Values_Set_eq (key value : string) (q : url.Values) :
  url.Values_Set key value q !! key = Some [value].
Proof. apply lookup_insert_eq. Qed.

Lemma lookup_Values_Set_ne (key value k : string) (q : url.Values) :
  key ≠ k → url.Values_Set key value q !! k = q !! k.
Proof. apply lookup_insert_ne. Qed.

Lemma lookup_set_if_eq (cond : bool) (key value : string) (q : url.Values) :
  set_if cond key value q !! key = if cond then Some [value] else q !! key.
Proof. unfold set_if. destruct cond; [apply lookup_insert_eq | done]. Qed.

Lemma lookup_fold_Add_ne (key k : string) (fs : list string) (q : url.Values) :
  key ≠ k → fold_left (fun q f => url.Values_Add key f q) fs q !! k = q !! k.
Proof.
  intros Hne. revert q. induction fs as [|f fs IH]; intros q; [done|].
  cbn [fold_left]. rewrite IH. unfold url.Values_Add. by rewrite lookup_insert_ne.
Qed.

(** What the server parses is what the method put in the query. *)
Lemma sent_query_set_query (q : url.Values) (req : http.Request) (k : string) :
  sent_query (set_query q req) !! k
  = match q !! k with
    | Some (x :: xs) => Some (x :: xs)
    | _ => None
    end.
Proof. unfold sent_query. rewrite RawQuery_set_query. apply ParseQuery_Encode. Qed.

Lemma Values_Get_sent_query (k x : string) (xs : list string) (req : http.Request) :
  sent_query req !! k = Some (x :: xs) → url.Values_Get k (sent_query req) = x.
Proof. intros Hk. unfold url.Values_Get. by rewrite Hk. Qed.

(** Under a base URL without [?] the query of a method starts empty. *)
Lemma URL_Query_prepareRequest (wellformed : string -> bool) (s : Supadata)
    (method endpoint : string) (body : option json.Value) (req : http.Request) :
  contains "?" (baseURL (config s)) = false →
  contains "?" endpoint = false →
  prepareRequest wellformed s method endpoint body = Ok req →
  url.URL_Query (http.URL req) = ∅.
Proof.
  intros Hbase Hend Hprep. unfold url.URL_Query.
  rewrite (prepareRequest_no_query wellformed s method endpoint body req); [done| |done].
  by rewrite contains_append, Hbase, Hend.
Qed.

Ltac built Hreq req0 Hprep :=
  apply bind_Ok_inv in Hreq as (req0 & Hprep & Hreq); injection Hreq as <-.

Ltac lookups :=
  repeat first
    [ rewrite sent_query_set_query
    | rewrite lookup_set_if_eq
    | rewrite lookup_set_if_ne by done
    | rewrite lookup_Values_Set_eq
    | rewrite lookup_Values_Set_ne by done
    | rewrite lookup_fold_Add_ne by done ].

(** X7. The parameter a method always sends arrives as given. For every
    method with such a parameter ([url], [query], [id], or [lang] of a
    translation) and every value, a string of any bytes, the query parsed
    back holds under that key the single value given, whatever the base URL
    brought under that key; the query string holds the escaped entry. *)
Theorem required_parameter_round_trip (wellformed : string -> bool) (s : Supadata)
    (c : Call) (req : http.Request) (k x : string) :
  request_of wellformed s c = Ok req →
  required_parameter c = Some (k, x) →
  sent_query req !! k = Some [x]
  ∧ url.Values_Get k (sent_query req) = x
  ∧ (url.QueryEscape k +:+ "=" +:+ url.QueryEscape x) ∈ split "&" (url.RawQuery (http.URL req))
  ∧ (url.ParseQuery (url.RawQuery (http.URL req))).2 = false.
Proof.
  intros Hreq Hk.
  assert (∃ q req0, req = set_query q req0 ∧ q !! k = Some [x]) as (q & req0 & -> & Hq).
  { destruct c; simpl in Hreq, Hk; try discriminate; injection Hk as <- <-.
    - unfold Transcript_request in Hreq. built Hreq req0 Hprep.
      eexists _, req0. split; [reflexivity|].
      destruct (nonempty (TranscriptParams.Mode params)); by lookups.
    - unfold Metadata_request in Hreq. built Hreq req0 Hprep.
      eexists _, req0. split; [reflexivity|]. by lookups.
    - unfold Scrape_request in Hreq. built Hreq req0 Hprep.
      eexists _, req0. split; [reflexivity|]. by lookups.
    - unfold Map_request in Hreq. built Hreq req0 Hprep.
      eexists _, req0. split; [reflexivity|]. by lookups.
    - unfold YouTubeSearch_request in Hreq. built Hreq req0 Hprep.
      eexists _, req0. split; [reflexivity|].
      destruct (bool_decide _); by lookups.
    - unfold YouTubeVideo_request in Hreq. built Hreq req0 Hprep.
      eexists _, req0. split; [reflexivity|]. by lookups.
    - unfold YouTubeTranscriptTranslate_request in Hreq. built Hreq req0 Hprep.
      eexists _, req0. split; [reflexivity|]. by lookups.
    - unfold YouTubeChannel_request in Hreq. built Hreq req0 Hprep.
      eexists _, req0. split; [reflexivity|]. by lookups.
    - unfold YouTubePlaylist_request in Hreq. built Hreq req0 Hprep.
      eexists _, req0. split; [reflexivity|]. by lookups.
    - unfold YouTubeChannelVideos_request in Hreq. built Hreq req0 Hprep.
      eexists _, req0. split; [reflexivity|]. by lookups.
    - unfold YouTubePlaylistVideos_request in Hreq. built Hreq req0 Hprep.
      eexists _, req0. split; [reflexivity|]. by lookups. }
  assert (sent_query (set_query q req0) !! k = Some [x]) as Hback
    by (by rewrite sent_query_set_query, Hq).
  split; [exact Hback|]. split; [by apply (Values_Get_sent_query k x [])|]. split.
  - rewrite RawQuery_set_query. apply (entry_in_Encode q k x [x] Hq). by left.
  - rewrite RawQuery_set_query. apply ParseQuery_Encode.
Qed.

Lemma required_parameter_round_trip_witness :
  ∃ req, request_of any_url test_client (CallMetadata "https://a.b/c?d=e&f= g%") = Ok req
         ∧ url.RawQuery (http.URL req) = "url=https%3A%2F%2Fa.b%2Fc%3Fd%3De%26f%3D+g%25"
         ∧ sent_query req !! "url" = Some ["https://a.b/c?d=e&f= g%"].
Proof.
  destruct (request_of any_url test_client (CallMetadata "https://a.b/c?d=e&f= g%"))
    as [req|e] eqn:Hreq; [|vm_compute in Hreq; discriminate].
  exists req. split; [reflexivity|]. split.
  - vm_compute in Hreq. injection Hreq as <-. reflexivity.
  - by edestruct (required_parameter_round_trip any_url test_client
                    (CallMetadata "https://a.b/c?d=e&f= g%") req "url"
                    "https://a.b/c?d=e&f= g%" Hreq eq_refl) as (Hback & _).
Defined.

Ltac other_keys k Hk :=
  repeat match type of Hk with
         | k ∉ _ :: _ =>
             let Hne := fresh "Hne" in
             apply not_elem_of_cons in Hk as [Hne Hk];
             apply not_eq_sym in Hne
         end.

Ltac conditions :=
  repeat match goal with
         | |- context [if ?b then _ else _] => destruct b
         end.

(** X8. What a transcript fetch sends, under a base URL without a query of
    its own. [url] is always sent; [lang] when it is not empty; [text] as
    [true] when set and never as [false]; [chunkSize] when it is positive,
    so neither zero nor a negative size is sent; [mode] always, as given
    when not empty (no check against the three declared modes) and as
    [auto] otherwise. No other key is sent. *)
Theorem transcript_query (wellformed : string -> bool) (s : Supadata)
    (params : TranscriptParams.t) (req : http.Request) :
  contains "?" (baseURL (config s)) = false →
  Transcript_request wellformed s params = Ok req →
  sent_query req !! "url" = Some [TranscriptParams.Url params]
  ∧ sent_query req !! "lang"
    = (if nonempty (TranscriptParams.Lang params)
       then Some [TranscriptParams.Lang params] else None)
  ∧ sent_query req !! "text" = (if TranscriptParams.Text params then Some ["true"] else None)
  ∧ sent_query req !! "chunkSize"
    = (if (0 <? TranscriptParams.ChunkSize params)%Z
       then Some [Sprintf_d (TranscriptParams.ChunkSize params)] else None)
  ∧ sent_query req !! "mode"
    = Some [if nonempty (TranscriptParams.Mode params)
            then TranscriptParams.Mode params else "auto"]
  ∧ ∀ k, k ∉ ["url"; "lang"; "text"; "chunkSize"; "mode"] → sent_query req !! k = None.
Proof.
  intros Hbase Hreq. unfold Transcript_request in Hreq. built Hreq req0 Hprep.
  rewrite (URL_Query_prepareRequest wellformed s "GET" "/transcript" None req0) by done.
  repeat split; try (intros k Hk; other_keys k Hk);
    destruct (nonempty (TranscriptParams.Mode params));
    lookups; rewrite ?lookup_empty; by conditions.
Qed.

Lemma transcript_query_witness :
  ∃ req, Transcript_request any_url test_client
           (TranscriptParams.mk "https://youtu.be/x" EmptyString false (-5) "fastest")
         = Ok req
         ∧ url.RawQuery (http.URL req) = "mode=fastest&url=https%3A%2F%2Fyoutu.be%2Fx"
         ∧ sent_query req !! "chunkSize" = None
         ∧ sent_query req !! "mode" = Some ["fastest"].
Proof.
  destruct (Transcript_request any_url test_client
              (TranscriptParams.mk "https://youtu.be/x" EmptyString false (-5) "fastest"))
    as [req|e] eqn:Hreq; [|vm_compute in Hreq; discriminate].
  exists req. split; [reflexivity|]. split.
  - vm_compute in Hreq. injection Hreq as <-. reflexivity.
  - edestruct (transcript_query any_url test_client _ req eq_refl Hreq)
      as (_ & _ & _ & Hchunk & Hmode & _).
    split; [exact Hchunk | exact Hmode].
Defined.

(** X9. What a YouTube search sends, under a base URL without a query of
    its own. [query] is always sent, an empty one too; each of
    [uploadDate], [type], [duration], [sortBy] and [nextPageToken] when it
    is not empty, as given; [features] when the list is not empty, with the
    flags in their order; [limit] when it is positive. No other key is
    sent. *)
Theorem youtube_search_query (wellformed : string -> bool) (s : Supadata)
    (params : YouTubeSearchParams.t) (req : http.Request) :
  contains "?" (baseURL (config s)) = false →
  YouTubeSearch_request wellformed s params = Ok req →
  sent_query req !! "query" = Some [YouTubeSearchParams.Query params]
  ∧ sent_query req !! "uploadDate"
    = (if nonempty (YouTubeSearchParams.UploadDate params)
       then Some [YouTubeSearchParams.UploadDate params] else None)
  ∧ sent_query req !! "type"
    = (if nonempty (YouTubeSearchParams.Type_ params)
       then Some [YouTubeSearchParams.Type_ params] else None)
  ∧ sent_query req !! "duration"
    = (if nonempty (YouTubeSearchParams.Duration params)
       then Some [YouTubeSearchParams.Duration params] else None)
  ∧ sent_query req !! "sortBy"
    = (if nonempty (YouTubeSearchParams.SortBy params)
       then Some [YouTubeSearchParams.SortBy params] else None)
  ∧ sent_query req !! "features"
    = match YouTubeSearchParams.Features params with
      | [] => None
      | fs => Some fs
      end
  ∧ sent_query req !! "limit"
    = (if (0 <? YouTubeSearchParams.Limit params)%Z
       then Some [Sprintf_d (YouTubeSearchParams.Limit params)] else None)
  ∧ sent_query req !! "nextPageToken"
    = (if nonempty (YouTubeSearchParams.NextPageToken params)
       then Some [YouTubeSearchParams.NextPageToken params] else None)
  ∧ ∀ k, k ∉ ["query"; "uploadDate"; "type"; "duration"; "sortBy"; "features"; "limit";
              "nextPageToken"] →
         sent_query req !! k = None.
Proof.
  intros Hbase Hreq. unfold YouTubeSearch_request in Hreq. built Hreq req0 Hprep.
  rewrite (URL_Query_prepareRequest wellformed s "GET" "/youtube/search" None req0) by done.
  destruct (YouTubeSearchParams.Features params) as [|f fs] eqn:Hfs.
  - rewrite bool_decide_eq_false_2 by (simpl; lia).
    repeat split; try (intros k Hk; other_keys k Hk);
      lookups; rewrite ?lookup_empty; by conditions.
  - rewrite bool_decide_eq_true_2 by (simpl; lia).
    repeat split; try (intros k Hk; other_keys k Hk);
      lookups; rewrite ?(lookup_fold_Add "features" (f :: fs)) by done;
      lookups; rewrite ?lookup_empty; by conditions.
Qed.

Lemma youtube_search_query_witness :
  ∃ req, YouTubeSearch_request any_url test_client test_search = Ok req
         ∧ sent_query req !! "query" = Some ["golang"]
         ∧ sent_query req !! "limit" = None
         ∧ sent_query req !! "features" = Some ["hd"; "live"].
Proof.
  destruct (YouTubeSearch_request any_url test_client test_search) as [req|e] eqn:Hreq;
    [|vm_compute in Hreq; discriminate].
  exists req. split; [reflexivity|].
  edestruct (youtube_search_query any_url test_client test_search req eq_refl Hreq)
    as (Hquery & _ & _ & _ & _ & Hfeatures & Hlimit & _).
  split; [exact Hquery|]. split; [exact Hlimit | exact Hfeatures].
Defined.

(** X10. What the two YouTube transcript fetches send, under a base URL
    without a query of its own. [YouTubeTranscript] sends nothing
    unconditionally: [url], [videoId] and [lang] each when not empty,
    [text] when set, [chunkSize] when positive; with neither [url] nor
    [videoId] given the request still goes out, without either.
    [YouTubeTranscriptTranslate] differs in [lang] alone, which it always
    sends, an empty one too. *)
Theorem youtube_transcript_query (wellformed : string -> bool) (s : Supadata)
    (url' videoId lang : string) (text : bool) (chunkSize : Z) (req : http.Request) :
  contains "?" (baseURL (config s)) = false →
  let sent_by (req : http.Request) :=
    sent_query req !! "url" = (if nonempty url' then Some [url'] else None)
    ∧ sent_query req !! "videoId" = (if nonempty videoId then Some [videoId] else None)
    ∧ sent_query req !! "text" = (if text then Some ["true"] else None)
    ∧ sent_query req !! "chunkSize"
      = (if (0 <? chunkSize)%Z then Some [Sprintf_d chunkSize] else None)
    ∧ ∀ k, k ∉ ["url"; "videoId"; "text"; "chunkSize"; "lang"] → sent_query req !! k = None in
  (YouTubeTranscript_request wellformed s
     (YouTubeTranscriptParams.mk url' videoId text chunkSize lang) = Ok req →
   sent_by req
   ∧ sent_query req !! "lang" = (if nonempty lang then Some [lang] else None))
  ∧ (YouTubeTranscriptTranslate_request wellformed s
       (YouTubeTranscriptTranslateParams.mk url' videoId text chunkSize lang) = Ok req →
     sent_by req ∧ sent_query req !! "lang" = Some [lang]).
Proof.
  intros Hbase sent_by. unfold sent_by. split; intros Hreq.
  - unfold YouTubeTranscript_request in Hreq. built Hreq req0 Hprep.
    rewrite (URL_Query_prepareRequest wellformed s "GET" "/youtube/transcript" None req0)
      by done.
    cbn [YouTubeTranscriptParams.Url YouTubeTranscriptParams.VideoId
         YouTubeTranscriptParams.Text YouTubeTranscriptParams.ChunkSize
         YouTubeTranscriptParams.Lang].
    repeat split; try (intros k Hk; other_keys k Hk);
      lookups; rewrite ?lookup_empty; by conditions.
  - unfold YouTubeTranscriptTranslate_request in Hreq. built Hreq req0 Hprep.
    rewrite (URL_Query_prepareRequest wellformed s "GET" "/youtube/transcript/translate"
               None req0) by done.
    cbn [YouTubeTranscriptTranslateParams.Url YouTubeTranscriptTranslateParams.VideoId
         YouTubeTranscriptTranslateParams.Text YouTubeTranscriptTranslateParams.ChunkSize
         YouTubeTranscriptTranslateParams.Lang].
    repeat split; try (intros k Hk; other_keys k Hk);
      lookups; rewrite ?lookup_empty; by conditions.
Qed.

Lemma youtube_transcript_query_witness :
  ∃ req, YouTubeTranscript_request any_url test_client
           (YouTubeTranscriptParams.mk EmptyString EmptyString false 0 EmptyString) = Ok req
         ∧ url.RawQuery (http.URL req) = EmptyString
         ∧ sent_query req !! "url" = None
         ∧ sent_query req !! "videoId" = None.
Proof.
  destruct (YouTubeTranscript_request any_url test_client
              (YouTubeTranscriptParams.mk EmptyString EmptyString false 0 EmptyString))
    as [req|e] eqn:Hreq; [|vm_compute in Hreq; discriminate].
  exists req. split; [reflexivity|]. split.
  - vm_compute in Hreq. injection Hreq as <-. reflexivity.
  - edestruct (youtube_transcript_query any_url test_client EmptyString EmptyString
                 EmptyString false 0 req eq_refl) as [Hplain _].
    destruct (Hplain Hreq) as ((Hurl & Hid & _) & _).
    split; [exact Hurl | exact Hid].
Defined.

(** X11. What the remaining methods with optional parameters send, under a
    base URL without a query of its own. [Scrape] and [Map] send [url]
    always, [noLinks] as [true] when set and [lang] when not empty, and
    build the same query from the same values; [YouTubeChannelVideos] sends
    [id] always, [limit] when positive and [type] when not empty;
    [YouTubePlaylistVideos] sends [id] always and [limit] when positive.
    None sends another key. *)
Theorem optional_parameters_query (wellformed : string -> bool) (s : Supadata)
    (req : http.Request) :
  contains "?" (baseURL (config s)) = false →
  (∀ url' noLinks lang,
     Scrape_request wellformed s (ScrapeParams.mk url' noLinks lang) = Ok req
     ∨ Map_request wellformed s (MapParams.mk url' noLinks lang) = Ok req →
     sent_query req !! "url" = Some [url']
     ∧ sent_query req !! "noLinks" = (if noLinks : bool then Some ["true"] else None)
     ∧ sent_query req !! "lang" = (if nonempty lang then Some [lang] else None)
     ∧ ∀ k, k ∉ ["url"; "noLinks"; "lang"] → sent_query req !! k = None)
  ∧ (∀ id limit type,
       YouTubeChannelVideos_request wellformed s
         (YouTubeChannelVideosParams.mk id limit type) = Ok req →
       sent_query req !! "id" = Some [id]
       ∧ sent_query req !! "limit" = (if (0 <? limit)%Z then Some [Sprintf_d limit] else None)
       ∧ sent_query req !! "type" = (if nonempty type then Some [type] else None)
       ∧ ∀ k, k ∉ ["id"; "limit"; "type"] → sent_query req !! k = None)
  ∧ (∀ id limit,
       YouTubePlaylistVideos_request wellformed s
         (YouTubePlaylistVideosParams.mk id limit) = Ok req →
       sent_query req !! "id" = Some [id]
       ∧ sent_query req !! "limit" = (if (0 <? limit)%Z then Some [Sprintf_d limit] else None)
       ∧ ∀ k, k ∉ ["id"; "limit"] → sent_query req !! k = None).
Proof.
  intros Hbase. split; [|split].
  - intros url' noLinks lang [Hreq|Hreq].
    + unfold Scrape_request in Hreq. built Hreq req0 Hprep.
      rewrite (URL_Query_prepareRequest wellformed s "GET" "/web/scrape" None req0) by done.
      cbn [ScrapeParams.Url ScrapeParams.NoLinks ScrapeParams.Lang].
      repeat split; try (intros k Hk; other_keys k Hk);
        lookups; rewrite ?lookup_empty; by conditions.
    + unfold Map_request in Hreq. built Hreq req0 Hprep.
      rewrite (URL_Query_prepareRequest wellformed s "GET" "/web/map" None req0) by done.
      cbn [MapParams.Url MapParams.NoLinks MapParams.Lang].
      repeat split; try (intros k Hk; other_keys k Hk);
        lookups; rewrite ?lookup_empty; by conditions.
  - intros id limit type Hreq.
    unfold YouTubeChannelVideos_request in Hreq. built Hreq req0 Hprep.
    rewrite (URL_Query_prepareRequest wellformed s "GET" "/youtube/channel/videos" None req0)
      by done.
    cbn [YouTubeChannelVideosParams.Id YouTubeChannelVideosParams.Limit
         YouTubeChannelVideosParams.Type_].
    repeat split; try (intros k Hk; other_keys k Hk);
      lookups; rewrite ?lookup_empty; by conditions.
  - intros id limit Hreq.
    unfold YouTubePlaylistVideos_request in Hreq. built Hreq req0 Hprep.
    rewrite (URL_Query_prepareRequest wellformed s "GET" "/youtube/playlist/videos" None req0)
      by done.
    cbn [YouTubePlaylistVideosParams.Id YouTubePlaylistVideosParams.Limit].
    repeat split; try (intros k Hk; other_keys k Hk);
      lookups; rewrite ?lookup_empty; by conditions.
Qed.

Lemma optional_parameters_query_witness :
  ∃ req, Scrape_request any_url test_client (ScrapeParams.mk "https://example.com" true "de")
         = Ok req
         ∧ url.RawQuery (http.URL req) = "lang=de&noLinks=true&url=https%3A%2F%2Fexample.com"
         ∧ sent_query req !! "noLinks" = Some ["true"]
         ∧ sent_query req !! "lang" = Some ["de"].
Proof.
  destruct (Scrape_request any_url test_client (ScrapeParams.mk "https://example.com" true "de"))
    as [req|e] eqn:Hreq; [|vm_compute in Hreq; discriminate].
  exists req. split; [reflexivity|]. split.
  - vm_compute in Hreq. injection Hreq as <-. reflexivity.
  - edestruct (optional_parameters_query any_url test_client req eq_refl) as (Hscrape & _).
    destruct (Hscrape "https://example.com" true "de" (or_introl Hreq))
      as (_ & Hlinks & Hlang & _).
    split; [exact Hlinks | exact Hlang].
Defined.

(** ** The shape of a request *)

Lemma prepareRequest_parsed (wellformed : string -> bool) (s : Supadata)
    (method endpoint : string) (body : option json.Value) :
  method = "GET" ∨ method = "POST" →
  prepareRequest wellformed s method endpoint body
  = match url.Parse wellformed (baseURL (config s) +:+ endpoint) with
    | None => Err (RequestError (baseURL (config s) +:+ endpoint))
    | Some u =>
        Ok {| http.Method := method;
              http.URL := u;
              http.Header_of := <["X-Api-Key" := [apiKey (config s)]]>
                                  (<["User-Agent" := ["supadata-go/1.0.0"]]> ∅);
              http.Body := body |}
    end.
Proof.
  intros [-> | ->]; unfold prepareRequest, http.NewRequest; simpl;
    by destruct (url.Parse wellformed _).
Qed.

Lemma Parse_wellformed (wellformed : string -> bool) (rawURL : string) :
  (wellformed rawURL = false → url.Parse wellformed rawURL = None)
  ∧ (wellformed rawURL = true → is_Some (url.Parse wellformed rawURL)).
Proof.
  unfold url.Parse. destruct (wellformed rawURL); split; try done.
  intros _. destruct (cut "#" rawURL) as [[u frag] ?], (cut "?" u) as [[rest query] ?].
  by eexists.
Qed.

Lemma request_of_cases (wellformed : string -> bool) (s : Supadata) (c : Call) :
  match url.Parse wellformed (baseURL (config s) +:+ endpoint_of c) with
  | None =>
      request_of wellformed s c = Err (RequestError (baseURL (config s) +:+ endpoint_of c))
  | Some u =>
      ∃ req,
        request_of wellformed s c = Ok req
        ∧ url.Location (http.URL req) = url.Location u
        ∧ url.Fragment (http.URL req) = url.Fragment u
        ∧ http.Method req = match body_of c with Some _ => "POST" | None => "GET" end
        ∧ http.Body req = body_of c
        ∧ http.Header_of req
          = let defaults := <["X-Api-Key" := [apiKey (config s)]]>
                              (<["User-Agent" := ["supadata-go/1.0.0"]]> ∅) in
            match body_of c with
            | Some _ => <["Content-Type" := ["application/json"]]> defaults
            | None => defaults
            end
  end.
Proof.
  destruct c; simpl;
    unfold Transcript_request, TranscriptResult_request, Metadata_request, Me_request,
      Scrape_request, Map_request, Crawl_request, CrawlResult_request,
      YouTubeSearch_request, YouTubeVideo_request, YouTubeVideoBatch_request,
      YouTubeTranscript_request, YouTubeTranscriptBatch_request,
      YouTubeTranscriptTranslate_request, YouTubeChannel_request,
      YouTubePlaylist_request, YouTubeChannelVideos_request,
      YouTubePlaylistVideos_request, YouTubeBatchResult_request;
    rewrite prepareRequest_parsed by tauto;
    (destruct (url.Parse wellformed _) as [u|]; [|reflexivity]); simpl;
    try (destruct (0 <? skip)%Z);
    eexists; (split; [reflexivity|]); by repeat split.
Qed.

(** X12. The shape of every request. A method builds a request exactly when
    net/url accepts the base URL followed by the path of the method, and
    fails with the error of [http.NewRequest] otherwise. The request is a
    [POST] with the marshalled parameters as its body for [Crawl],
    [YouTubeVideoBatch] and [YouTubeTranscriptBatch], and a [GET] without
    body for the sixteen others. Its headers are [User-Agent] and
    [X-Api-Key], joined by [Content-Type: application/json] on a [POST] and
    by nothing else. Scheme, host, path and fragment are those of the parsed
    text: a method changes the query only. *)
Theorem request_shape (wellformed : string -> bool) (s : Supadata) (c : Call) :
  (wellformed (baseURL (config s) +:+ endpoint_of c) = false →
   request_of wellformed s c = Err (RequestError (baseURL (config s) +:+ endpoint_of c)))
  ∧ (wellformed (baseURL (config s) +:+ endpoint_of c) = true →
     ∃ req u,
       request_of wellformed s c = Ok req
       ∧ url.Parse wellformed (baseURL (config s) +:+ endpoint_of c) = Some u
       ∧ url.Location (http.URL req) = url.Location u
       ∧ url.Fragment (http.URL req) = url.Fragment u
       ∧ http.Method req = match body_of c with Some _ => "POST" | None => "GET" end
       ∧ http.Body req = body_of c
       ∧ http.Header_of req
         = let defaults := <["X-Api-Key" := [apiKey (config s)]]>
                             (<["User-Agent" := ["supadata-go/1.0.0"]]> ∅) in
           match body_of c with
           | Some _ => <["Content-Type" := ["application/json"]]> defaults
           | None => defaults
           end).
Proof.
  pose proof (request_of_cases wellformed s c) as Hcases.
  destruct (Parse_wellformed wellformed (baseURL (config s) +:+ endpoint_of c))
    as [Hbad Hgood].
  split; intros Hwf.
  - by rewrite (Hbad Hwf) in Hcases.
  - destruct (Hgood Hwf) as [u Hu]. rewrite Hu in Hcases.
    destruct Hcases as (req & Hreq & Hrest). by exists req, u.
Qed.

(** X13. A job id goes into the URL text as it is given: it is not escaped
    before the text is parsed. Under a base URL without [?] and [#], a job
    id without them makes the location of the parsed URL (scheme, host and
    path as written) the base URL, the path prefix of the method and the
    job id, with no fragment; and of a job id with a [#] only the part
    before it is in the location, the rest becoming the fragment of the
    URL. *)
Theorem job_id_in_path (wellformed : string -> bool) (s : Supadata) (c : Call)
    (prefix jobId : string) (req : http.Request) :
  contains "?" (baseURL (config s)) = false →
  contains "#" (baseURL (config s)) = false →
  job_path c = Some (prefix, jobId) →
  request_of wellformed s c = Ok req →
  (contains "?" jobId = false → contains "#" jobId = false →
   url.Location (http.URL req) = baseURL (config s) +:+ prefix +:+ jobId
   ∧ url.Fragment (http.URL req) = EmptyString)
  ∧ (∀ sent rest, jobId = sent +:+ "#" +:+ rest →
       contains "?" sent = false → contains "#" sent = false →
       url.Location (http.URL req) = baseURL (config s) +:+ prefix +:+ sent
       ∧ url.Fragment (http.URL req) = rest).
Proof.
  intros Hq Hf Hjob Hreq.
  assert (contains "?" prefix = false ∧ contains "#" prefix = false
          ∧ endpoint_of c = prefix +:+ jobId) as (Hpq & Hpf & Hend).
  { destruct c; simpl in Hjob; try discriminate; by injection Hjob as <- <-. }
  pose proof (request_of_cases wellformed s c) as Hcases.
  destruct (url.Parse wellformed (baseURL (config s) +:+ endpoint_of c)) as [u|] eqn:Hu;
    [|by rewrite Hcases in Hreq].
  destruct Hcases as (req' & Hreq' & Hloc & Hfrag & _).
  assert (req' = req) as -> by congruence. rewrite Hloc, Hfrag. clear Hloc Hfrag Hreq'.
  unfold url.Parse in Hu. destruct (wellformed _); [|discriminate]. rewrite Hend in Hu.
  split.
  - intros Hjq Hjf.
    rewrite (cut_none "#"), (cut_none "?") in Hu
      by (rewrite !contains_append; by rewrite ?Hq, ?Hf, ?Hpq, ?Hpf, ?Hjq, ?Hjf).
    by injection Hu as <-.
  - intros sent rest -> Hsq Hsf.
    replace (baseURL (config s) +:+ prefix +:+ sent +:+ "#" +:+ rest)
      with ((baseURL (config s) +:+ prefix +:+ sent) +:+ String "#" rest) in Hu
      by (by rewrite !append_assoc).
    rewrite (cut_absent "#"), (cut_none "?") in Hu
      by (rewrite !contains_append; by rewrite ?Hq, ?Hf, ?Hpq, ?Hpf, ?Hsq, ?Hsf).
    by injection Hu as <-.
Qed.

Lemma job_id_in_path_witness :
  ∃ req, request_of any_url test_client (CallTranscriptResult "a/b c#d") = Ok req
         ∧ url.Location (http.URL req) = "https://api.supadata.ai/v1/transcript/a/b c"
         ∧ url.Fragment (http.URL req) = "d".
Proof.
  destruct (request_of any_url test_client (CallTranscriptResult "a/b c#d")) as [req|e] eqn:Hreq;
    [|vm_compute in Hreq; discriminate].
  exists req. split; [reflexivity|].
  edestruct (job_id_in_path any_url test_client (CallTranscriptResult "a/b c#d")
               "/transcript/" "a/b c#d" req eq_refl eq_refl eq_refl Hreq) as [_ Hcut].
  exact (Hcut "a/b c" "d" eq_refl eq_refl eq_refl).
Defined.

(** ** More on the configuration *)

(** Without [WithClient] among the options, the client the configuration
    points to stays the same one; its timeout ends as the last
    [WithTimeout] asks, and no other client is written. *)
Lemma apply_opts_timeouts (opts : list Opt) (c : Config) (h : Heap) (l : loc)
    (cl : http.Client) :
  (∀ p, OptClient p ∉ opts) →
  client c = Some l →
  h !! l = Some cl →
  ∃ c' h', apply_opts (map option_func opts) (c, h) = Some (c', h')
           ∧ client c' = Some l
           ∧ h' !! l = Some (http.with_Timeout (last_timeout opts (http.Timeout cl)) cl)
           ∧ ∀ l', l' ≠ l → h' !! l' = h !! l'.
Proof.
  revert c h cl. induction opts as [|o opts IH]; intros c h cl Hno Hl Hcl.
  - exists c, h. repeat split; [done | by destruct cl].
  - assert (∀ p, OptClient p ∉ opts) as Hno' by (intros p Hp; apply (Hno p); by right).
    destruct o as [k|t|p|u]; simpl.
    + apply (IH _ h cl Hno'); done.
    + rewrite Hl. simpl.
      destruct (IH c (alter (http.with_Timeout t) l h) (http.with_Timeout t cl) Hno' Hl)
        as (c' & h' & Hrun & Hl' & Hcl' & Hother); [by rewrite lookup_alter_eq, Hcl|].
      exists c', h'. repeat split; try done.
      intros l' Hne. by rewrite Hother, lookup_alter_ne.
    + exfalso. apply (Hno p). by left.
    + apply (IH _ h cl Hno'); done.
Qed.

(** X14. The default client. Without [WithClient] among the options,
    construction returns, and the client of the result is a new one: an
    address the caller's store does not hold, with the default transport,
    no redirect policy, no cookie jar, and as timeout that of the last
    [WithTimeout], 60 seconds without any. No client of the caller is
    written. *)
Theorem default_client_fresh (env : os.Environ) (h : Heap) (opts : list Opt) :
  (∀ p, OptClient p ∉ opts) →
  ∃ s h' l cl,
    NewSupadata env h (map option_func opts) = Some (s, h')
    ∧ client (config s) = Some l
    ∧ h !! l = None
    ∧ h' !! l = Some cl
    ∧ http.Transport cl = http.DefaultTransport
    ∧ http.CheckRedirect cl = None
    ∧ http.Jar cl = None
    ∧ http.Timeout cl = last_timeout opts (60 * Second)
    ∧ ∀ l', l' ≠ l → h' !! l' = h !! l'.
Proof.
  intros Hno. unfold NewSupadata.
  destruct (apply_opts_timeouts opts
              {| apiKey := os.Getenv env "SUPADATA_API_KEY"; baseURL := BaseUrl;
                 client := Some (fresh (dom h)) |}
              (<[fresh (dom h) := defaultClient]> h) (fresh (dom h)) defaultClient Hno eq_refl)
    as (c' & h' & Hrun & Hl & Hcl & Hother); [apply lookup_insert_eq|].
  rewrite Hrun. eexists {| config := c' |}, h', (fresh (dom h)), _.
  split; [reflexivity|]. split; [exact Hl|]. split; [apply not_elem_of_dom, is_fresh|].
  split; [exact Hcl|]. repeat split.
  intros l' Hne. by rewrite Hother, lookup_insert_ne.
Qed.

Lemma default_client_fresh_witness :
  ∃ s h' l cl,
    NewSupadata ∅ test_store
      (map option_func [OptTimeout (30 * Second); OptAPIKey "test-key"]) = Some (s, h')
    ∧ client (config s) = Some l
    ∧ h' !! l = Some cl
    ∧ http.Timeout cl = (30 * Second)%Z
    ∧ h' !! 0 = Some defaultClient.
Proof.
  destruct (default_client_fresh ∅ test_store [OptTimeout (30 * Second); OptAPIKey "test-key"])
    as (s & h' & l & cl & Hnew & Hl & Hfresh & Hcl & _ & _ & _ & Ht & Hother).
  - intros p Hin. repeat (apply elem_of_cons in Hin as [Hin|Hin]; [discriminate|]).
    by apply elem_of_nil in Hin.
  - exists s, h', l, cl. repeat split; try assumption.
    rewrite Hother; [reflexivity|]. intros <-. discriminate.
Defined.

(** X15. The order of [WithClient] and [WithTimeout]. The timeout is written
    to the client the configuration points to when the option runs. After
    [WithClient] that is the caller's client: it is changed in the caller's
    store, for every holder of the pointer. Before [WithClient] it is the
    default client, which [WithClient] then replaces: the caller's client
    keeps its timeout and the one asked for is in force nowhere. *)
Theorem client_timeout_order (env : os.Environ) (h : Heap) (p : loc) (cl : http.Client)
    (t : Z) :
  h !! p = Some cl →
  (∃ s h', NewSupadata env h [WithClient (Some p); WithTimeout t] = Some (s, h')
           ∧ client (config s) = Some p
           ∧ h' !! p = Some (http.with_Timeout t cl))
  ∧ (∃ s h', NewSupadata env h [WithTimeout t; WithClient (Some p)] = Some (s, h')
             ∧ client (config s) = Some p
             ∧ h' !! p = Some cl).
Proof.
  intros Hp.
  assert (fresh (dom h) ≠ p) as Hne.
  { intros <-. apply (is_fresh (dom h)), elem_of_dom. by eexists. }
  split; unfold NewSupadata; simpl; eexists _, _; (split; [reflexivity|]); split; try done.
  - by rewrite lookup_alter_eq, lookup_insert_ne, Hp.
  - by rewrite lookup_alter_ne, lookup_insert_ne.
Qed.

Lemma client_timeout_order_witness :
  ∃ s h', NewSupadata ∅ test_store [WithClient (Some 0); WithTimeout (5 * Second)]
          = Some (s, h')
          ∧ client (config s) = Some 0
          ∧ h' !! 0 = Some (http.with_Timeout (5 * Second) defaultClient).
Proof.
  by destruct (client_timeout_order ∅ test_store 0 defaultClient (5 * Second) eq_refl)
    as [Hafter _].
Defined.

Lemma apply_opts_keeps_baseURL (opts : list Opt) (c c' : Config) (h h' : Heap) :
  (∀ u, OptBaseURL u ∉ opts) →
  apply_opts (map option_func opts) (c, h) = Some (c', h') →
  baseURL c' = baseURL c.
Proof.
  revert c h. induction opts as [|o opts IH]; intros c h Hno Hrun.
  - by injection Hrun as <- <-.
  - simpl in Hrun.
    assert (∀ u, OptBaseURL u ∉ opts) as Hno' by (intros u Hu; apply (Hno u); by right).
    destruct o as [k|t|p|u]; simpl in Hrun.
    + by apply IH in Hrun.
    + destruct (client c); simpl in Hrun; [|done]. by apply IH in Hrun.
    + by apply IH in Hrun.
    + exfalso. apply (Hno u). by left.
Qed.

Lemma apply_opts_keeps_client (opts : list Opt) (c c' : Config) (h h' : Heap) :
  (∀ p, OptClient p ∉ opts) →
  apply_opts (map option_func opts) (c, h) = Some (c', h') →
  client c' = client c.
Proof.
  revert c h. induction opts as [|o opts IH]; intros c h Hno Hrun.
  - by injection Hrun as <- <-.
  - simpl in Hrun.
    assert (∀ p, OptClient p ∉ opts) as Hno' by (intros p Hp; apply (Hno p); by right).
    destruct o as [k|t|p|u]; simpl in Hrun.
    + by apply IH in Hrun.
    + destruct (client c) eqn:Hc; simpl in Hrun; [|done].
      apply IH in Hrun; [|done]. by rewrite Hrun.
    + exfalso. apply (Hno p). by left.
    + by apply IH in Hrun.
Qed.

(** X16. Base URL and client are resolved like the key: the last option
    that sets the field decides it, whatever options stand before, between
    and after. Without [WithBaseURL] the base URL is the constant
    [BaseUrl], which no variable of the environment changes. *)
Theorem last_option_wins (env : os.Environ) (h : Heap) (opts : list Opt) (s : Supadata)
    (h' : Heap) :
  NewSupadata env h (map option_func opts) = Some (s, h') →
  ((∀ u, OptBaseURL u ∉ opts) → baseURL (config s) = "https://api.supadata.ai/v1")
  ∧ (∀ before u after,
       opts = before ++ OptBaseURL u :: after →
       (∀ u', OptBaseURL u' ∉ after) →
       baseURL (config s) = u)
  ∧ (∀ before p after,
       opts = before ++ OptClient p :: after →
       (∀ p', OptClient p' ∉ after) →
       client (config s) = p).
Proof.
  unfold NewSupadata. intros Hnew.
  destruct (apply_opts _ _) as [[c' h'']|] eqn:Hrun; [|done].
  injection Hnew as <- <-. simpl. split; [|split].
  - intros Hno. rewrite (apply_opts_keeps_baseURL _ _ _ _ _ Hno Hrun). reflexivity.
  - intros before u after -> Hno.
    rewrite map_app, apply_opts_app in Hrun.
    destruct (apply_opts (map option_func before) _) as [[c1 h1]|]; [|done].
    simpl in Hrun. by rewrite (apply_opts_keeps_baseURL _ _ _ _ _ Hno Hrun).
  - intros before p after -> Hno.
    rewrite map_app, apply_opts_app in Hrun.
    destruct (apply_opts (map option_func before) _) as [[c1 h1]|]; [|done].
    simpl in Hrun. by rewrite (apply_opts_keeps_client _ _ _ _ _ Hno Hrun).
Qed.

Lemma last_option_wins_witness :
  ∃ s h', NewSupadata {[ "SUPADATA_API_KEY" := "env-api-key" ]} test_store
            (map option_func [OptBaseURL "https://first.api.com"; OptClient (Some 0);
                              OptBaseURL "https://multi.api.com"; OptAPIKey "multi-key"])
          = Some (s, h')
          ∧ baseURL (config s) = "https://multi.api.com"
          ∧ client (config s) = Some 0.
Proof.
  destruct (NewSupadata {[ "SUPADATA_API_KEY" := "env-api-key" ]} test_store
              (map option_func [OptBaseURL "https://first.api.com"; OptClient (Some 0);
                                OptBaseURL "https://multi.api.com"; OptAPIKey "multi-key"]))
    as [[s h']|] eqn:Hnew; [|vm_compute in Hnew; discriminate].
  exists s, h'. split; [reflexivity|].
  destruct (last_option_wins _ _ _ s h' Hnew) as (_ & Hurl & Hclient). split.
  - apply (Hurl [OptBaseURL "https://first.api.com"; OptClient (Some 0)]
             "https://multi.api.com" [OptAPIKey "multi-key"]); [reflexivity|].
    intros u' Hin. apply elem_of_cons in Hin as [Hin|Hin]; [discriminate|].
    by apply elem_of_nil in Hin.
  - apply (Hclient [OptBaseURL "https://first.api.com"] (Some 0)
             [OptBaseURL "https://multi.api.com"; OptAPIKey "multi-key"]); [reflexivity|].
    intros p' Hin. repeat (apply elem_of_cons in Hin as [Hin|Hin]; [discriminate|]).
    by apply elem_of_nil in Hin.
Defined.

Lemma timeout_before_client_cons (o : Opt) (opts : list Opt) :
  timeout_before_client (o :: opts)
  ↔ (∃ t, o = OptTimeout t) ∨ ((∀ p, o ≠ OptClient p) ∧ timeout_before_client opts).
Proof.
  unfold timeout_before_client. split.
  - intros (mid & t & after & Heq & Hno). destruct mid as [|m mid].
    + left. exists t. by injection Heq.
    + right. injection Heq as -> ->. split.
      * intros p ->. apply (Hno p). by left.
      * exists mid, t, after. split; [done|]. intros p Hp. apply (Hno p). by right.
  - intros [[t ->] | [Hne (mid & t & after & -> & Hno)]].
    + exists [], t, opts. split; [done|]. intros p Hp. by apply elem_of_nil in Hp.
    + exists (o :: mid), t, after. split; [done|].
      intros p Hp. apply elem_of_cons in Hp as [Hp|Hp]; [by apply (Hne p) | by apply (Hno p)].
Qed.

Lemma after_nil_client_cons (o : Opt) (opts : list Opt) :
  (∃ before after, o :: opts = before ++ OptClient None :: after ∧ timeout_before_client after)
  ↔ (o = OptClient None ∧ timeout_before_client opts)
    ∨ (∃ before after, opts = before ++ OptClient None :: after ∧ timeout_before_client after).
Proof.
  split.
  - intros (before & after & Heq & Ht). destruct before as [|b before].
    + left. by injection Heq as -> ->.
    + right. injection Heq as -> ->. by exists before, after.
  - intros [[-> Ht] | (before & after & -> & Ht)].
    + by exists [], opts.
    + by exists (o :: before), after.
Qed.

(** Where a run of options panics: at a [WithTimeout] that finds the client
    nil, which is the client the run started with or one a [WithClient] of
    nil has set. *)
Lemma apply_opts_panics (opts : list Opt) (c : Config) (h : Heap) :
  apply_opts (map option_func opts) (c, h) = None
  ↔ (client c = None ∧ timeout_before_client opts)
    ∨ (∃ before after, opts = before ++ OptClient None :: after ∧ timeout_before_client after).
Proof.
  revert c h. induction opts as [|o opts IH]; intros c h.
  - split; [done|].
    intros [[_ (mid & t & after & Heq & _)] | (before & after & Heq & _)].
    + by destruct mid.
    + by destruct before.
  - rewrite timeout_before_client_cons, after_nil_client_cons.
    destruct o as [k|t|p|u]; simpl.
    + rewrite IH. simpl. split.
      * intros [[Hc Ht] | Hafter]; [left | by right; right].
        split; [done|]. right. by split.
      * intros [[Hc [[t [=]] | [_ Ht]]] | [[[=] _] | Hafter]]; [by left | by right].
    + destruct (client c) as [l|] eqn:Hl; simpl.
      * rewrite IH, Hl. split.
        -- intros [[[=] _] | Hafter]. by right; right.
        -- intros [[[=] _] | [[[=] _] | Hafter]]. by right.
      * split; [|done]. intros _. left. split; [done|]. left. by exists t.
    + rewrite IH. simpl. split.
      * intros [[-> Ht] | Hafter]; [by right; left | by right; right].
      * intros [[_ [[t [=]] | [Hne _]]] | [[[= ->] Ht] | Hafter]];
          [by destruct (Hne p) | by left | by right].
    + rewrite IH. simpl. split.
      * intros [[Hc Ht] | Hafter]; [left | by right; right].
        split; [done|]. right. by split.
      * intros [[Hc [[t [=]] | [_ Ht]]] | [[[=] _] | Hafter]]; [by left | by right].
Qed.

(** X17. When construction panics. [NewSupadata] with options of the package
    panics exactly when a [WithClient] of a nil client is followed, with no
    [WithClient] in between, by a [WithTimeout]: the timeout is then
    written through the nil pointer. In every other case it returns; a nil
    client that no [WithTimeout] follows is stored as the client of the
    result. *)
Theorem construction_panics_iff (env : os.Environ) (h : Heap) (opts : list Opt) :
  NewSupadata env h (map option_func opts) = None
  ↔ ∃ before mid t after,
      opts = before ++ OptClient None :: mid ++ OptTimeout t :: after
      ∧ ∀ p, OptClient p ∉ mid.
Proof.
  unfold NewSupadata.
  destruct (apply_opts (map option_func opts) _) as [[c' h']|] eqn:Hrun.
  - split; [done|]. intros (before & mid & t & after & -> & Hno).
    assert (apply_opts
              (map option_func (before ++ OptClient None :: mid ++ OptTimeout t :: after))
              ({| apiKey := os.Getenv env "SUPADATA_API_KEY"; baseURL := BaseUrl;
                  client := Some (fresh (dom h)) |}, <[fresh (dom h) := defaultClient]> h)
            = None) as Hnone; [|by rewrite Hnone in Hrun].
    apply apply_opts_panics. right. exists before, (mid ++ OptTimeout t :: after).
    split; [done|]. by exists mid, t, after.
  - split; [|done]. intros _.
    apply apply_opts_panics in Hrun as [[[=] _] | (before & rest & -> & mid & t & after & -> & Hno)].
    by exists before, mid, t, after.
Qed.

(** ** Decoding the payload structs *)

Section Fields.

(** One field of a struct among the others: [get] reads the field at
    position [i], into which [set] stores as the decoder of its type does,
    and which [set] leaves alone at every other position. *)
Context {T A : Type} `{json.Unmarshaler A}.
Variable names : list string.
Variable set : nat -> json.Value -> T -> T * option json.Error.
Variable i : nat.
Variable get : T -> A.
Hypothesis set_same : ∀ v t, get (set i v t).1 = (json.store v (get t)).1.
Hypothesis set_other : ∀ j v t, j < length names → j ≠ i → get (set j v t).1 = get t.

Lemma store_member_field (acc : T * option json.Error) (member : string * json.Value) :
  get (json.store_member names set acc member).1
  = if decide (json.find_field names member.1 = Some i)
    then (json.store member.2 (get acc.1)).1 else get acc.1.
Proof.
  unfold json.store_member.
  destruct (json.find_field names member.1) as [j|] eqn:Hj.
  - pose proof (find_field_lt _ _ _ Hj) as Hlt.
    destruct (decide (Some j = Some i)) as [[= ->]|Hne].
    + rewrite <- set_same. by destruct (set i member.2 acc.1).
    + rewrite <- (set_other j member.2 acc.1 Hlt) by congruence.
      by destruct (set j member.2 acc.1).
  - by rewrite decide_False.
Qed.

(** The field ends as the values of the members that select it leave it,
    stored one after the other. *)
Lemma fold_store_member_field (members : list (string * json.Value))
    (acc : T * option json.Error) :
  get (fold_left (json.store_member names set) members acc).1
  = fold_left (fun a v => (json.store v a).1) (selecting names i members) (get acc.1).
Proof.
  revert acc. induction members as [|member rest IH]; intros acc; [done|].
  cbn [fold_left]. rewrite IH, store_member_field. unfold selecting.
  destruct (decide (json.find_field names member.1 = Some i)) as [Hsel|Hsel].
  - by rewrite filter_cons_True.
  - by rewrite filter_cons_False.
Qed.

End Fields.

(** The first error is kept: once one is saved, the decoder returns one. *)
Lemma fold_store_member_saved {T : Type} (names : list string)
    (set : nat -> json.Value -> T -> T * option json.Error)
    (members : list (string * json.Value)) (acc : T * option json.Error) :
  acc.2 ≠ None → (fold_left (json.store_member names set) members acc).2 ≠ None.
Proof.
  revert acc. induction members as [|member rest IH]; intros acc Hacc; [done|].
  cbn [fold_left]. apply IH. unfold json.store_member.
  destruct (json.find_field names member.1) as [j|]; [|done].
  destruct (set j member.2 acc.1) as [t' err']. simpl. by destruct acc.2.
Qed.

(** A member whose value its field never takes makes the decode fail. *)
Lemma fold_store_member_error {T : Type} (names : list string)
    (set : nat -> json.Value -> T -> T * option json.Error)
    (members : list (string * json.Value)) (acc : T * option json.Error)
    (member : string * json.Value) (j : nat) :
  member ∈ members →
  json.find_field names member.1 = Some j →
  (∀ t, (set j member.2 t).2 ≠ None) →
  (fold_left (json.store_member names set) members acc).2 ≠ None.
Proof.
  intros Hin Hj Hbad. revert acc.
  induction members as [|m rest IH]; intros acc; [by apply elem_of_nil in Hin|].
  cbn [fold_left]. apply elem_of_cons in Hin as [<-|Hin]; [|by apply IH].
  apply fold_store_member_saved. unfold json.store_member. rewrite Hj.
  pose proof (Hbad acc.1) as Herr.
  destruct (set j member.2 acc.1) as [t' err']. simpl in *.
  destruct acc.2; [done|]. by destruct err'.
Qed.

(** A decode without error stored every member without error. *)
Lemma fold_store_member_no_error {T : Type} (names : list string)
    (set : nat -> json.Value -> T -> T * option json.Error)
    (members : list (string * json.Value)) (acc : T * option json.Error)
    (member : string * json.Value) (j : nat) :
  (fold_left (json.store_member names set) members acc).2 = None →
  member ∈ members →
  json.find_field names member.1 = Some j →
  ∃ t, (set j member.2 t).2 = None.
Proof.
  intros Hnone Hin Hj. revert acc Hnone.
  induction members as [|m rest IH]; intros acc Hnone; [by apply elem_of_nil in Hin|].
  cbn [fold_left] in Hnone. apply elem_of_cons in Hin as [<-|Hin]; [|by apply (IH Hin _ Hnone)].
  exists acc.1.
  destruct ((set j member.2 acc.1).2) as [e|] eqn:Herr; [|done].
  exfalso. revert Hnone. apply fold_store_member_saved.
  unfold json.store_member. rewrite Hj.
  destruct (set j member.2 acc.1) as [t' err']. simpl in *. subst err'. by destruct acc.2.
Qed.

Lemma field_member_selecting (names : list string) (i : nat)
    (members : list (string * json.Value)) :
  field_member names i members = last (selecting names i members).
Proof.
  induction members as [|member rest IH]; [done|].
  cbn [field_member]. rewrite IH. unfold selecting.
  destruct (decide (json.find_field names member.1 = Some i)) as [Hsel|Hsel].
  - rewrite filter_cons_True, fmap_cons, bool_decide_eq_true_2 by done.
    fold (selecting names i rest). rewrite last_cons.
    by destruct (last (selecting names i rest)).
  - rewrite filter_cons_False, bool_decide_eq_false_2 by done.
    fold (selecting names i rest). by destruct (last (selecting names i rest)).
Qed.

Lemma selecting_elem_of (names : list string) (i : nat)
    (members : list (string * json.Value)) (v : json.Value) :
  v ∈ selecting names i members
  ↔ ∃ k, (k, v) ∈ members ∧ json.find_field names k = Some i.
Proof.
  unfold selecting. rewrite list_elem_of_fmap. split.
  - intros ([k v'] & -> & Hin). apply list_elem_of_filter in Hin as [Hsel Hin]. by exists k.
  - intros (k & Hin & Hsel). exists (k, v). split; [done|]. by apply list_elem_of_filter.
Qed.

(** A string field holds the last string stored into it. *)
Lemma store_string_last (vs : list json.Value) (a x : string) :
  last vs = Some (json.Str x) → fold_left (fun a v => (json.store v a).1) vs a = x.
Proof.
  intros Hlast. destruct (last_Some vs (json.Str x)) as [[vs' ->] _]; [done|].
  by rewrite fold_left_app.
Qed.

Lemma store_string_nulls (vs : list json.Value) (a : string) :
  (∀ v, v ∈ vs → v = json.Null) → fold_left (fun a v => (json.store v a).1) vs a = a.
Proof.
  induction vs as [|v vs IH]; intros Hnull; [done|].
  cbn [fold_left]. rewrite (Hnull v) by (by left). simpl. apply IH.
  intros v' Hv'. apply Hnull. by right.
Qed.

(** A pointer field is nil when nothing or [null] was stored into it last. *)
Lemma store_pointer_nil {A : Type} `{json.Unmarshaler A} (vs : list json.Value)
    (a : option A) :
  fold_left (fun a v => (json.store v a).1) vs a = None
  ↔ match last vs with
    | None => a = None
    | Some v => v = json.Null
    end.
Proof.
  destruct (last vs) as [v|] eqn:Hlast.
  - destruct (last_Some vs v) as [[vs' ->] _]; [done|].
    rewrite fold_left_app. cbn [fold_left].
    destruct v; simpl; try (by split);
      by destruct (json.store _ (default json.zero _)).
  - apply last_None in Hlast as ->. done.
Qed.

Lemma Unmarshal_TranscriptResult_object (data : string)
    (members : list (string * json.Value)) :
  json.parse data = Some (json.Object members) →
  json.Unmarshal TranscriptResult.t data
  = fold_left (json.store_member TranscriptResult.fields TranscriptResult.set) members
              (json.zero, None).
Proof. intros Hp. unfold json.Unmarshal. by rewrite Hp. Qed.

Lemma Unmarshal_AccountInfo_object (data : string) (members : list (string * json.Value)) :
  json.parse data = Some (json.Object members) →
  json.Unmarshal AccountInfo.t data
  = fold_left (json.store_member AccountInfo.fields AccountInfo.set) members
              (json.zero, None).
Proof. intros Hp. unfold json.Unmarshal. by rewrite Hp. Qed.

Lemma TranscriptResult_set_status (v : json.Value) (r : TranscriptResult.t) :
  TranscriptResult.Status (TranscriptResult.set 0 v r).1
  = (json.store v (TranscriptResult.Status r)).1.
Proof. by destruct v. Qed.

Lemma TranscriptResult_set_not_status (j : nat) (v : json.Value) (r : TranscriptResult.t) :
  j < length TranscriptResult.fields → j ≠ 0 →
  TranscriptResult.Status (TranscriptResult.set j v r).1 = TranscriptResult.Status r.
Proof.
  intros Hlt Hne. destruct j as [|[|[|[|[|j]]]]]; simpl in Hlt; try lia;
    unfold TranscriptResult.set;
    match goal with |- context [json.store v ?x] => by destruct (json.store v x) end.
Qed.

Lemma TranscriptResult_set_error (v : json.Value) (r : TranscriptResult.t) :
  TranscriptResult.Error (TranscriptResult.set 1 v r).1
  = (json.store v (TranscriptResult.Error r)).1.
Proof.
  unfold TranscriptResult.set. by destruct (json.store v (TranscriptResult.Error r)).
Qed.

Lemma TranscriptResult_set_not_error (j : nat) (v : json.Value) (r : TranscriptResult.t) :
  j < length TranscriptResult.fields → j ≠ 1 →
  TranscriptResult.Error (TranscriptResult.set j v r).1 = TranscriptResult.Error r.
Proof.
  intros Hlt Hne. destruct j as [|[|[|[|[|j]]]]]; simpl in Hlt; try lia;
    unfold TranscriptResult.set;
    match goal with |- context [json.store v ?x] => by destruct (json.store v x) end.
Qed.

(** X18. What a poll of a transcript job returns from a body that is a JSON
    object and decodes. The status is the string of the [status] member,
    whatever it is: it is not checked against the four declared statuses.
    Without a [status] member it is empty. The [Error] pointer is nil
    exactly when the body has no [error] member or the one that decides is
    [null]. The member that decides a field is the last that selects
    it. *)
Theorem transcript_result_fields (wellformed : string -> bool)
    (Do : http.Client -> http.Request -> string + http.Response)
    (h : Heap) (s : Supadata) (jobId : string)
    (req : http.Request) (cl : http.Client) (resp : http.Response)
    (members : list (string * json.Value)) (r : TranscriptResult.t) :
  TranscriptResult_request wellformed s jobId = Ok req →
  client (config s) ≫= (h !!.) = Some cl →
  Do cl req = inr resp →
  http.ReadError resp = None →
  (http.StatusCode resp < 400)%Z →
  json.parse (http.ResponseBody resp) = Some (json.Object members) →
  json.Unmarshal TranscriptResult.t (http.ResponseBody resp) = (r, None) →
  TranscriptResult wellformed Do TranscriptResult.t h s jobId = Done (Ok r)
  ∧ (∀ status, field_member TranscriptResult.fields 0 members = Some (json.Str status) →
       TranscriptResult.Status r = status)
  ∧ (field_member TranscriptResult.fields 0 members = None →
       TranscriptResult.Status r = EmptyString)
  ∧ (TranscriptResult.Error r = None
     ↔ field_member TranscriptResult.fields 1 members = None
       ∨ field_member TranscriptResult.fields 1 members = Some json.Null).
Proof.
  intros Hreq Hcl Hdo Hread Hst Hparse Hdec.
  pose proof (Unmarshal_TranscriptResult_object _ _ Hparse) as Hfold.
  rewrite Hdec in Hfold.
  assert (TranscriptResult.Status r
          = fold_left (fun a v => (json.store v a).1)
                      (selecting TranscriptResult.fields 0 members) EmptyString) as Hstatus.
  { replace r with (r, @None json.Error).1 by done. rewrite Hfold.
    apply (fold_store_member_field TranscriptResult.fields TranscriptResult.set 0
             TranscriptResult.Status TranscriptResult_set_status
             TranscriptResult_set_not_status). }
  assert (TranscriptResult.Error r
          = fold_left (fun a v => (json.store v a).1)
                      (selecting TranscriptResult.fields 1 members) None) as Herror.
  { replace r with (r, @None json.Error).1 by done. rewrite Hfold.
    apply (fold_store_member_field TranscriptResult.fields TranscriptResult.set 1
             TranscriptResult.Error TranscriptResult_set_error
             TranscriptResult_set_not_error). }
  split; [|split; [|split]].
  - unfold TranscriptResult. rewrite Hreq, (exchange_completed _ _ _ _ cl resp) by done.
    unfold handleResponse. rewrite handleRawResponse_success by done. simpl.
    by rewrite Hdec.
  - intros status Hlast. rewrite field_member_selecting in Hlast.
    rewrite Hstatus. by apply store_string_last.
  - intros Hlast. rewrite field_member_selecting in Hlast.
    apply last_None in Hlast. by rewrite Hstatus, Hlast.
  - rewrite Herror, store_pointer_nil, field_member_selecting.
    destruct (last (selecting TranscriptResult.fields 1 members)) as [v|].
    + split; [intros ->; by right | by intros [?|[=]]].
    + split; [by left | done].
Qed.

Lemma transcript_result_fields_witness :
  TranscriptResult any_url
    (answers (response 200 (rewrite_quotes "{'status':'paused','error':null}")))
    TranscriptResult.t test_store test_client "job-123"
  = Done (Ok (TranscriptResult.mk "paused" None [] EmptyString []))
  ∧ TranscriptResult.Status (TranscriptResult.mk "paused" None [] EmptyString []) = "paused"
  ∧ TranscriptResult.Error (TranscriptResult.mk "paused" None [] EmptyString []) = None.
Proof.
  edestruct (transcript_result_fields any_url
               (answers (response 200 (rewrite_quotes "{'status':'paused','error':null}")))
               test_store test_client "job-123")
    as (Hcall & Hstatus & _ & Herror).
  - vm_compute. reflexivity.
  - reflexivity.
  - reflexivity.
  - reflexivity.
  - vm_compute. reflexivity.
  - vm_compute. reflexivity.
  - vm_compute. reflexivity.
  - split; [exact Hcall|]. split.
    + apply Hstatus. vm_compute. reflexivity.
    + apply Herror. right. vm_compute. reflexivity.
Defined.

Lemma AccountInfo_set_max (v : json.Value) (a : AccountInfo.t) :
  AccountInfo.MaxCredits (AccountInfo.set 2 v a).1 = (json.store v (AccountInfo.MaxCredits a)).1.
Proof. unfold AccountInfo.set. by destruct (json.store v (AccountInfo.MaxCredits a)). Qed.

Lemma AccountInfo_set_not_max (j : nat) (v : json.Value) (a : AccountInfo.t) :
  j < length AccountInfo.fields → j ≠ 2 →
  AccountInfo.MaxCredits (AccountInfo.set j v a).1 = AccountInfo.MaxCredits a.
Proof.
  intros Hlt Hne. destruct j as [|[|[|[|j]]]]; simpl in Hlt; try lia;
    unfold AccountInfo.set;
    match goal with |- context [json.store v ?x] => by destruct (json.store v x) end.
Qed.

Lemma AccountInfo_set_used (v : json.Value) (a : AccountInfo.t) :
  AccountInfo.UsedCredits (AccountInfo.set 3 v a).1
  = (json.store v (AccountInfo.UsedCredits a)).1.
Proof. unfold AccountInfo.set. by destruct (json.store v (AccountInfo.UsedCredits a)). Qed.

Lemma AccountInfo_set_not_used (j : nat) (v : json.Value) (a : AccountInfo.t) :
  j < length AccountInfo.fields → j ≠ 3 →
  AccountInfo.UsedCredits (AccountInfo.set j v a).1 = AccountInfo.UsedCredits a.
Proof.
  intros Hlt Hne. destruct j as [|[|[|[|j]]]]; simpl in Hlt; try lia;
    unfold AccountInfo.set;
    match goal with |- context [json.store v ?x] => by destruct (json.store v x) end.
Qed.

(** An [int] field takes a number exactly when it is an integer literal in
    range. *)
Lemma AccountInfo_set_credits_error (j : nat) (lit : string) (a : AccountInfo.t) :
  j = 2 ∨ j = 3 →
  (AccountInfo.set j (json.Number lit) a).2 = None ↔ is_Some (json.int_literal lit).
Proof.
  intros [-> | ->]; simpl; destruct (json.int_literal lit); simpl;
    (split; [intros; try done; by eexists | by intros [? [=]] || done]).
Qed.

Lemma store_int_last (vs : list json.Value) (a n : Z) (lit : string) :
  last vs = Some (json.Number lit) →
  json.int_literal lit = Some n →
  fold_left (fun a v => (json.store v a).1) vs a = n.
Proof.
  intros Hlast Hlit. destruct (last_Some vs (json.Number lit)) as [[vs' ->] _]; [done|].
  rewrite fold_left_app. simpl. by rewrite Hlit.
Qed.

(** X19. The credit counts of the account. [Me] reads [maxCredits] and
    [usedCredits] into Go [int]s: a member that is a number with a
    fraction or an exponent, or one outside the 64-bit range, makes the
    call fail with the error of the decode, whatever else the body holds;
    and when the call returns the account, each count is the value of the
    integer literal that decides it. *)
Theorem account_credits_are_integers (wellformed : string -> bool)
    (Do : http.Client -> http.Request -> string + http.Response)
    (h : Heap) (s : Supadata)
    (req : http.Request) (cl : http.Client) (resp : http.Response)
    (members : list (string * json.Value)) :
  Me_request wellformed s = Ok req →
  client (config s) ≫= (h !!.) = Some cl →
  Do cl req = inr resp →
  http.ReadError resp = None →
  (http.StatusCode resp < 400)%Z →
  json.parse (http.ResponseBody resp) = Some (json.Object members) →
  (∀ k lit,
     (k, json.Number lit) ∈ members →
     json.find_field AccountInfo.fields k = Some 2
     ∨ json.find_field AccountInfo.fields k = Some 3 →
     json.int_literal lit = None →
     ∃ e, Me wellformed Do AccountInfo.t h s = Done (Err (JSONError e)))
  ∧ (∀ a, Me wellformed Do AccountInfo.t h s = Done (Ok a) →
       (∀ lit, field_member AccountInfo.fields 2 members = Some (json.Number lit) →
               json.int_literal lit = Some (AccountInfo.MaxCredits a))
       ∧ (∀ lit, field_member AccountInfo.fields 3 members = Some (json.Number lit) →
                 json.int_literal lit = Some (AccountInfo.UsedCredits a))).
Proof.
  intros Hreq Hcl Hdo Hread Hst Hparse.
  pose proof (Unmarshal_AccountInfo_object _ _ Hparse) as Hfold.
  assert (Me wellformed Do AccountInfo.t h s
          = Done (match json.Unmarshal AccountInfo.t (http.ResponseBody resp) with
                  | (_, Some err) => Err (JSONError err)
                  | (result, None) => Ok result
                  end)) as Hme.
  { unfold Me. rewrite Hreq, (exchange_completed _ _ _ _ cl resp) by done.
    unfold handleResponse. by rewrite handleRawResponse_success by done. }
  rewrite Hme. split.
  - intros k lit Hin Hsel Hlit.
    destruct (json.Unmarshal AccountInfo.t (http.ResponseBody resp)) as [a [e|]] eqn:Hdec;
      [by exists e|].
    exfalso. clear Hdec. rename Hfold into Hdec. symmetry in Hdec.
    assert (∃ j, (j = 2 ∨ j = 3) ∧ json.find_field AccountInfo.fields k = Some j)
      as (j & Hj & Hfind) by (destruct Hsel; eauto).
    apply (fold_store_member_error AccountInfo.fields AccountInfo.set members
             (json.zero, None) (k, json.Number lit) j Hin Hfind); [|by rewrite Hdec].
    intros t Hnone. apply (AccountInfo_set_credits_error j lit t Hj) in Hnone as [n Hn].
    simpl in Hn. congruence.
  - intros a Hok.
    destruct (json.Unmarshal AccountInfo.t (http.ResponseBody resp)) as [a' [e|]] eqn:Hdec;
      [discriminate|].
    injection Hok as ->. clear Hdec. rename Hfold into Hdec. symmetry in Hdec.
    assert (∀ j lit, j = 2 ∨ j = 3 →
                     field_member AccountInfo.fields j members = Some (json.Number lit) →
                     is_Some (json.int_literal lit)) as Hint.
    { intros j lit Hj Hlast. rewrite field_member_selecting in Hlast.
      apply last_Some_elem_of, selecting_elem_of in Hlast as (k & Hin & Hfind).
      destruct (fold_store_member_no_error AccountInfo.fields AccountInfo.set members
                  (json.zero, None) (k, json.Number lit) j) as [t Ht]; try done.
      - by rewrite Hdec.
      - by apply (AccountInfo_set_credits_error j lit t Hj). }
    split; intros lit Hlast.
    + destruct (Hint 2 lit (or_introl eq_refl) Hlast) as [n Hn]. rewrite Hn. f_equal.
      replace a with (a, @None json.Error).1 by done. rewrite <- Hdec.
      rewrite (fold_store_member_field AccountInfo.fields AccountInfo.set 2
                 AccountInfo.MaxCredits AccountInfo_set_max AccountInfo_set_not_max).
      rewrite field_member_selecting in Hlast. symmetry. by apply (store_int_last _ _ _ lit).
    + destruct (Hint 3 lit (or_intror eq_refl) Hlast) as [n Hn]. rewrite Hn. f_equal.
      replace a with (a, @None json.Error).1 by done. rewrite <- Hdec.
      rewrite (fold_store_member_field AccountInfo.fields AccountInfo.set 3
                 AccountInfo.UsedCredits AccountInfo_set_used AccountInfo_set_not_used).
      rewrite field_member_selecting in Hlast. symmetry. by apply (store_int_last _ _ _ lit).
Qed.

Lemma account_credits_are_integers_witness :
  ∃ e, Me any_url
         (answers (response 200 (rewrite_quotes "{'plan':'pro','maxCredits':1e3}")))
         AccountInfo.t test_store test_client
       = Done (Err (JSONError e)).
Proof.
  edestruct (account_credits_are_integers any_url
               (answers (response 200 (rewrite_quotes "{'plan':'pro','maxCredits':1e3}")))
               test_store test_client) as [Hbad _].
  - vm_compute. reflexivity.
  - reflexivity.
  - reflexivity.
  - reflexivity.
  - vm_compute. reflexivity.
  - vm_compute. reflexivity.
  - apply (Hbad "maxCredits" "1e3").
    + apply elem_of_cons. right. by left.
    + left. vm_compute. reflexivity.
    + vm_compute. reflexivity.
Defined.

Lemma Unmarshal_AsyncTranscript_object (data : string)
    (members : list (string * json.Value)) :
  json.parse data = Some (json.Object members) →
  json.Unmarshal AsyncTranscript.t data
  = fold_left (json.store_member AsyncTranscript.fields AsyncTranscript.set) members
              (json.zero, None).
Proof. intros Hp. unfold json.Unmarshal. by rewrite Hp. Qed.

Lemma AsyncTranscript_set_job (v : json.Value) (a : AsyncTranscript.t) :
  AsyncTranscript.JobId (AsyncTranscript.set 0 v a).1
  = (json.store v (AsyncTranscript.JobId a)).1.
Proof. unfold AsyncTranscript.set. by destruct (json.store v (AsyncTranscript.JobId a)). Qed.

Lemma AsyncTranscript_set_not_job (j : nat) (v : json.Value) (a : AsyncTranscript.t) :
  j < length AsyncTranscript.fields → j ≠ 0 →
  AsyncTranscript.JobId (AsyncTranscript.set j v a).1 = AsyncTranscript.JobId a.
Proof. simpl. lia. Qed.

(** X20. The job id of an asynchronous transcript. When the body holds the
    key [jobId] and decodes, the job id returned is the string of the
    member that decides the field, the last that selects it; when every
    such member is [null], as in a body that is [jobId: null] alone, the
    call still returns the asynchronous variant, with an empty job id. *)
Theorem transcript_job_id (wellformed : string -> bool)
    (Do : http.Client -> http.Request -> string + http.Response)
    (h : Heap) (s : Supadata) (params : TranscriptParams.t)
    (req : http.Request) (cl : http.Client) (resp : http.Response)
    (members : list (string * json.Value)) (a : AsyncTranscript.t) :
  Transcript_request wellformed s params = Ok req →
  client (config s) ≫= (h !!.) = Some cl →
  Do cl req = inr resp →
  http.ReadError resp = None →
  (http.StatusCode resp < 400)%Z →
  json.parse (http.ResponseBody resp) = Some (json.Object members) →
  "jobId" ∈ members.*1 →
  json.Unmarshal AsyncTranscript.t (http.ResponseBody resp) = (a, None) →
  Transcript wellformed Do h s params
  = Done (Ok {| Transcript.Sync := None; Transcript.Async := Some a |})
  ∧ (∀ jobId, field_member AsyncTranscript.fields 0 members = Some (json.Str jobId) →
       AsyncTranscript.JobId a = jobId)
  ∧ ((∀ k v, (k, v) ∈ members → json.find_field AsyncTranscript.fields k = Some 0 →
             v = json.Null) →
     AsyncTranscript.JobId a = EmptyString).
Proof.
  intros Hreq Hcl Hdo Hread Hst Hparse Hkey Hdec.
  pose proof (Unmarshal_AsyncTranscript_object _ _ Hparse) as Hfold. rewrite Hdec in Hfold.
  assert (AsyncTranscript.JobId a
          = fold_left (fun a v => (json.store v a).1)
                      (selecting AsyncTranscript.fields 0 members) EmptyString) as Hjob.
  { replace a with (a, @None json.Error).1 by done. rewrite Hfold.
    apply (fold_store_member_field AsyncTranscript.fields AsyncTranscript.set 0
             AsyncTranscript.JobId AsyncTranscript_set_job AsyncTranscript_set_not_job). }
  split; [|split].
  - unfold Transcript. rewrite Hreq, (exchange_completed _ _ _ _ cl resp) by done.
    rewrite (Transcript_response_object resp members) by done.
    rewrite decide_True by done. by rewrite Hdec.
  - intros jobId Hlast. rewrite field_member_selecting in Hlast.
    rewrite Hjob. by apply store_string_last.
  - intros Hnull. rewrite Hjob. apply store_string_nulls.
    intros v Hv. apply selecting_elem_of in Hv as (k & Hin & Hsel). by apply (Hnull k).
Qed.

Lemma transcript_job_id_witness :
  Transcript any_url (answers (response 202 (rewrite_quotes "{'jobId':null}")))
             test_store test_client test_params
  = Done (Ok {| Transcript.Sync := None;
                Transcript.Async := Some (AsyncTranscript.mk EmptyString) |})
  ∧ AsyncTranscript.JobId (AsyncTranscript.mk EmptyString) = EmptyString.
Proof.
  edestruct (transcript_job_id any_url
               (answers (response 202 (rewrite_quotes "{'jobId':null}")))
               test_store test_client test_params) as (Hcall & _ & Hnull).
  - vm_compute. reflexivity.
  - reflexivity.
  - reflexivity.
  - reflexivity.
  - vm_compute. reflexivity.
  - vm_compute. reflexivity.
  - vm_compute. by left.
  - vm_compute. reflexivity.
  - split; [exact Hcall|]. apply Hnull. intros k v Hin _.
    apply elem_of_cons in Hin as [[= _ ->]|Hin]; [reflexivity | by apply elem_of_nil in Hin].
Defined.

(** ** The example program *)

Lemma sleeps_handleError (err : error) : sleeps (handleError err) = [].
Proof.
  destruct err as [e| | | | |]; try reflexivity. unfold handleError.
  unfold sleeps. rewrite !omap_app.
  repeat match goal with |- context [if ?b then _ else _] => destruct b end; reflexivity.
Qed.

Lemma statuses_handleError (err : error) : statuses (handleError err) = [].
Proof.
  destruct err as [e| | | | |]; try reflexivity. unfold handleError.
  unfold statuses. rewrite !omap_app.
  repeat match goal with |- context [if ?b then _ else _] => destruct b end; reflexivity.
Qed.

Lemma sleeps_print_segments (content : list TranscriptContent.t) :
  sleeps (print_segments content) = [].
Proof.
  unfold print_segments, sleeps. rewrite omap_app.
  assert (∀ l : list TranscriptContent.t,
            omap (fun e => match e with Sleep d => Some d | _ => None end)
                 (map (fun segment =>
                         Printf ("  [%.2fs] %s" +:+ newline)
                                [AFloat (TranscriptContent.Offset segment);
                                 AString (TranscriptContent.Text segment)]) l) = []) as ->
    by (intros l; induction l; [done | assumption]).
  by destruct (bool_decide _).
Qed.

Lemma statuses_print_segments (content : list TranscriptContent.t) :
  statuses (print_segments content) = [].
Proof.
  unfold print_segments, statuses. rewrite omap_app.
  match goal with
  | |- omap ?f (map ?g _) ++ _ = _ =>
      assert (∀ l : list TranscriptContent.t, omap f (map g l) = []) as ->
        by (intros l; induction l; [done | assumption])
  end.
  by destruct (bool_decide _).
Qed.

Section Polling.

Variable wellformed : string -> bool.
Variable Do : nat -> http.Client -> http.Request -> string + http.Response.
Variable h : Heap.
Variable s : Supadata.
Variable jobId : string.

(** One round of the loop on a job that is still queued or active. *)
Lemma pollTranscript_loop_waiting (fuel n : nat) (r : TranscriptResult.t) :
  TranscriptResult wellformed (Do n) TranscriptResult.t h s jobId = Done (Ok r) →
  TranscriptResult.Status r = Queued ∨ TranscriptResult.Status r = Active →
  pollTranscript_loop wellformed Do (S fuel) n h s jobId
  = let '(events, ending) := pollTranscript_loop wellformed Do fuel (S n) h s jobId in
    (Printf ("Status: %s" +:+ newline) [AString (TranscriptResult.Status r)]
     :: Println "Still processing, waiting 2 seconds..."
     :: Sleep (2 * Second)
     :: events,
     ending).
Proof.
  intros Hpoll Hst. cbn [pollTranscript_loop]. rewrite Hpoll.
  by destruct Hst as [-> | ->].
Qed.

(** One round of the loop on a status the [switch] has no case for. *)
Lemma pollTranscript_loop_unknown (fuel n : nat) (r : TranscriptResult.t) :
  TranscriptResult wellformed (Do n) TranscriptResult.t h s jobId = Done (Ok r) →
  TranscriptResult.Status r ∉ [Queued; Active; Completed; Failed] →
  pollTranscript_loop wellformed Do (S fuel) n h s jobId
  = let '(events, ending) := pollTranscript_loop wellformed Do fuel (S n) h s jobId in
    (Printf ("Status: %s" +:+ newline) [AString (TranscriptResult.Status r)] :: events,
     ending).
Proof.
  intros Hpoll Hst. cbn [pollTranscript_loop]. rewrite Hpoll.
  rewrite !not_elem_of_cons in Hst. destruct Hst as (Hq & Ha & Hc & Hf & _).
  apply String.eqb_neq in Hq, Ha, Hc, Hf. by rewrite Hq, Ha, Hc, Hf.
Qed.

(** The round that ends the loop: an error, or a job completed or failed. *)
Lemma pollTranscript_loop_final (fuel n : nat) (final : Result TranscriptResult.t) :
  TranscriptResult wellformed (Do n) TranscriptResult.t h s jobId = Done final →
  match final with
  | Ok r => TranscriptResult.Status r = Completed ∨ TranscriptResult.Status r = Failed
  | Err _ => True
  end →
  ∃ events,
    pollTranscript_loop wellformed Do (S fuel) n h s jobId = (events, Returns)
    ∧ sleeps events = []
    ∧ statuses events = match final with
                        | Ok r => [TranscriptResult.Status r]
                        | Err _ => []
                        end.
Proof.
  intros Hpoll Hfinal. cbn [pollTranscript_loop]. rewrite Hpoll.
  destruct final as [r|err].
  - destruct Hfinal as [Hst | Hst]; rewrite Hst; simpl; eexists; (split; [reflexivity|]).
    + split.
      * change (sleeps (print_segments (TranscriptResult.Content r)) = []).
        apply sleeps_print_segments.
      * change (Completed :: statuses (print_segments (TranscriptResult.Content r))
                = [Completed]).
        by rewrite statuses_print_segments.
    + by destruct (TranscriptResult.Error r).
  - eexists. split; [reflexivity|]. split; [apply sleeps_handleError | apply statuses_handleError].
Qed.

Lemma pollTranscript_loop_returns (results : nat -> TranscriptResult.t)
    (final : Result TranscriptResult.t) (k : nat) :
  ∀ n fuel,
    (∀ i, i < k →
          TranscriptResult wellformed (Do (n + i)) TranscriptResult.t h s jobId
          = Done (Ok (results (n + i)))
          ∧ (TranscriptResult.Status (results (n + i)) = Queued
             ∨ TranscriptResult.Status (results (n + i)) = Active)) →
    TranscriptResult wellformed (Do (n + k)) TranscriptResult.t h s jobId = Done final →
    match final with
    | Ok r => TranscriptResult.Status r = Completed ∨ TranscriptResult.Status r = Failed
    | Err _ => True
    end →
    k < fuel →
    ∃ events,
      pollTranscript_loop wellformed Do fuel n h s jobId = (events, Returns)
      ∧ sleeps events = replicate k (2 * Second)%Z
      ∧ statuses events
        = map (fun i => TranscriptResult.Status (results i)) (seq n k)
          ++ match final with
             | Ok r => [TranscriptResult.Status r]
             | Err _ => []
             end.
Proof.
  induction k as [|k IH]; intros n fuel Hwait Hlast Hfinal Hfuel.
  - destruct fuel as [|fuel]; [lia|]. rewrite Nat.add_0_r in Hlast.
    apply (pollTranscript_loop_final fuel n final Hlast Hfinal).
  - destruct fuel as [|fuel]; [lia|].
    destruct (Hwait 0) as [Hpoll Hst]; [lia|]. rewrite Nat.add_0_r in Hpoll, Hst.
    rewrite (pollTranscript_loop_waiting fuel n _ Hpoll Hst).
    destruct (IH (S n) fuel) as (events & -> & Hsleeps & Hstatuses); try done.
    + intros i Hi. replace (S n + i) with (n + S i) by lia. apply Hwait. lia.
    + by replace (S n + k) with (n + S k) by lia.
    + lia.
    + eexists. split; [reflexivity|]. split.
      * change (sleeps (_ :: _ :: Sleep ?d :: events)) with (d :: sleeps events).
        by rewrite Hsleeps.
      * change (statuses (Printf _ [AString ?st] :: _ :: _ :: events))
          with (st :: statuses events).
        by rewrite Hstatuses.
Qed.

Lemma pollTranscript_loop_spins (k : nat) :
  ∀ n,
    (∀ i, ∃ r, TranscriptResult wellformed (Do (n + i)) TranscriptResult.t h s jobId
               = Done (Ok r)
               ∧ TranscriptResult.Status r ∉ [Queued; Active; Completed; Failed]) →
    ∃ events,
      pollTranscript_loop wellformed Do k n h s jobId = (events, Polling)
      ∧ sleeps events = []
      ∧ length (statuses events) = k.
Proof.
  induction k as [|k IH]; intros n Hunknown; [by exists []|].
  destruct (Hunknown 0) as (r & Hpoll & Hst). rewrite Nat.add_0_r in Hpoll.
  rewrite (pollTranscript_loop_unknown k n r Hpoll Hst).
  destruct (IH (S n)) as (events & -> & Hsleeps & Hstatuses).
  - intros i. replace (S n + i) with (n + S i) by lia. apply Hunknown.
  - eexists. split; [reflexivity|]. split; [exact Hsleeps|].
    change (statuses (Printf _ [AString ?st] :: events)) with (st :: statuses events).
    simpl. by rewrite Hstatuses.
Qed.

End Polling.

(** X21. The polling loop returns at the first answer that ends it. When
    the first [k] polls find the job queued or active and the next one
    gets an error or finds the job completed or failed, the loop returns
    after that poll: it has slept [k] times, two seconds each, and has
    printed the status of every poll that got a result, in order. *)
Theorem poll_returns (wellformed : string -> bool)
    (Do : nat -> http.Client -> http.Request -> string + http.Response)
    (h : Heap) (s : Supadata) (jobId : string)
    (results : nat -> TranscriptResult.t) (final : Result TranscriptResult.t)
    (n k fuel : nat) :
  (∀ i, i < k →
        TranscriptResult wellformed (Do (n + i)) TranscriptResult.t h s jobId
        = Done (Ok (results (n + i)))
        ∧ (TranscriptResult.Status (results (n + i)) = Queued
           ∨ TranscriptResult.Status (results (n + i)) = Active)) →
  TranscriptResult wellformed (Do (n + k)) TranscriptResult.t h s jobId = Done final →
  match final with
  | Ok r => TranscriptResult.Status r = Completed ∨ TranscriptResult.Status r = Failed
  | Err _ => True
  end →
  k < fuel →
  ∃ events,
    pollTranscript wellformed Do fuel n h s jobId = (events, Returns)
    ∧ sleeps events = replicate k (2 * Second)%Z
    ∧ statuses events
      = map (fun i => TranscriptResult.Status (results i)) (seq n k)
        ++ match final with
           | Ok r => [TranscriptResult.Status r]
           | Err _ => []
           end.
Proof.
  intros Hwait Hlast Hfinal Hfuel. unfold pollTranscript.
  destruct (pollTranscript_loop_returns wellformed Do h s jobId results final k n fuel)
    as (events & -> & Hsleeps & Hstatuses); try done.
  eexists. split; [reflexivity|]. by split.
Qed.

Lemma poll_returns_witness :
  ∃ events,
    pollTranscript any_url
      (in_turn [rewrite_quotes "{'status':'queued'}"; rewrite_quotes "{'status':'active'}";
                rewrite_quotes "{'status':'completed','lang':'en'}"])
      5 0 test_store test_client "job-123"
    = (events, Returns)
    ∧ sleeps events = [2 * Second; 2 * Second]%Z
    ∧ statuses events = ["queued"; "active"; "completed"].
Proof.
  apply (poll_returns any_url _ test_store test_client "job-123"
           (fun i => TranscriptResult.mk (if Nat.eqb i 0 then "queued" else "active")
                                         None [] EmptyString [])
           (Ok (TranscriptResult.mk "completed" None [] "en" [])) 0 2 5).
  - intros [|[|i]] Hi; [| |lia]; (split; [vm_compute; reflexivity|]); [by left | by right].
  - vm_compute. reflexivity.
  - by left.
  - lia.
Defined.

(** X22. A status the loop has no case for. When every poll finds a status
    that is none of [queued], [active], [completed] and [failed], the loop
    never returns and never sleeps: however many polls are allowed, each
    is made and printed, none is followed by a wait, and the loop is
    still polling. *)
Theorem poll_spins (wellformed : string -> bool)
    (Do : nat -> http.Client -> http.Request -> string + http.Response)
    (h : Heap) (s : Supadata) (jobId : string) (n fuel : nat) :
  (∀ i, ∃ r, TranscriptResult wellformed (Do (n + i)) TranscriptResult.t h s jobId
             = Done (Ok r)
             ∧ TranscriptResult.Status r ∉ [Queued; Active; Completed; Failed]) →
  ∃ events,
    pollTranscript wellformed Do fuel n h s jobId = (events, Polling)
    ∧ sleeps events = []
    ∧ length (statuses events) = fuel.
Proof.
  intros Hunknown. unfold pollTranscript.
  destruct (pollTranscript_loop_spins wellformed Do h s jobId fuel n Hunknown)
    as (events & -> & Hsleeps & Hstatuses).
  eexists. split; [reflexivity|]. by split.
Qed.

Lemma poll_spins_witness :
  ∃ events,
    pollTranscript any_url (always (response 200 (rewrite_quotes "{'status':'paused'}")))
                   4 0 test_store test_client "job-123"
    = (events, Polling)
    ∧ sleeps events = []
    ∧ length (statuses events) = 4.
Proof.
  apply (poll_spins any_url (always (response 200 (rewrite_quotes "{'status':'paused'}")))
           test_store test_client "job-123" 0 4).
  intros i. exists (TranscriptResult.mk "paused" None [] EmptyString []).
  split; [vm_compute; reflexivity|].
  intros Hin. repeat (apply elem_of_cons in Hin as [Hin|Hin]; [discriminate|]).
  by apply elem_of_nil in Hin.
Defined.

(** A slice takes an array element by element, each decoded on its own. *)
Lemma store_slice_array {T : Type} `{json.Unmarshaler T} (elems : list json.Value)
    (old : list T) :
  (json.store (json.Array elems) old).1 = map (fun e => (json.store e json.zero).1) elems.
Proof.
  simpl.
  assert (∀ acc err,
            (fold_left (fun '(acc, err) e =>
                          let '(x, err') := json.store e json.zero in
                          (acc ++ [x], json.saveError err err'))
                       elems (acc, err)).1
            = acc ++ map (fun e => (json.store e json.zero).1) elems) as Hfold.
  { induction elems as [|e elems IH]; intros acc err; simpl; [by rewrite app_nil_r|].
    destruct (json.store e json.zero) as [x err']. rewrite IH. simpl.
    by rewrite <- app_assoc. }
  apply (Hfold [] None).
Qed.

Lemma store_slice_last {T : Type} `{json.Unmarshaler T} (vs : list json.Value)
    (a : list T) (elems : list json.Value) :
  last vs = Some (json.Array elems) →
  fold_left (fun a v => (json.store v a).1) vs a
  = map (fun e => (json.store e json.zero).1) elems.
Proof.
  intros Hlast. destruct (last_Some vs (json.Array elems)) as [[vs' ->] _]; [done|].
  rewrite fold_left_app. cbn [fold_left]. apply store_slice_array.
Qed.

Lemma Unmarshal_SyncTranscript_object (data : string)
    (members : list (string * json.Value)) :
  json.parse data = Some (json.Object members) →
  json.Unmarshal SyncTranscript.t data
  = fold_left (json.store_member SyncTranscript.fields SyncTranscript.set) members
              (json.zero, None).
Proof. intros Hp. unfold json.Unmarshal. by rewrite Hp. Qed.

Lemma SyncTranscript_set_content (v : json.Value) (t : SyncTranscript.t) :
  SyncTranscript.Content (SyncTranscript.set 0 v t).1
  = (json.store v (SyncTranscript.Content t)).1.
Proof. unfold SyncTranscript.set. by destruct (json.store v (SyncTranscript.Content t)). Qed.

Lemma SyncTranscript_set_not_content (j : nat) (v : json.Value) (t : SyncTranscript.t) :
  j < length SyncTranscript.fields → j ≠ 0 →
  SyncTranscript.Content (SyncTranscript.set j v t).1 = SyncTranscript.Content t.
Proof.
  intros Hlt Hne. destruct j as [|[|[|j]]]; simpl in Hlt; try lia;
    unfold SyncTranscript.set;
    match goal with |- context [json.store v ?x] => by destruct (json.store v x) end.
Qed.

Lemma SyncTranscript_set_lang (v : json.Value) (t : SyncTranscript.t) :
  SyncTranscript.Lang (SyncTranscript.set 1 v t).1 = (json.store v (SyncTranscript.Lang t)).1.
Proof. by destruct v. Qed.

Lemma SyncTranscript_set_not_lang (j : nat) (v : json.Value) (t : SyncTranscript.t) :
  j < length SyncTranscript.fields → j ≠ 1 →
  SyncTranscript.Lang (SyncTranscript.set j v t).1 = SyncTranscript.Lang t.
Proof.
  intros Hlt Hne. destruct j as [|[|[|j]]]; simpl in Hlt; try lia;
    unfold SyncTranscript.set;
    match goal with |- context [json.store v ?x] => by destruct (json.store v x) end.
Qed.

(** X23. The segments of a synchronous transcript. When the body holds no
    key [jobId] and decodes, the transcript has as many segments as the
    array of the [content] member has elements; when one member alone
    selects [content], the segments are the elements, in order, each
    decoded on its own into a segment that starts empty; without a
    [content] member there are no segments. The language is the string of
    the [lang] member. *)
Theorem sync_transcript_content (wellformed : string -> bool)
    (Do : http.Client -> http.Request -> string + http.Response)
    (h : Heap) (s : Supadata) (params : TranscriptParams.t)
    (req : http.Request) (cl : http.Client) (resp : http.Response)
    (members : list (string * json.Value)) (sync : SyncTranscript.t) :
  Transcript_request wellformed s params = Ok req →
  client (config s) ≫= (h !!.) = Some cl →
  Do cl req = inr resp →
  http.ReadError resp = None →
  (http.StatusCode resp < 400)%Z →
  json.parse (http.ResponseBody resp) = Some (json.Object members) →
  "jobId" ∉ members.*1 →
  json.Unmarshal SyncTranscript.t (http.ResponseBody resp) = (sync, None) →
  Transcript wellformed Do h s params
  = Done (Ok {| Transcript.Sync := Some sync; Transcript.Async := None |})
  ∧ (∀ elems, field_member SyncTranscript.fields 0 members = Some (json.Array elems) →
       length (SyncTranscript.Content sync) = length elems)
  ∧ (∀ elems, selecting SyncTranscript.fields 0 members = [json.Array elems] →
       SyncTranscript.Content sync = map (fun e => (json.store e json.zero).1) elems)
  ∧ (field_member SyncTranscript.fields 0 members = None → SyncTranscript.Content sync = [])
  ∧ (∀ lang, field_member SyncTranscript.fields 1 members = Some (json.Str lang) →
       SyncTranscript.Lang sync = lang).
Proof.
  intros Hreq Hcl Hdo Hread Hst Hparse Hkey Hdec.
  pose proof (Unmarshal_SyncTranscript_object _ _ Hparse) as Hfold. rewrite Hdec in Hfold.
  assert (SyncTranscript.Content sync
          = fold_left (fun a v => (json.store v a).1)
                      (selecting SyncTranscript.fields 0 members) []) as Hcontent.
  { replace sync with (sync, @None json.Error).1 by done. rewrite Hfold.
    apply (fold_store_member_field SyncTranscript.fields SyncTranscript.set 0
             SyncTranscript.Content SyncTranscript_set_content
             SyncTranscript_set_not_content). }
  assert (SyncTranscript.Lang sync
          = fold_left (fun a v => (json.store v a).1)
                      (selecting SyncTranscript.fields 1 members) EmptyString) as Hlang.
  { replace sync with (sync, @None json.Error).1 by done. rewrite Hfold.
    apply (fold_store_member_field SyncTranscript.fields SyncTranscript.set 1
             SyncTranscript.Lang SyncTranscript_set_lang SyncTranscript_set_not_lang). }
  split; [|split; [|split; [|split]]].
  - unfold Transcript. rewrite Hreq, (exchange_completed _ _ _ _ cl resp) by done.
    rewrite (Transcript_response_object resp members) by done.
    rewrite decide_False by done. by rewrite Hdec.
  - intros elems Hlast. rewrite field_member_selecting in Hlast.
    rewrite Hcontent, (store_slice_last _ _ elems Hlast). apply length_map.
  - intros elems Hone. rewrite Hcontent. apply store_slice_last. by rewrite Hone.
  - intros Hnone. rewrite field_member_selecting in Hnone.
    apply last_None in Hnone. by rewrite Hcontent, Hnone.
  - intros lang Hlast. rewrite field_member_selecting in Hlast.
    rewrite Hlang. by apply store_string_last.
Qed.

Lemma sync_transcript_content_witness :
  ∃ sync,
    Transcript any_url (answers (response 200 sync_body)) test_store test_client test_params
    = Done (Ok {| Transcript.Sync := Some sync; Transcript.Async := None |})
    ∧ SyncTranscript.Content sync
      = [TranscriptContent.mk "Hello world" (json.Float64 "0") (json.Float64 "1000")
                              EmptyString;
         TranscriptContent.mk "How are you" (json.Float64 "1") (json.Float64 "1500")
                              EmptyString]
    ∧ SyncTranscript.Lang sync = "en".
Proof.
  eexists.
  edestruct (sync_transcript_content any_url (answers (response 200 sync_body))
               test_store test_client test_params) as (Hcall & _ & Hone & _ & Hlang).
  - vm_compute. reflexivity.
  - reflexivity.
  - reflexivity.
  - reflexivity.
  - vm_compute. reflexivity.
  - vm_compute. reflexivity.
  - vm_compute. intros Hin.
    repeat (apply elem_of_cons in Hin as [Hin|Hin]; [discriminate|]).
    by apply elem_of_nil in Hin.
  - vm_compute. reflexivity.
  - split; [exact Hcall|]. split.
    + erewrite Hone; [|vm_compute; reflexivity]. vm_compute. reflexivity.
    + apply Hlang. vm_compute. reflexivity.
Defined.

(** X24. The query string of a transcript fetch, as text, under a base URL
    without a query of its own: the parameters stand in the order of their
    names ([chunkSize], [lang], [mode], [text], [url]), not in the order
    in which the method sets them, joined by [&], each value
    query-escaped. *)
Theorem transcript_query_string (wellformed : string -> bool) (s : Supadata)
    (params : TranscriptParams.t) (req : http.Request) :
  contains "?" (baseURL (config s)) = false →
  Transcript_request wellformed s params = Ok req →
  url.RawQuery (http.URL req)
  = join "&"
      ((if (0 <? TranscriptParams.ChunkSize params)%Z
        then ["chunkSize=" +:+ url.QueryEscape (Sprintf_d (TranscriptParams.ChunkSize params))]
        else [])
       ++ (if nonempty (TranscriptParams.Lang params)
           then ["lang=" +:+ url.QueryEscape (TranscriptParams.Lang params)] else [])
       ++ ["mode=" +:+ url.QueryEscape (if nonempty (TranscriptParams.Mode params)
                                        then TranscriptParams.Mode params else "auto")]
       ++ (if TranscriptParams.Text params then ["text=true"] else [])
       ++ ["url=" +:+ url.QueryEscape (TranscriptParams.Url params)]).
Proof.
  intros Hbase Hreq. unfold Transcript_request in Hreq. built Hreq req0 Hprep.
  rewrite RawQuery_set_query.
  rewrite (URL_Query_prepareRequest wellformed s "GET" "/transcript" None req0) by done.
  destruct params as [u l t c m]; simpl.
  destruct (0 <? c)%Z, (nonempty l), (nonempty m), t; vm_compute; reflexivity.
Qed.

Lemma transcript_query_string_witness :
  ∃ req, Transcript_request any_url test_client
           (TranscriptParams.mk "https://youtu.be/x y" "en" true 500 Native) = Ok req
         ∧ url.RawQuery (http.URL req)
           = "chunkSize=500&lang=en&mode=native&text=true&url=https%3A%2F%2Fyoutu.be%2Fx+y".
Proof.
  destruct (Transcript_request any_url test_client
              (TranscriptParams.mk "https://youtu.be/x y" "en" true 500 Native))
    as [req|e] eqn:Hreq; [|vm_compute in Hreq; discriminate].
  exists req. split; [reflexivity|].
  rewrite (transcript_query_string any_url test_client _ req eq_refl Hreq).
  vm_compute. reflexivity.
Defined.

(** Members that select no field leave the struct and the error alone. *)
Lemma fold_store_member_known {T : Type} (names : list string)
    (set : nat -> json.Value -> T -> T * option json.Error)
    (members : list (string * json.Value)) (acc : T * option json.Error) :
  fold_left (json.store_member names set)
            (filter (fun member => is_Some (json.find_field names member.1)) members) acc
  = fold_left (json.store_member names set) members acc.
Proof.
  revert acc. induction members as [|member rest IH]; intros acc; [done|].
  destruct (json.find_field names member.1) as [j|] eqn:Hj.
  - rewrite filter_cons_True by (by rewrite Hj). cbn [fold_left]. apply IH.
  - rewrite filter_cons_False by (rewrite Hj; by intros [? [=]]).
    cbn [fold_left]. rewrite IH. unfold json.store_member at 3. by rewrite Hj.
Qed.

(** X25. Members the client does not know are ignored. A body that is a
    JSON object resolves as the body does that holds, of its members, only
    those that select a field of the struct decoded: on the failure path
    (status 400 or above, [ErrorResponse], the same returned error for
    every method), and on the success path of [TranscriptResult] and [Me].
    A member selects a field by its name, exactly or up to case. *)
Theorem unknown_members_ignored (resp resp' : http.Response)
    (members : list (string * json.Value)) :
  http.ReadError resp = None →
  http.ReadError resp' = None →
  http.StatusCode resp' = http.StatusCode resp →
  json.parse (http.ResponseBody resp) = Some (json.Object members) →
  ((400 ≤ http.StatusCode resp)%Z →
   json.parse (http.ResponseBody resp')
   = Some (json.Object
             (filter (fun member => is_Some (json.find_field ErrorResponse.fields member.1))
                     members)) →
   handleRawResponse resp' = handleRawResponse resp)
  ∧ ((http.StatusCode resp < 400)%Z →
     json.parse (http.ResponseBody resp')
     = Some (json.Object
               (filter (fun member =>
                          is_Some (json.find_field TranscriptResult.fields member.1))
                       members)) →
     handleResponse TranscriptResult.t resp' = handleResponse TranscriptResult.t resp)
  ∧ ((http.StatusCode resp < 400)%Z →
     json.parse (http.ResponseBody resp')
     = Some (json.Object
               (filter (fun member => is_Some (json.find_field AccountInfo.fields member.1))
                       members)) →
     handleResponse AccountInfo.t resp' = handleResponse AccountInfo.t resp).
Proof.
  intros Hread Hread' Hstatus Hparse. split; [|split]; intros Hst Hparse'.
  - rewrite !handleRawResponse_failure by (done || lia). rewrite Hstatus.
    rewrite (Unmarshal_ErrorResponse_object _ _ Hparse),
      (Unmarshal_ErrorResponse_object _ _ Hparse').
    by rewrite fold_store_member_known.
  - unfold handleResponse. rewrite !handleRawResponse_success by (done || lia). simpl.
    rewrite (Unmarshal_TranscriptResult_object _ _ Hparse),
      (Unmarshal_TranscriptResult_object _ _ Hparse').
    by rewrite fold_store_member_known.
  - unfold handleResponse. rewrite !handleRawResponse_success by (done || lia). simpl.
    rewrite (Unmarshal_AccountInfo_object _ _ Hparse),
      (Unmarshal_AccountInfo_object _ _ Hparse').
    by rewrite fold_store_member_known.
Qed.

Lemma unknown_members_ignored_witness :
  handleResponse TranscriptResult.t (response 200 (rewrite_quotes "{'status':'queued'}"))
  = handleResponse TranscriptResult.t
      (response 200 (rewrite_quotes "{'progress':0.5,'status':'queued','eta':[1,2]}")).
Proof.
  edestruct (unknown_members_ignored
               (response 200 (rewrite_quotes "{'progress':0.5,'status':'queued','eta':[1,2]}"))
               (response 200 (rewrite_quotes "{'status':'queued'}")))
    as (_ & Hresult & _).
  - reflexivity.
  - reflexivity.
  - reflexivity.
  - vm_compute. reflexivity.
  - apply Hresult; [vm_compute; reflexivity|]. vm_compute. reflexivity.
Defined.
